(** * SegNet and its Monte-Carlo dropout variants (model.py)

    A shallow embedding of [model.py]: the building-block unit
    [_make_layer], the encoder and decoder blocks with their Bayesian
    subclasses, the network [SegNet] and the two variant assemblers
    [BayesEncoderSegNet] and [BayesCenterSegNet].

    The tensor runtime the program is written against (PyTorch's [nn]
    modules) is represented in two layers.  Everything that decides shapes, errors, pooling indices,
    the scatter of the unpooling and the mode gating of dropout and batch
    normalisation is written out ([Module nn]).  The floating-point
    kernels themselves (convolution sums, normalisation, the exponential
    of the softmax, the random draws) are the fields of the class
    [Runtime]: the development is parametric in them. *)

From Stdlib Require Import ZArith List Bool Lia QArith.
Import ListNotations.

Set Implicit Arguments.
Generalizable All Variables.

Local Open Scope Z_scope.

(** ** Tensors *)

(** A 4-dimensional array (batch, channels, height, width).  The entries
    are read through [at4]; only the entries inside the shape matter. *)
Record Tensor (A : Type) : Type := mkTensor {
  tB : nat;
  tC : nat;
  tH : nat;
  tW : nat;
  at4 : nat -> nat -> nat -> nat -> A
}.

(** [x.size()] *)
Definition size {A} (x : Tensor A) : list Z :=
  [Z.of_nat (tB x); Z.of_nat (tC x); Z.of_nat (tH x); Z.of_nat (tW x)].

Definition same_shape {A B} (x : Tensor A) (y : Tensor B) : bool :=
  (tB x =? tB y)%nat && (tC x =? tC y)%nat && (tH x =? tH y)%nat && (tW x =? tW y)%nat.

(** ** The numerical runtime *)

Class Runtime : Type := {
  scalar : Type;
  zero : scalar;
  neg_inf : scalar;
  (** [a > b] and [isnan a] on scalars *)
  gt : scalar -> scalar -> bool;
  isnan : scalar -> bool;
  mul : scalar -> scalar -> scalar;
  (** [max(0, a)] *)
  relu : scalar -> scalar;
  (** state of the default random generator *)
  Rng : Type;
  (** weight and bias of a convolution *)
  ConvParams : Type;
  (** weight, bias, running mean, running variance and batch counter of a
      batch normalisation *)
  BNState : Type;
  (** random initialisation of a convolution with the given numbers of input
      and output channels and kernel size *)
  init_conv : Z -> Z -> Z -> Rng -> ConvParams * Rng;
  (** initialisation of a batch normalisation (ones and zeros) *)
  init_bn : Z -> BNState;
  (** the entries of the convolution of a tensor, for a kernel size and a padding *)
  conv2d_kernel : ConvParams -> Z -> Z -> Tensor scalar -> nat -> nat -> nat -> nat -> scalar;
  (** normalisation with the running statistics *)
  batch_norm_eval : BNState -> Tensor scalar -> nat -> nat -> nat -> nat -> scalar;
  (** normalisation with the statistics of the batch, and the updated buffers *)
  batch_norm_train : BNState -> Tensor scalar -> (nat -> nat -> nat -> nat -> scalar) * BNState;
  (** one draw per (batch, channel) with the given probability of keeping *)
  bernoulli : Q -> nat -> nat -> Rng -> (nat -> nat -> bool) * Rng;
  (** the value of the noise tensor: [1/(1-p)] where kept, [0] where dropped *)
  noise_value : Q -> bool -> scalar;
  (** softmax of a vector of the given length, at a position *)
  softmax_kernel : nat -> (nat -> scalar) -> nat -> scalar
}.

(** ** Exceptions, the trace of block calls, and the monad of the program *)

Inductive Cause : Type :=
| ChannelMismatch
| KernelLargerThanInput
| ExpectedMoreThanOneValuePerChannel
| EmptyInput
| PoolOutputTooSmall
| BadOutputSize
| IndicesShapeMismatch
| InvalidMaxIndex
| BadDropoutProbability
| BadPoolParameters
| NegativeDimension
| WeightTooSmall
| ShapeInvalidForInput.

Inductive Exn : Type :=
| RuntimeError (why : Cause)
| ValueError (why : Cause).

(** What a hook on the ten blocks of the network observes: the attribute
    number of the block, its arguments and its result. *)
Inductive Event `{Runtime} : Type :=
| EvEncoder (k : nat) (input : Tensor scalar) (output : Tensor scalar) (indices : Tensor Z)
| EvDecoder (k : nat) (input : Tensor scalar) (indices : Tensor Z)
            (output_size : option (list Z)) (output : Tensor scalar).

Record World `{Runtime} : Type := mkWorld {
  rng : Rng;
  trace : list Event
}.
Arguments mkWorld {_} _ _.

Inductive Result (A : Type) : Type :=
| Ok (a : A)
| Raise (e : Exn).
Arguments Raise {A} e.

Definition M `{Runtime} (A : Type) : Type := World -> Result (A * World).

Definition ret `{Runtime} {A} (a : A) : M A := fun w => Ok (a, w).

Definition bind `{Runtime} {A B} (m : M A) (f : A -> M B) : M B :=
  fun w => match m w with
           | Ok (a, w') => f a w'
           | Raise e => Raise e
           end.

Definition raise `{Runtime} {A} (e : Exn) : M A := fun _ => Raise e.

Definition log `{Runtime} (ev : Event) : M unit :=
  fun w => Ok (tt, {| rng := rng w; trace := trace w ++ [ev] |}).

(** a draw from the random generator *)
Definition draw `{Runtime} {A} (f : Rng -> A * Rng) : M A :=
  fun w => Ok (fst (f (rng w)), {| rng := snd (f (rng w)); trace := trace w |}).

Declare Scope monad_scope.
Delimit Scope monad_scope with monad.
Notation "x <- m ;; k" := (bind m (fun x => k))
  (at level 61, m at next level, right associativity) : monad_scope.
Notation "' p <- m ;; k" := (bind m (fun x => match x with p => k end))
  (at level 61, p pattern, m at next level, right associativity) : monad_scope.
Local Open Scope monad_scope.

(** [for _ in range(n): acc = body(acc)] *)
Fixpoint iterate `{Runtime} {A} (n : nat) (body : A -> M A) (acc : A) : M A :=
  match n with
  | O => ret acc
  | S n' => acc' <- body acc ;; iterate n' body acc'
  end.

Definition for_range `{Runtime} {A} (n : Z) (body : A -> M A) (acc : A) : M A :=
  iterate (Z.to_nat n) body acc.

(** the value a run returns, whatever the world it leaves *)
Definition outcome {A W} (r : Result (A * W)) : Result A :=
  match r with
  | Ok (a, _) => Ok a
  | Raise e => Raise e
  end.

(** row-major enumeration of the cells of a rectangle *)
Definition cells (h0 nh w0 nw : nat) : list (nat * nat) :=
  list_prod (seq h0 nh) (seq w0 nw).

Definition all_cells (b c h w : nat) (p : nat -> nat -> nat -> nat -> bool) : bool :=
  forallb (fun ib => forallb (fun ic => forallb (fun ij => p ib ic (fst ij) (snd ij))
                                          (cells 0 h 0 w)) (seq 0 c)) (seq 0 b).

(** ** The modules of the runtime used by model.py *)

Module nn.

(** [nn.Conv2d(in_channels, out_channels, kernel_size, padding)], with the
    defaults stride 1, dilation 1, groups 1.  The constructor allocates the
    weight, of shape [out_channels, in_channels, kernel_size, kernel_size],
    and raises on a negative dimension.  The call raises on a weight of no
    output channel, when the input has not [in_channels] channels, when a
    padded plane is smaller than the kernel, and on an input of no channel
    whose result would not be empty; a plane of [h] rows comes out with
    [h + 2 * padding - kernel_size + 1] rows. *)
Module Conv2d.

Record t `{Runtime} : Type := mk {
  in_channels : Z;
  out_channels : Z;
  kernel_size : Z;
  padding : Z;
  params : ConvParams
}.
Arguments mk {_} _ _ _ _ _.

Definition __init__ `{Runtime} (in_channels out_channels kernel_size padding : Z) : M t :=
  if (out_channels <? 0) || (in_channels <? 0) || (kernel_size <? 0)
  then raise (RuntimeError NegativeDimension)
  else
    p <- draw (init_conv in_channels out_channels kernel_size) ;;
    ret (mk in_channels out_channels kernel_size padding p).

Definition forward `{Runtime} (self : t) (x : Tensor scalar) : M (Tensor scalar) :=
  let hp := Z.of_nat (tH x) + 2 * padding self in
  let wp := Z.of_nat (tW x) + 2 * padding self in
  if out_channels self <? 1 then raise (RuntimeError WeightTooSmall)
  else if negb (Z.of_nat (tC x) =? in_channels self)
  then raise (RuntimeError ChannelMismatch)
  else if (hp <? kernel_size self) || (wp <? kernel_size self)
  then raise (RuntimeError KernelLargerThanInput)
  else if (tC x =? 0)%nat && negb (tB x =? 0)%nat
  then raise (RuntimeError ShapeInvalidForInput)
  else ret (mkTensor (tB x) (Z.to_nat (out_channels self))
                     (Z.to_nat (hp - kernel_size self + 1))
                     (Z.to_nat (wp - kernel_size self + 1))
                     (conv2d_kernel (params self) (kernel_size self) (padding self) x)).

End Conv2d.

(** [nn.BatchNorm2d(num_features)]: batch statistics and an update of the
    running buffers in training mode, the running statistics otherwise.  The
    constructor allocates buffers of [num_features] entries and raises on a
    negative number.  In
    training mode the call raises on a batch with a single value per channel;
    in both modes it raises when the input has not [num_features] channels. *)
Module BatchNorm2d.

Record t `{Runtime} : Type := mk {
  num_features : Z;
  training : bool;
  state : BNState
}.
Arguments mk {_} _ _ _.

Definition __init__ `{Runtime} (num_features : Z) : M t :=
  if num_features <? 0 then raise (RuntimeError NegativeDimension)
  else ret (mk num_features true (init_bn num_features)).

Definition train `{Runtime} (mode : bool) (self : t) : t :=
  mk (num_features self) mode (state self).

Definition forward `{Runtime} (self : t) (x : Tensor scalar) : M (Tensor scalar * t) :=
  if training self then
    if (tB x * tH x * tW x =? 1)%nat
    then raise (ValueError ExpectedMoreThanOneValuePerChannel)
    else if negb (Z.of_nat (tC x) =? num_features self)
    then raise (RuntimeError ChannelMismatch)
    else let r := batch_norm_train (state self) x in
         ret (mkTensor (tB x) (tC x) (tH x) (tW x) (fst r),
              mk (num_features self) (training self) (snd r))
  else
    if negb (Z.of_nat (tC x) =? num_features self)
    then raise (RuntimeError ChannelMismatch)
    else ret (mkTensor (tB x) (tC x) (tH x) (tW x) (batch_norm_eval (state self) x), self).

End BatchNorm2d.

(** [nn.ReLU(inplace)].  An operation that can work in place returns its
    result together with its argument as the call leaves it. *)
Module ReLU.

Record t : Type := mk { inplace : bool }.

Definition __init__ `{Runtime} (inplace : bool) : M t := ret (mk inplace).

Definition forward `{Runtime} (self : t) (x : Tensor scalar)
  : M (Tensor scalar * Tensor scalar) :=
  let y := mkTensor (tB x) (tC x) (tH x) (tW x)
                    (fun b c h w => relu (at4 x b c h w)) in
  ret (y, if inplace self then y else x).

End ReLU.

(** [nn.MaxPool2d(kernel_size, stride, return_indices=True)], with the
    defaults padding 0, dilation 1, ceil_mode False: [forward] returns the
    pooled tensor and the indices.  The call raises on an input with no
    channel, row or column, and when a plane is too small for one window. *)
Module MaxPool2d.

Record t : Type := mk {
  kernel_size : Z;
  stride : Z
}.

Definition __init__ `{Runtime} (kernel_size stride : Z) : M t :=
  ret (mk kernel_size stride).

(** the offset of a cell in its plane *)
Definition flat {A} (x : Tensor A) (ij : nat * nat) : Z :=
  Z.of_nat (fst ij * tW x + snd ij).

(** the cells of the window of the output cell [(oh, ow)], row by row *)
Definition window {A} (self : t) (x : Tensor A) (oh ow : nat) : list (nat * nat) :=
  let k := Z.to_nat (kernel_size self) in
  let s := Z.to_nat (stride self) in
  cells (oh * s) (Nat.min (oh * s + k) (tH x) - oh * s)
        (ow * s) (Nat.min (ow * s + k) (tW x) - ow * s).

(** the running maximum and its offset, from minus infinity at the first
    cell of the window: a cell replaces the maximum when it is greater or
    not a number *)
Definition scan `{Runtime} (x : Tensor scalar) (b c : nat) (start : nat * nat)
  (cs : list (nat * nat)) : scalar * Z :=
  fold_left (fun acc ij =>
               let val := at4 x b c (fst ij) (snd ij) in
               if gt val (fst acc) || isnan val then (val, flat x ij) else acc)
            cs (neg_inf, flat x start).

Definition pool_at `{Runtime} (self : t) (x : Tensor scalar) (b c oh ow : nat) : scalar * Z :=
  let s := Z.to_nat (stride self) in
  scan x b c ((oh * s)%nat, (ow * s)%nat) (window self x oh ow).

(** floor((input - kernel) / stride) + 1 *)
Definition output_shape (self : t) (n : nat) : Z :=
  (Z.of_nat n - kernel_size self) / stride self + 1.

Definition forward `{Runtime} (self : t) (x : Tensor scalar)
  : M (Tensor scalar * Tensor Z) :=
  if (kernel_size self <=? 0) || (stride self <=? 0)
  then raise (RuntimeError BadPoolParameters)
  else if (tC x =? 0)%nat || (tH x =? 0)%nat || (tW x =? 0)%nat
  then raise (RuntimeError EmptyInput)
  else
    let oh := output_shape self (tH x) in
    let ow := output_shape self (tW x) in
    if (oh <? 1) || (ow <? 1) then raise (RuntimeError PoolOutputTooSmall)
    else ret (mkTensor (tB x) (tC x) (Z.to_nat oh) (Z.to_nat ow)
                       (fun b c i j => fst (pool_at self x b c i j)),
              mkTensor (tB x) (tC x) (Z.to_nat oh) (Z.to_nat ow)
                       (fun b c i j => snd (pool_at self x b c i j))).

End MaxPool2d.

(** [nn.MaxUnpool2d(kernel_size, stride)], with the default padding 0.  The
    call raises on a target size out of range, on indices of another shape
    than the input, on an input with no channel, row or column, and on an
    index that is not the offset of a cell of the output plane. *)
Module MaxUnpool2d.

Record t : Type := mk {
  kernel_size : Z;
  stride : Z;
  padding : Z
}.

Definition __init__ `{Runtime} (kernel_size stride : Z) : M t :=
  ret (mk kernel_size stride 0).

(** the size the unpooling infers from its input *)
Definition default_size (self : t) (n : nat) : Z :=
  (Z.of_nat n - 1) * stride self + kernel_size self - 2 * padding self.

(** A target of four entries loses its first two (batch and channels); the
    two that remain must lie strictly within one stride of the default. *)
Definition _unpool_output_size `{Runtime} (self : t) (x : Tensor scalar)
  (output_size : option (list Z)) : M (Z * Z) :=
  let dh := default_size self (tH x) in
  let dw := default_size self (tW x) in
  match output_size with
  | None => ret (dh, dw)
  | Some l =>
      match (if (length l =? 4)%nat then skipn 2 l else l) with
      | [oh; ow] =>
          if (dh - stride self <? oh) && (oh <? dh + stride self)
             && (dw - stride self <? ow) && (ow <? dw + stride self)
          then ret (oh, ow)
          else raise (ValueError BadOutputSize)
      | _ => raise (ValueError BadOutputSize)
      end
  end.

(** the value written last at the cell [(h, w)] of a plane of width [ow],
    the input cells being visited row by row; zero when none is written *)
Definition scatter `{Runtime} (x : Tensor scalar) (indices : Tensor Z) (ow : Z)
  (b c h w : nat) : scalar :=
  fold_left (fun acc ij =>
               if at4 indices b c (fst ij) (snd ij) =? Z.of_nat h * ow + Z.of_nat w
               then at4 x b c (fst ij) (snd ij) else acc)
            (cells 0 (tH x) 0 (tW x)) zero.

Definition forward `{Runtime} (self : t) (x : Tensor scalar) (indices : Tensor Z)
  (output_size : option (list Z)) : M (Tensor scalar) :=
  ' (oh, ow) <- _unpool_output_size self x output_size ;;
  if negb (same_shape x indices) then raise (RuntimeError IndicesShapeMismatch)
  else if (tC x =? 0)%nat || (tH x =? 0)%nat || (tW x =? 0)%nat
  then raise (RuntimeError EmptyInput)
  else if negb (all_cells (tB x) (tC x) (tH x) (tW x)
                  (fun b c i j => (0 <=? at4 indices b c i j)
                                  && (at4 indices b c i j <? oh * ow)))
  then raise (RuntimeError InvalidMaxIndex)
  else ret (mkTensor (tB x) (tC x) (Z.to_nat oh) (Z.to_nat ow)
                     (fun b c h w => scatter x indices ow b c h w)).

End MaxUnpool2d.

(** [nn.Dropout2d(p, inplace)]: in training mode, one draw per (batch,
    channel) plane; the input is multiplied by the noise, [1/(1-p)] on the
    planes kept and [0] on the planes dropped.  Outside training mode, for
    [p = 0] and on an empty tensor the input is returned as it is. *)
Module Dropout2d.

Record t : Type := mk {
  p : Q;
  inplace : bool;
  training : bool
}.

Definition valid (p : Q) : bool := Qle_bool 0 p && Qle_bool p 1.

Definition __init__ `{Runtime} (p : Q) (inplace : bool) : M t :=
  if valid p then ret (mk p inplace true)
  else raise (ValueError BadDropoutProbability).

Definition train (mode : bool) (self : t) : t :=
  mk (p self) (inplace self) mode.

Definition numel {A} (x : Tensor A) : nat := (tB x * tC x * tH x * tW x)%nat.

Definition forward `{Runtime} (self : t) (x : Tensor scalar)
  : M (Tensor scalar * Tensor scalar) :=
  if negb (valid (p self)) then raise (ValueError BadDropoutProbability)
  else if Qeq_bool (p self) 0 || negb (training self) || (numel x =? 0)%nat
  then ret (x, x)
  else if Qeq_bool (p self) 1 then
    let y := mkTensor (tB x) (tC x) (tH x) (tW x)
                      (fun b c h w => mul (at4 x b c h w) zero) in
    ret (y, if inplace self then y else x)
  else
    mask <- draw (bernoulli (1 - p self) (tB x) (tC x)) ;;
    let y := mkTensor (tB x) (tC x) (tH x) (tW x)
                      (fun b c h w => mul (at4 x b c h w) (noise_value (p self) (mask b c))) in
    ret (y, if inplace self then y else x).

End Dropout2d.

(** [nn.Softmax2d()]: softmax over the channels at every position *)
Module Softmax2d.

Inductive t : Type := mk.

Definition __init__ `{Runtime} : M t := ret mk.

Definition forward `{Runtime} (self : t) (x : Tensor scalar) : M (Tensor scalar) :=
  ret (mkTensor (tB x) (tC x) (tH x) (tW x)
                (fun b c h w => softmax_kernel (tC x) (fun c' => at4 x b c' h w) c)).

End Softmax2d.

(** the modules a unit is made of *)
Inductive Leaf `{Runtime} : Type :=
| LConv2d (m : Conv2d.t)
| LBatchNorm2d (m : BatchNorm2d.t)
| LReLU (m : ReLU.t).

Definition call_leaf `{Runtime} (m : Leaf) (x : Tensor scalar) : M (Tensor scalar * Leaf) :=
  match m with
  | LConv2d c => y <- Conv2d.forward c x ;; ret (y, LConv2d c)
  | LBatchNorm2d b => ' (y, b') <- BatchNorm2d.forward b x ;; ret (y, LBatchNorm2d b')
  | LReLU r => ' (y, _) <- ReLU.forward r x ;; ret (y, LReLU r)
  end.

Definition train_leaf `{Runtime} (mode : bool) (m : Leaf) : Leaf :=
  match m with
  | LBatchNorm2d b => LBatchNorm2d (BatchNorm2d.train mode b)
  | _ => m
  end.

(** [nn.Sequential] of a list of modules: the modules are called in order,
    each on the result of the one before *)
Module Sequential.

Fixpoint forward `{Runtime} {T} (call : T -> Tensor scalar -> M (Tensor scalar * T))
  (self : list T) (x : Tensor scalar) : M (Tensor scalar * list T) :=
  match self with
  | [] => ret (x, [])
  | m :: rest =>
      ' (x', m') <- call m x ;;
      ' (y, rest') <- forward call rest x' ;;
      ret (y, m' :: rest')
  end.

Definition train {T} (train_child : bool -> T -> T) (mode : bool) (self : list T) : list T :=
  map (train_child mode) self.

End Sequential.

End nn.

(** ** model.py *)

(** a convolution-normalisation-activation unit *)
Definition Unit `{Runtime} : Type := list nn.Leaf.

Definition _make_layer `{Runtime} (in_channels out_channels : Z) : M Unit :=
  conv <- nn.Conv2d.__init__ in_channels out_channels 3 1 ;;
  bn <- nn.BatchNorm2d.__init__ out_channels ;;
  act <- nn.ReLU.__init__ true ;;
  ret [nn.LConv2d conv; nn.LBatchNorm2d bn; nn.LReLU act].

Definition call_unit `{Runtime} (u : Unit) (x : Tensor scalar) : M (Tensor scalar * Unit) :=
  nn.Sequential.forward nn.call_leaf u x.

Definition call_layers `{Runtime} (layers : list Unit) (x : Tensor scalar)
  : M (Tensor scalar * list Unit) :=
  nn.Sequential.forward call_unit layers x.

Definition train_layers `{Runtime} (mode : bool) (layers : list Unit) : list Unit :=
  nn.Sequential.train (nn.Sequential.train nn.train_leaf) mode layers.

Module _EncBlock.

Record t `{Runtime} : Type := mk {
  layers : list Unit;
  max_pool : nn.MaxPool2d.t
}.
Arguments mk {_} _ _.

Definition __init__ `{Runtime} (in_channels out_channels num_layers : Z) : M t :=
  first <- _make_layer in_channels out_channels ;;
  layers <- for_range (num_layers - 1)
              (fun layers => l <- _make_layer out_channels out_channels ;;
                             ret (layers ++ [l]))
              [first] ;;
  max_pool <- nn.MaxPool2d.__init__ 2 2 ;;
  ret (mk layers max_pool).

Definition forward `{Runtime} (self : t) (x : Tensor scalar)
  : M (Tensor scalar * Tensor Z * t) :=
  ' (x, layers') <- call_layers (layers self) x ;;
  ' (x, indices) <- nn.MaxPool2d.forward (max_pool self) x ;;
  ret (x, indices, mk layers' (max_pool self)).

Definition train `{Runtime} (mode : bool) (self : t) : t :=
  mk (train_layers mode (layers self)) (max_pool self).

End _EncBlock.

Module _BayesEncBlock.

Record t `{Runtime} : Type := mk {
  super : _EncBlock.t;
  dropout : nn.Dropout2d.t
}.
Arguments mk {_} _ _.

Definition __init__ `{Runtime} (in_channels out_channels num_layers : Z) : M t :=
  super <- _EncBlock.__init__ in_channels out_channels num_layers ;;
  dropout <- nn.Dropout2d.__init__ (1 # 2) false ;;
  ret (mk super dropout).

Definition forward `{Runtime} (self : t) (x : Tensor scalar)
  : M (Tensor scalar * Tensor Z * t) :=
  ' (x, indices, super') <- _EncBlock.forward (super self) x ;;
  ' (x, _) <- nn.Dropout2d.forward (dropout self) x ;;
  ret (x, indices, mk super' (dropout self)).

Definition train `{Runtime} (mode : bool) (self : t) : t :=
  mk (_EncBlock.train mode (super self)) (nn.Dropout2d.train mode (dropout self)).

End _BayesEncBlock.

Module _DecBlock.

Record t `{Runtime} : Type := mk {
  max_unpool : nn.MaxUnpool2d.t;
  layers : list Unit
}.
Arguments mk {_} _ _.

Definition __init__ `{Runtime} (in_channels out_channels num_layers : Z) : M t :=
  max_unpool <- nn.MaxUnpool2d.__init__ 2 2 ;;
  layers <- for_range (num_layers - 1)
              (fun layers => l <- _make_layer in_channels in_channels ;;
                             ret (layers ++ [l]))
              [] ;;
  last <- _make_layer in_channels out_channels ;;
  ret (mk max_unpool (layers ++ [last])).

Definition forward `{Runtime} (self : t) (x : Tensor scalar) (indices : Tensor Z)
  (output_size : option (list Z)) : M (Tensor scalar * t) :=
  x <- nn.MaxUnpool2d.forward (max_unpool self) x indices output_size ;;
  ' (x, layers') <- call_layers (layers self) x ;;
  ret (x, mk (max_unpool self) layers').

Definition train `{Runtime} (mode : bool) (self : t) : t :=
  mk (max_unpool self) (train_layers mode (layers self)).

End _DecBlock.

Module _BayesDecBlock.

Record t `{Runtime} : Type := mk {
  super : _DecBlock.t;
  dropout : nn.Dropout2d.t
}.
Arguments mk {_} _ _.

Definition __init__ `{Runtime} (in_channels out_channels num_layers : Z) : M t :=
  super <- _DecBlock.__init__ in_channels out_channels num_layers ;;
  dropout <- nn.Dropout2d.__init__ (1 # 2) false ;;
  ret (mk super dropout).

Definition forward `{Runtime} (self : t) (x : Tensor scalar) (indices : Tensor Z)
  (output_size : option (list Z)) : M (Tensor scalar * t) :=
  ' (x, super') <- _DecBlock.forward (super self) x indices output_size ;;
  ' (x, _) <- nn.Dropout2d.forward (dropout self) x ;;
  ret (x, mk super' (dropout self)).

Definition train `{Runtime} (mode : bool) (self : t) : t :=
  mk (_DecBlock.train mode (super self)) (nn.Dropout2d.train mode (dropout self)).

End _BayesDecBlock.

(** What an attribute [encoderK] or [decoderK] of the network holds: a
    block of the plain class or of its Bayesian subclass.  A call runs the
    [forward] of the class of the object. *)
Inductive Encoder `{Runtime} : Type :=
| Enc (b : _EncBlock.t)
| BayesEnc (b : _BayesEncBlock.t).

Inductive Decoder `{Runtime} : Type :=
| Dec (b : _DecBlock.t)
| BayesDec (b : _BayesDecBlock.t).

Definition call_encoder `{Runtime} (e : Encoder) (x : Tensor scalar)
  : M (Tensor scalar * Tensor Z * Encoder) :=
  match e with
  | Enc b => ' (y, indices, b') <- _EncBlock.forward b x ;; ret (y, indices, Enc b')
  | BayesEnc b => ' (y, indices, b') <- _BayesEncBlock.forward b x ;; ret (y, indices, BayesEnc b')
  end.

Definition call_decoder `{Runtime} (d : Decoder) (x : Tensor scalar) (indices : Tensor Z)
  (output_size : option (list Z)) : M (Tensor scalar * Decoder) :=
  match d with
  | Dec b => ' (y, b') <- _DecBlock.forward b x indices output_size ;; ret (y, Dec b')
  | BayesDec b => ' (y, b') <- _BayesDecBlock.forward b x indices output_size ;; ret (y, BayesDec b')
  end.

Definition train_encoder `{Runtime} (mode : bool) (e : Encoder) : Encoder :=
  match e with
  | Enc b => Enc (_EncBlock.train mode b)
  | BayesEnc b => BayesEnc (_BayesEncBlock.train mode b)
  end.

Definition train_decoder `{Runtime} (mode : bool) (d : Decoder) : Decoder :=
  match d with
  | Dec b => Dec (_DecBlock.train mode b)
  | BayesDec b => BayesDec (_BayesDecBlock.train mode b)
  end.

(** a call of the block held by [encoderK], as a hook on it records it *)
Definition hooked_encoder `{Runtime} (k : nat) (e : Encoder) (x : Tensor scalar)
  : M (Tensor scalar * Tensor Z * Encoder) :=
  ' (y, indices, e') <- call_encoder e x ;;
  _ <- log (EvEncoder k x y indices) ;;
  ret (y, indices, e').

Definition hooked_decoder `{Runtime} (k : nat) (d : Decoder) (x : Tensor scalar)
  (indices : Tensor Z) (output_size : option (list Z)) : M (Tensor scalar * Decoder) :=
  ' (y, d') <- call_decoder d x indices output_size ;;
  _ <- log (EvDecoder k x indices output_size y) ;;
  ret (y, d').

Module SegNet.

Record t `{Runtime} : Type := mk {
  encoder0 : Encoder;
  encoder1 : Encoder;
  encoder2 : Encoder;
  encoder3 : Encoder;
  encoder4 : Encoder;
  decoder4 : Decoder;
  decoder3 : Decoder;
  decoder2 : Decoder;
  decoder1 : Decoder;
  decoder0 : Decoder;
  conv : nn.Conv2d.t;
  softmax : nn.Softmax2d.t
}.
Arguments mk {_} _ _ _ _ _ _ _ _ _ _ _ _.

Definition __init__ `{Runtime} (in_channels out_channels : Z) : M t :=
  encoder0 <- _EncBlock.__init__ in_channels 64 2 ;;
  encoder1 <- _EncBlock.__init__ 64 128 2 ;;
  encoder2 <- _EncBlock.__init__ 128 256 3 ;;
  encoder3 <- _EncBlock.__init__ 256 512 3 ;;
  encoder4 <- _EncBlock.__init__ 512 512 3 ;;
  decoder4 <- _DecBlock.__init__ 512 512 3 ;;
  decoder3 <- _DecBlock.__init__ 512 256 3 ;;
  decoder2 <- _DecBlock.__init__ 256 128 3 ;;
  decoder1 <- _DecBlock.__init__ 128 64 2 ;;
  decoder0 <- _DecBlock.__init__ 64 64 1 ;;
  conv <- nn.Conv2d.__init__ 64 out_channels 3 1 ;;
  softmax <- nn.Softmax2d.__init__ ;;
  ret (mk (Enc encoder0) (Enc encoder1) (Enc encoder2) (Enc encoder3) (Enc encoder4)
          (Dec decoder4) (Dec decoder3) (Dec decoder2) (Dec decoder1) (Dec decoder0)
          conv softmax).

Definition forward `{Runtime} (self : t) (x : Tensor scalar) : M (Tensor scalar * t) :=
  let dim0 := size x in
  ' (x, indices0, e0) <- hooked_encoder 0 (encoder0 self) x ;;
  let dim1 := size x in
  ' (x, indices1, e1) <- hooked_encoder 1 (encoder1 self) x ;;
  let dim2 := size x in
  ' (x, indices2, e2) <- hooked_encoder 2 (encoder2 self) x ;;
  let dim3 := size x in
  ' (x, indices3, e3) <- hooked_encoder 3 (encoder3 self) x ;;
  let dim4 := size x in
  ' (x, indices4, e4) <- hooked_encoder 4 (encoder4 self) x ;;
  ' (x, d4) <- hooked_decoder 4 (decoder4 self) x indices4 (Some dim4) ;;
  ' (x, d3) <- hooked_decoder 3 (decoder3 self) x indices3 (Some dim3) ;;
  ' (x, d2) <- hooked_decoder 2 (decoder2 self) x indices2 (Some dim2) ;;
  ' (x, d1) <- hooked_decoder 1 (decoder1 self) x indices1 (Some dim1) ;;
  ' (x, d0) <- hooked_decoder 0 (decoder0 self) x indices0 (Some dim0) ;;
  x <- nn.Conv2d.forward (conv self) x ;;
  x <- nn.Softmax2d.forward (softmax self) x ;;
  ret (x, mk e0 e1 e2 e3 e4 d4 d3 d2 d1 d0 (conv self) (softmax self)).

(** [self.train(mode)]: the flag of every module of the tree is set *)
Definition train `{Runtime} (mode : bool) (self : t) : t :=
  mk (train_encoder mode (encoder0 self)) (train_encoder mode (encoder1 self))
     (train_encoder mode (encoder2 self)) (train_encoder mode (encoder3 self))
     (train_encoder mode (encoder4 self))
     (train_decoder mode (decoder4 self)) (train_decoder mode (decoder3 self))
     (train_decoder mode (decoder2 self)) (train_decoder mode (decoder1 self))
     (train_decoder mode (decoder0 self))
     (conv self) (softmax self).

(** [self.eval()] *)
Definition eval `{Runtime} (self : t) : t := train false self.

End SegNet.

Module BayesEncoderSegNet.

Definition __init__ `{Runtime} (in_channels out_channels : Z) : M SegNet.t :=
  self <- SegNet.__init__ in_channels out_channels ;;
  encoder0 <- _BayesEncBlock.__init__ in_channels 64 2 ;;
  encoder1 <- _BayesEncBlock.__init__ 64 128 2 ;;
  encoder2 <- _BayesEncBlock.__init__ 128 256 3 ;;
  encoder3 <- _BayesEncBlock.__init__ 256 512 3 ;;
  encoder4 <- _BayesEncBlock.__init__ 512 512 3 ;;
  ret (SegNet.mk (BayesEnc encoder0) (BayesEnc encoder1) (BayesEnc encoder2)
                 (BayesEnc encoder3) (BayesEnc encoder4)
                 (SegNet.decoder4 self) (SegNet.decoder3 self) (SegNet.decoder2 self)
                 (SegNet.decoder1 self) (SegNet.decoder0 self)
                 (SegNet.conv self) (SegNet.softmax self)).

End BayesEncoderSegNet.

Module BayesCenterSegNet.

Definition __init__ `{Runtime} (in_channels out_channels : Z) : M SegNet.t :=
  self <- SegNet.__init__ in_channels out_channels ;;
  encoder2 <- _BayesEncBlock.__init__ 128 256 3 ;;
  encoder3 <- _BayesEncBlock.__init__ 256 512 3 ;;
  encoder4 <- _BayesEncBlock.__init__ 512 512 3 ;;
  decoder4 <- _BayesDecBlock.__init__ 512 512 3 ;;
  decoder3 <- _BayesDecBlock.__init__ 512 256 3 ;;
  decoder2 <- _BayesDecBlock.__init__ 256 128 3 ;;
  ret (SegNet.mk (SegNet.encoder0 self) (SegNet.encoder1 self)
                 (BayesEnc encoder2) (BayesEnc encoder3) (BayesEnc encoder4)
                 (BayesDec decoder4) (BayesDec decoder3) (BayesDec decoder2)
                 (SegNet.decoder1 self) (SegNet.decoder0 self)
                 (SegNet.conv self) (SegNet.softmax self)).

End BayesCenterSegNet.

(** ** The classes of the networks and the lookup of [forward] *)

Inductive Class : Type :=
| CSegNet
| CBayesEncoderSegNet
| CBayesCenterSegNet.

(** the class a class is derived from, [None] for the module base class of
    the runtime *)
Definition base_class (c : Class) : option Class :=
  match c with
  | CSegNet => None
  | CBayesEncoderSegNet => Some CSegNet
  | CBayesCenterSegNet => Some CSegNet
  end.

(** the [forward] the body of a class defines *)
Definition own_forward `{Runtime} (c : Class)
  : option (SegNet.t -> Tensor scalar -> M (Tensor scalar * SegNet.t)) :=
  match c with
  | CSegNet => Some SegNet.forward
  | CBayesEncoderSegNet => None
  | CBayesCenterSegNet => None
  end.

(** attribute lookup: the class itself, then its bases in order *)
Fixpoint resolve_forward `{Runtime} (depth : nat) (c : Class)
  : option (SegNet.t -> Tensor scalar -> M (Tensor scalar * SegNet.t)) :=
  match own_forward c with
  | Some f => Some f
  | None =>
      match depth, base_class c with
      | S depth', Some c' => resolve_forward depth' c'
      | _, _ => None
      end
  end.

Definition construct `{Runtime} (c : Class) (in_channels out_channels : Z) : M SegNet.t :=
  match c with
  | CSegNet => SegNet.__init__ in_channels out_channels
  | CBayesEncoderSegNet => BayesEncoderSegNet.__init__ in_channels out_channels
  | CBayesCenterSegNet => BayesCenterSegNet.__init__ in_channels out_channels
  end.

(** ** Observations on the objects built *)

(** the channel widths of a unit: a 3x3 convolution with padding 1, the
    normalisation of its output channels, an in-place activation *)
Definition unit_shape `{Runtime} (u : Unit) : option (Z * Z) :=
  match u with
  | [nn.LConv2d c; nn.LBatchNorm2d b; nn.LReLU r] =>
      if (nn.Conv2d.kernel_size c =? 3) && (nn.Conv2d.padding c =? 1)
         && (nn.BatchNorm2d.num_features b =? nn.Conv2d.out_channels c)
         && nn.ReLU.inplace r
      then Some (nn.Conv2d.in_channels c, nn.Conv2d.out_channels c)
      else None
  | _ => None
  end.

(** the channel width a stack of units produces from [cin] channels, when
    every unit takes what the one before produces *)
Fixpoint stack_io (cin : Z) (units : list (option (Z * Z))) : option Z :=
  match units with
  | [] => Some cin
  | Some (i, o) :: rest =>
      if (i =? cin) && (0 <? i) && (0 <? o) then stack_io o rest else None
  | None :: _ => None
  end.

Definition enc_super `{Runtime} (e : Encoder) : _EncBlock.t :=
  match e with
  | Enc b => b
  | BayesEnc b => _BayesEncBlock.super b
  end.

Definition dec_super `{Runtime} (d : Decoder) : _DecBlock.t :=
  match d with
  | Dec b => b
  | BayesDec b => _BayesDecBlock.super b
  end.

Definition enc_dropout `{Runtime} (e : Encoder) : option nn.Dropout2d.t :=
  match e with
  | Enc _ => None
  | BayesEnc b => Some (_BayesEncBlock.dropout b)
  end.

Definition dec_dropout `{Runtime} (d : Decoder) : option nn.Dropout2d.t :=
  match d with
  | Dec _ => None
  | BayesDec b => Some (_BayesDecBlock.dropout b)
  end.

Definition enc_units `{Runtime} (e : Encoder) : list (option (Z * Z)) :=
  map unit_shape (_EncBlock.layers (enc_super e)).

Definition dec_units `{Runtime} (d : Decoder) : list (option (Z * Z)) :=
  map unit_shape (_DecBlock.layers (dec_super d)).

Definition is_bayes_enc `{Runtime} (e : Encoder) : bool :=
  match e with Enc _ => false | BayesEnc _ => true end.

Definition is_bayes_dec `{Runtime} (d : Decoder) : bool :=
  match d with Dec _ => false | BayesDec _ => true end.

Definition dropout_ok (d : option nn.Dropout2d.t) : bool :=
  match d with
  | None => true
  | Some d => nn.Dropout2d.valid (nn.Dropout2d.p d)
  end.

Definition is_some_eq (o : option Z) (z : Z) : bool :=
  match o with Some z' => z' =? z | None => false end.

(** an encoder held by the network that maps [cin] to [cout] channels and
    pools 2x2 with stride 2 *)
Definition enc_wf `{Runtime} (cin cout : Z) (e : Encoder) : bool :=
  is_some_eq (stack_io cin (enc_units e)) cout
  && (0 <? cout)
  && (nn.MaxPool2d.kernel_size (_EncBlock.max_pool (enc_super e)) =? 2)
  && (nn.MaxPool2d.stride (_EncBlock.max_pool (enc_super e)) =? 2)
  && dropout_ok (enc_dropout e).

Definition dec_wf `{Runtime} (cin cout : Z) (d : Decoder) : bool :=
  is_some_eq (stack_io cin (dec_units d)) cout
  && (nn.MaxUnpool2d.kernel_size (_DecBlock.max_unpool (dec_super d)) =? 2)
  && (nn.MaxUnpool2d.stride (_DecBlock.max_unpool (dec_super d)) =? 2)
  && (nn.MaxUnpool2d.padding (_DecBlock.max_unpool (dec_super d)) =? 0)
  && dropout_ok (dec_dropout d).

Definition conv_wf `{Runtime} (cin cout : Z) (c : nn.Conv2d.t) : bool :=
  (nn.Conv2d.in_channels c =? cin) && (nn.Conv2d.out_channels c =? cout)
  && (nn.Conv2d.kernel_size c =? 3) && (nn.Conv2d.padding c =? 1).

(** the topology of [SegNet(in_channels, out_channels)], whatever the
    classes of the blocks, the parameters and the mode flags *)
Definition net_wf `{Runtime} (in_channels out_channels : Z) (net : SegNet.t) : bool :=
  enc_wf in_channels 64 (SegNet.encoder0 net)
  && enc_wf 64 128 (SegNet.encoder1 net)
  && enc_wf 128 256 (SegNet.encoder2 net)
  && enc_wf 256 512 (SegNet.encoder3 net)
  && enc_wf 512 512 (SegNet.encoder4 net)
  && dec_wf 512 512 (SegNet.decoder4 net)
  && dec_wf 512 256 (SegNet.decoder3 net)
  && dec_wf 256 128 (SegNet.decoder2 net)
  && dec_wf 128 64 (SegNet.decoder1 net)
  && dec_wf 64 64 (SegNet.decoder0 net)
  && conv_wf 64 out_channels (SegNet.conv net).

(** *** Evaluation mode: the flag of every module that reads it is off *)

Definition leaf_eval `{Runtime} (m : nn.Leaf) : bool :=
  match m with
  | nn.LBatchNorm2d b => negb (nn.BatchNorm2d.training b)
  | _ => true
  end.

Definition layers_eval `{Runtime} (layers : list Unit) : bool :=
  forallb (forallb leaf_eval) layers.

Definition dropout_eval (d : option nn.Dropout2d.t) : bool :=
  match d with
  | None => true
  | Some d => negb (nn.Dropout2d.training d)
  end.

Definition enc_eval `{Runtime} (e : Encoder) : bool :=
  layers_eval (_EncBlock.layers (enc_super e)) && dropout_eval (enc_dropout e).

Definition dec_eval `{Runtime} (d : Decoder) : bool :=
  layers_eval (_DecBlock.layers (dec_super d)) && dropout_eval (dec_dropout d).

Definition eval_mode `{Runtime} (net : SegNet.t) : bool :=
  enc_eval (SegNet.encoder0 net) && enc_eval (SegNet.encoder1 net)
  && enc_eval (SegNet.encoder2 net) && enc_eval (SegNet.encoder3 net)
  && enc_eval (SegNet.encoder4 net)
  && dec_eval (SegNet.decoder4 net) && dec_eval (SegNet.decoder3 net)
  && dec_eval (SegNet.decoder2 net) && dec_eval (SegNet.decoder1 net)
  && dec_eval (SegNet.decoder0 net).

(** training mode, as the modules are built: the flag of every
    normalisation is on *)
Definition leaf_training `{Runtime} (m : nn.Leaf) : bool :=
  match m with
  | nn.LBatchNorm2d b => nn.BatchNorm2d.training b
  | _ => true
  end.

Definition layers_training `{Runtime} (layers : list Unit) : bool :=
  forallb (forallb leaf_training) layers.

(** ** Properties of computations *)

(** the computation returns from every world, with a value in [P] *)
Definition returns `{Runtime} {A} (m : M A) (P : A -> Prop) : Prop :=
  forall w, exists a w', m w = Ok (a, w') /\ P a.


(** the run of a computation that reads nothing of the world: the same
    exception from every world, or the same value and the same events *)
Definition replay `{Runtime} {A} (r : Result (A * list Event)) (w : World)
  : Result (A * World) :=
  match r with
  | Ok (a, evs) => Ok (a, mkWorld (rng w) (trace w ++ evs))
  | Raise e => Raise e
  end.

Definition deterministic `{Runtime} {A} (m : M A) (P : A -> Prop) : Prop :=
  exists r, (forall w, m w = replay r w) /\ (forall a evs, r = Ok (a, evs) -> P a).

(** two calls of [forward] in a row on the same input; the second call is
    made on the network as the first one leaves it *)
Definition forward_twice `{Runtime} (net : SegNet.t) (x : Tensor scalar)
  : M (Tensor scalar * Tensor scalar * SegNet.t) :=
  ' (y1, net1) <- SegNet.forward net x ;;
  ' (y2, net2) <- SegNet.forward net1 x ;;
  ret (y1, y2, net2).

(** ** A small runtime over the integers, to run the model on concrete inputs *)

Definition toy_runtime : Runtime := {|
  scalar := Z;
  zero := 0;
  neg_inf := - 2 ^ 62;
  gt := Z.gtb;
  isnan := fun _ => false;
  mul := Z.mul;
  relu := Z.max 0;
  Rng := nat;
  ConvParams := nat;
  BNState := nat;
  init_conv := fun _ _ _ r => (r, S r);
  init_bn := fun _ => O;
  conv2d_kernel := fun p _ _ x b c h w => Z.of_nat p + at4 x b 0%nat h w;
  batch_norm_eval := fun _ x => at4 x;
  batch_norm_train := fun s x => (at4 x, S s);
  bernoulli := fun _ _ _ r => (fun b c => Nat.even (b + c + r), S r);
  noise_value := fun _ keep => if keep then 2 else 0;
  softmax_kernel := fun _ v c => v c
|}.

Definition toy_world : @World toy_runtime := @mkWorld toy_runtime O [].

(** a tensor of the toy runtime whose entry at (b, c, h, w) is h * w + c *)
Definition toy_input (b c h w : nat) : Tensor (@scalar toy_runtime) :=
  mkTensor b c h w (fun _ ic ih iw => Z.of_nat (ih * iw + ic)).

(** the size of a tensor and the rows of its plane (0, 0) *)
Definition dump {A} (x : Tensor A) : list Z * list (list A) :=
  (size x, map (fun i => map (fun j => at4 x 0%nat 0%nat i j) (seq 0 (tW x))) (seq 0 (tH x))).

(** an encoder block of one unit run on a 4x5 input, and the unpooling of
    its result with its indices and the size of the input as the target *)
Definition toy_pool_unpool
  : Result ((list Z * list (list Z)) * (list Z * list (list Z)) * (list Z * list (list Z))) :=
  outcome ((enc <- @_EncBlock.__init__ toy_runtime 3 2 1 ;;
            dec <- _DecBlock.__init__ 2 3 1 ;;
            ' (y, indices, _) <- _EncBlock.forward enc (toy_input 1 3 4 5) ;;
            u <- nn.MaxUnpool2d.forward (_DecBlock.max_unpool dec) y indices
                   (Some (size (toy_input 1 3 4 5))) ;;
            ret (dump y, dump indices, dump u)) toy_world).

(** the size an encoder block of one unit returns on an input of the toy runtime *)
Definition toy_encoder_size (b c h w : nat) : Result (list Z) :=
  outcome ((enc <- @_EncBlock.__init__ toy_runtime 3 2 1 ;;
            ' (y, _, _) <- _EncBlock.forward enc (toy_input b c h w) ;;
            ret (size y)) toy_world).

(** the indices a window of four equal entries gives in the toy runtime *)
Definition toy_indices_6 : Tensor Z :=
  mkTensor 1 64 2 3 (fun _ _ i j => Z.of_nat (2 * i * 6 + 2 * j)).

(** ** Specifications *)

Definition shaped {A} (x : Tensor A) (b c h w : nat) : Prop :=
  tB x = b /\ tC x = c /\ tH x = h /\ tW x = w.

(** the offsets of the cells of the 2x2 window of the output cell (i, j) in
    a plane of width [w] *)
Definition in_window (w i j : nat) (z : Z) : Prop :=
  exists a b, (a < 2)%nat /\ (b < 2)%nat /\ z = Z.of_nat ((2 * i + a) * w + (2 * j + b)).

(** what an encoder returns on [x]: the pooled tensor and the indices, at
    half the height and width, every index the offset of a cell of its 2x2
    window in the plane of [x] *)
Definition enc_post `{Runtime} (x : Tensor scalar) (cout : Z)
  (y : Tensor scalar) (indices : Tensor Z) : Prop :=
  shaped y (tB x) (Z.to_nat cout) (tH x / 2) (tW x / 2)
  /\ shaped indices (tB x) (Z.to_nat cout) (tH x / 2) (tW x / 2)
  /\ forall b c i j, (i < tH x / 2)%nat -> (j < tW x / 2)%nat ->
                     in_window (tW x) i j (at4 indices b c i j).

(** the pooled value [v] and the index [z] of the output cell (i, j): the
    entry of [u] at a cell of the 2x2 window with the offset of that cell, or
    minus infinity with the offset of the first cell when no entry replaced it *)
Definition pooled_from `{Runtime} (u : Tensor scalar) (b c i j : nat) (v : scalar) (z : Z)
  : Prop :=
  (exists a d, (a < 2)%nat /\ (d < 2)%nat
               /\ v = at4 u b c (2 * i + a) (2 * j + d)
               /\ z = Z.of_nat ((2 * i + a) * tW u + (2 * j + d)))
  \/ (v = neg_inf /\ z = Z.of_nat (2 * i * tW u + 2 * j)).

(** the laws of the comparison of floating-point numbers that make the
    pooled value a maximum: [>] is irreflexive and transitive, and nothing
    is greater than a value that is not a number *)
Definition gt_laws `{Runtime} : Prop :=
  (forall a, gt a a = false)
  /\ (forall a b c, gt a b = true -> gt b c = true -> gt a c = true)
  /\ (forall a b, isnan b = true -> gt a b = false).

(** [v] is a maximum of the 2x2 window of the output cell (i, j) of [u]: no
    entry of the window is greater than [v], and [v] is not a number when
    an entry of the window is not *)
Definition window_max `{Runtime} (u : Tensor scalar) (b c i j : nat) (v : scalar) : Prop :=
  forall a d, (a < 2)%nat -> (d < 2)%nat ->
    gt (at4 u b c (2 * i + a) (2 * j + d)) v = false
    /\ (isnan (at4 u b c (2 * i + a) (2 * j + d)) = true -> isnan v = true).

(** the entry [v] of the unpooled plane at (h, w), of width [ow]: the input
    entry at a cell whose index is the offset of (h, w), or zero when no
    index is that offset *)
Definition scatter_spec `{Runtime} (x : Tensor scalar) (indices : Tensor Z) (ow : nat)
  (b c h w : nat) (v : scalar) : Prop :=
  (exists i j, (i < tH x)%nat /\ (j < tW x)%nat
               /\ at4 indices b c i j = Z.of_nat (h * ow + w) /\ v = at4 x b c i j)
  \/ ((forall i j, (i < tH x)%nat -> (j < tW x)%nat ->
                   at4 indices b c i j <> Z.of_nat (h * ow + w))
      /\ v = zero).

(** the height and width the unpooling produces: twice the input without a
    target; with a target of two or four entries, its last two entries,
    within one stride of that *)
Definition unpool_size {A} (x : Tensor A) (output_size : option (list Z)) (oh ow : nat)
  : Prop :=
  match output_size with
  | None => oh = (2 * tH x)%nat /\ ow = (2 * tW x)%nat
  | Some l =>
      (l = [Z.of_nat oh; Z.of_nat ow] \/ exists a b, l = [a; b; Z.of_nat oh; Z.of_nat ow])
      /\ 2 * Z.of_nat (tH x) - 2 < Z.of_nat oh < 2 * Z.of_nat (tH x) + 2
      /\ 2 * Z.of_nat (tW x) - 2 < Z.of_nat ow < 2 * Z.of_nat (tW x) + 2
  end.

(** a block of the plain class with the given units *)
Definition plain_enc `{Runtime} (units : list (Z * Z)) (e : Encoder) : Prop :=
  is_bayes_enc e = false /\ enc_units e = map Some units
  /\ _EncBlock.max_pool (enc_super e) = nn.MaxPool2d.mk 2 2.

Definition plain_dec `{Runtime} (units : list (Z * Z)) (d : Decoder) : Prop :=
  is_bayes_dec d = false /\ dec_units d = map Some units
  /\ _DecBlock.max_unpool (dec_super d) = nn.MaxUnpool2d.mk 2 2 0.

(** a block of the Bayesian class with the given units: the plain block, and
    a dropout of probability 1/2, not in place, in training mode as built *)
Definition bayes_enc `{Runtime} (units : list (Z * Z)) (e : Encoder) : Prop :=
  is_bayes_enc e = true /\ enc_units e = map Some units
  /\ _EncBlock.max_pool (enc_super e) = nn.MaxPool2d.mk 2 2
  /\ enc_dropout e = Some (nn.Dropout2d.mk (1 # 2) false true).

Definition bayes_dec `{Runtime} (units : list (Z * Z)) (d : Decoder) : Prop :=
  is_bayes_dec d = true /\ dec_units d = map Some units
  /\ _DecBlock.max_unpool (dec_super d) = nn.MaxUnpool2d.mk 2 2 0
  /\ dec_dropout d = Some (nn.Dropout2d.mk (1 # 2) false true).

(** the table of the network: widths and numbers of units of the ten blocks,
    and the final convolution *)
Definition segnet_topology `{Runtime} (in_channels out_channels : Z) (net : SegNet.t) : Prop :=
  plain_enc [(in_channels, 64); (64, 64)] (SegNet.encoder0 net)
  /\ plain_enc [(64, 128); (128, 128)] (SegNet.encoder1 net)
  /\ plain_enc [(128, 256); (256, 256); (256, 256)] (SegNet.encoder2 net)
  /\ plain_enc [(256, 512); (512, 512); (512, 512)] (SegNet.encoder3 net)
  /\ plain_enc [(512, 512); (512, 512); (512, 512)] (SegNet.encoder4 net)
  /\ plain_dec [(512, 512); (512, 512); (512, 512)] (SegNet.decoder4 net)
  /\ plain_dec [(512, 512); (512, 512); (512, 256)] (SegNet.decoder3 net)
  /\ plain_dec [(256, 256); (256, 256); (256, 128)] (SegNet.decoder2 net)
  /\ plain_dec [(128, 128); (128, 64)] (SegNet.decoder1 net)
  /\ plain_dec [(64, 64)] (SegNet.decoder0 net)
  /\ conv_wf 64 out_channels (SegNet.conv net) = true.

(** ** Specifications of the network of any class *)

(** a block of either class with the given units *)
Definition enc_stage `{Runtime} (units : list (Z * Z)) (e : Encoder) : Prop :=
  enc_units e = map Some units
  /\ _EncBlock.max_pool (enc_super e) = nn.MaxPool2d.mk 2 2
  /\ dropout_ok (enc_dropout e) = true.

Definition dec_stage `{Runtime} (units : list (Z * Z)) (d : Decoder) : Prop :=
  dec_units d = map Some units
  /\ _DecBlock.max_unpool (dec_super d) = nn.MaxUnpool2d.mk 2 2 0
  /\ dropout_ok (dec_dropout d) = true.

(** the table of the network, whatever the classes of its blocks *)
Definition stages `{Runtime} (in_channels out_channels : Z) (net : SegNet.t) : Prop :=
  enc_stage [(in_channels, 64); (64, 64)] (SegNet.encoder0 net)
  /\ enc_stage [(64, 128); (128, 128)] (SegNet.encoder1 net)
  /\ enc_stage [(128, 256); (256, 256); (256, 256)] (SegNet.encoder2 net)
  /\ enc_stage [(256, 512); (512, 512); (512, 512)] (SegNet.encoder3 net)
  /\ enc_stage [(512, 512); (512, 512); (512, 512)] (SegNet.encoder4 net)
  /\ dec_stage [(512, 512); (512, 512); (512, 512)] (SegNet.decoder4 net)
  /\ dec_stage [(512, 512); (512, 512); (512, 256)] (SegNet.decoder3 net)
  /\ dec_stage [(256, 256); (256, 256); (256, 128)] (SegNet.decoder2 net)
  /\ dec_stage [(128, 128); (128, 64)] (SegNet.decoder1 net)
  /\ dec_stage [(64, 64)] (SegNet.decoder0 net)
  /\ conv_wf 64 out_channels (SegNet.conv net) = true.

(** a module as a call of [forward] may leave it: the same module, but
    for the statistics of a normalisation *)
Definition leaf_like `{Runtime} (m m' : nn.Leaf) : Prop :=
  match m, m' with
  | nn.LConv2d c, nn.LConv2d c' => c' = c
  | nn.LBatchNorm2d b, nn.LBatchNorm2d b' =>
      nn.BatchNorm2d.num_features b' = nn.BatchNorm2d.num_features b
      /\ nn.BatchNorm2d.training b' = nn.BatchNorm2d.training b
  | nn.LReLU r, nn.LReLU r' => r' = r
  | _, _ => False
  end.

Definition layers_like `{Runtime} (layers layers' : list Unit) : Prop :=
  Forall2 (Forall2 leaf_like) layers layers'.

Definition enc_like `{Runtime} (e e' : Encoder) : Prop :=
  is_bayes_enc e' = is_bayes_enc e
  /\ enc_dropout e' = enc_dropout e
  /\ _EncBlock.max_pool (enc_super e') = _EncBlock.max_pool (enc_super e)
  /\ layers_like (_EncBlock.layers (enc_super e)) (_EncBlock.layers (enc_super e')).

Definition dec_like `{Runtime} (d d' : Decoder) : Prop :=
  is_bayes_dec d' = is_bayes_dec d
  /\ dec_dropout d' = dec_dropout d
  /\ _DecBlock.max_unpool (dec_super d') = _DecBlock.max_unpool (dec_super d)
  /\ layers_like (_DecBlock.layers (dec_super d)) (_DecBlock.layers (dec_super d')).

Definition net_like `{Runtime} (net net' : SegNet.t) : Prop :=
  enc_like (SegNet.encoder0 net) (SegNet.encoder0 net')
  /\ enc_like (SegNet.encoder1 net) (SegNet.encoder1 net')
  /\ enc_like (SegNet.encoder2 net) (SegNet.encoder2 net')
  /\ enc_like (SegNet.encoder3 net) (SegNet.encoder3 net')
  /\ enc_like (SegNet.encoder4 net) (SegNet.encoder4 net')
  /\ dec_like (SegNet.decoder4 net) (SegNet.decoder4 net')
  /\ dec_like (SegNet.decoder3 net) (SegNet.decoder3 net')
  /\ dec_like (SegNet.decoder2 net) (SegNet.decoder2 net')
  /\ dec_like (SegNet.decoder1 net) (SegNet.decoder1 net')
  /\ dec_like (SegNet.decoder0 net) (SegNet.decoder0 net')
  /\ SegNet.conv net' = SegNet.conv net
  /\ SegNet.softmax net' = SegNet.softmax net.

(** no block of the network is of a Bayesian class *)
Definition plain_net `{Runtime} (net : SegNet.t) : bool :=
  negb (is_bayes_enc (SegNet.encoder0 net) || is_bayes_enc (SegNet.encoder1 net)
        || is_bayes_enc (SegNet.encoder2 net) || is_bayes_enc (SegNet.encoder3 net)
        || is_bayes_enc (SegNet.encoder4 net)
        || is_bayes_dec (SegNet.decoder4 net) || is_bayes_dec (SegNet.decoder3 net)
        || is_bayes_dec (SegNet.decoder2 net) || is_bayes_dec (SegNet.decoder1 net)
        || is_bayes_dec (SegNet.decoder0 net)).

(** * Verification *)

Unset Implicit Arguments.

Section Monad_laws.
Context {R : Runtime}.

Lemma bind_ok {A B} (m : M A) (f : A -> M B) w a w' :
  m w = Ok (a, w') -> bind m f w = f a w'.
Proof. unfold bind. now intros ->. Qed.

Lemma bind_raise {A B} (m : M A) (f : A -> M B) w e :
  m w = Raise e -> bind m f w = Raise e.
Proof. unfold bind. now intros ->. Qed.

Lemma bind_inv {A B} (m : M A) (f : A -> M B) w b w'' :
  bind m f w = Ok (b, w'') ->
  exists a w', m w = Ok (a, w') /\ f a w' = Ok (b, w'').
Proof.
  unfold bind. destruct (m w) as [[a w']|e]; [|discriminate].
  intros Hf. now exists a, w'.
Qed.

Lemma bind_assoc {A B C} (m : M A) (g : A -> M B) (f : B -> M C) w :
  bind (bind m g) f w = bind m (fun a => bind (g a) f) w.
Proof. unfold bind. now destruct (m w) as [[a w']|e]. Qed.

Lemma bind_ret {A B} (a : A) (f : A -> M B) w : bind (ret a) f w = f a w.
Proof. reflexivity. Qed.

Lemma world_eta (w : World) : mkWorld (rng w) (trace w) = w.
Proof. now destruct w. Qed.

(** *** returns *)

Lemma returns_ret {A} (a : A) (P : A -> Prop) : P a -> returns (ret a) P.
Proof. intros Ha w. now exists a, w. Qed.

Lemma returns_bind {A B} (m : M A) (f : A -> M B) (P : A -> Prop) (Q : B -> Prop) :
  returns m P -> (forall a, P a -> returns (f a) Q) -> returns (bind m f) Q.
Proof.
  intros Hm Hf w. destruct (Hm w) as (a & w' & Hrun & Ha).
  destruct (Hf a Ha w') as (b & w'' & Hrun' & Hb).
  exists b, w''. split; [|exact Hb]. unfold bind. now rewrite Hrun.
Qed.

Lemma returns_weaken {A} (m : M A) (P Q : A -> Prop) :
  returns m P -> (forall a, P a -> Q a) -> returns m Q.
Proof.
  intros Hm HPQ w. destruct (Hm w) as (a & w' & Hrun & Ha).
  exists a, w'. auto.
Qed.

(** *** keeps_trace *)





(** *** deterministic *)

Lemma det_ret {A} (a : A) (P : A -> Prop) : P a -> deterministic (ret a) P.
Proof.
  intros Ha. exists (Ok (a, [])). split.
  - intros w. unfold ret, replay. now rewrite app_nil_r, world_eta.
  - now intros a' evs [= <- _].
Qed.

Lemma det_raise {A} e (P : A -> Prop) : deterministic (raise e) P.
Proof. exists (Raise e). split; [reflexivity | discriminate]. Qed.

Lemma det_log (ev : Event) : deterministic (log ev) (fun _ => True).
Proof. exists (Ok (tt, [ev])). split; [reflexivity | auto]. Qed.

Lemma det_bind {A B} (m : M A) (f : A -> M B) (P : A -> Prop) (Q : B -> Prop) :
  deterministic m P -> (forall a, P a -> deterministic (f a) Q) ->
  deterministic (bind m f) Q.
Proof.
  intros (r & Hr & HP) Hf. destruct r as [[a evs]|e].
  - destruct (Hf a (HP a evs eq_refl)) as (r' & Hr' & HQ).
    destruct r' as [[b evs']|e'].
    + exists (Ok (b, evs ++ evs')). split.
      * intros w. unfold bind. rewrite Hr. cbn. rewrite Hr'. cbn. now rewrite app_assoc.
      * intros b' evs'' [= <- _]. eauto.
    + exists (Raise e'). split; [|discriminate].
      intros w. unfold bind. rewrite Hr. cbn. now rewrite Hr'.
  - exists (Raise e). split; [|discriminate].
    intros w. unfold bind. now rewrite Hr.
Qed.

Lemma det_keeps_rng {A} (m : M A) (P : A -> Prop) w a w' :
  deterministic m P -> m w = Ok (a, w') -> rng w' = rng w /\ P a.
Proof.
  intros (r & Hr & HP) Hrun. rewrite Hr in Hrun.
  destruct r as [[a0 evs]|e]; [|discriminate].
  cbn in Hrun. injection Hrun as <- <-. split; [reflexivity | eauto].
Qed.

Lemma det_outcome {A} (m : M A) (P : A -> Prop) w1 w2 :
  deterministic m P -> outcome (m w1) = outcome (m w2).
Proof.
  intros (r & Hr & _). rewrite !Hr. now destruct r as [[a evs]|e].
Qed.

End Monad_laws.

Section Arith.

Lemma half_ge (n k : nat) : (2 * k <= n)%nat -> (k <= n / 2)%nat.
Proof. intros Hk. apply Nat.div_le_lower_bound; lia. Qed.

Lemma twice_half_le (n : nat) : (2 * (n / 2) <= n)%nat.
Proof. apply Nat.Div0.mul_div_le. Qed.

Lemma twice_half_gt (n : nat) : (n < 2 * (n / 2) + 2)%nat.
Proof.
  pose proof (Nat.div_mod_eq n 2) as E.
  pose proof (Nat.mod_upper_bound n 2 ltac:(lia)). lia.
Qed.

Lemma pool_out (n : nat) : (2 <= n)%nat -> (Z.of_nat n - 2) / 2 + 1 = Z.of_nat (n / 2).
Proof.
  intros Hn. rewrite <- Z.div_add by lia.
  replace (Z.of_nat n - 2 + 1 * 2) with (Z.of_nat n) by lia.
  now rewrite Nat2Z.inj_div.
Qed.

Lemma in_cells (h0 nh w0 nw i j : nat) :
  In (i, j) (cells h0 nh w0 nw) <->
  (h0 <= i < h0 + nh)%nat /\ (w0 <= j < w0 + nw)%nat.
Proof. unfold cells. now rewrite in_prod_iff, !in_seq. Qed.

Lemma all_cells_true (b c h w : nat) (p : nat -> nat -> nat -> nat -> bool) :
  (forall ib ic i j, (ib < b)%nat -> (ic < c)%nat -> (i < h)%nat -> (j < w)%nat ->
                     p ib ic i j = true) ->
  all_cells b c h w p = true.
Proof.
  intros Hp. unfold all_cells.
  apply forallb_forall. intros ib Hib. apply in_seq in Hib.
  apply forallb_forall. intros ic Hic. apply in_seq in Hic.
  apply forallb_forall. intros [i j] Hij. apply in_cells in Hij.
  cbn. apply Hp; lia.
Qed.

End Arith.

Section Kernels.
Context {R : Runtime}.

(** the value the scan returns is the entry at the offset it returns, or
    minus infinity when no cell replaced it *)
Lemma scan_value (x : Tensor scalar) (b c : nat) (start : nat * nat) cs :
  let r := nn.MaxPool2d.scan x b c start cs in
  (exists ij, In ij cs /\ r = (at4 x b c (fst ij) (snd ij), nn.MaxPool2d.flat x ij))
  \/ r = (neg_inf, nn.MaxPool2d.flat x start).
Proof.
  unfold nn.MaxPool2d.scan.
  set (f := fun acc ij => _).
  assert (G : forall cs acc,
              (exists ij, In ij cs /\
                  fold_left f cs acc = (at4 x b c (fst ij) (snd ij), nn.MaxPool2d.flat x ij))
              \/ fold_left f cs acc = acc).
  { clear cs. induction cs as [|ij cs IH]; intros acc; cbn [fold_left]; [now right|].
    destruct (IH (f acc ij)) as [(ij' & Hin & E)|E].
    - left. exists ij'. split; [now right | exact E].
    - rewrite E. unfold f.
      destruct (gt _ _ || isnan _); [left|now right].
      exists ij. split; [now left | reflexivity]. }
  cbn zeta. apply G.
Qed.

Lemma window_2x2 {A} (x : Tensor A) (i j a b : nat) :
  (i < tH x / 2)%nat -> (j < tW x / 2)%nat ->
  In (a, b) (nn.MaxPool2d.window (nn.MaxPool2d.mk 2 2) x i j) ->
  (2 * i <= a < 2 * i + 2)%nat /\ (2 * j <= b < 2 * j + 2)%nat.
Proof.
  intros Hi Hj Hin. unfold nn.MaxPool2d.window in Hin. cbn in Hin.
  apply in_cells in Hin.
  pose proof (twice_half_le (tH x)). pose proof (twice_half_le (tW x)).
  change (Pos.to_nat 2) with 2%nat in Hin. lia.
Qed.

Lemma pool_value (x : Tensor scalar) (b c i j : nat) :
  (i < tH x / 2)%nat -> (j < tW x / 2)%nat ->
  pooled_from x b c i j (fst (nn.MaxPool2d.pool_at (nn.MaxPool2d.mk 2 2) x b c i j))
                        (snd (nn.MaxPool2d.pool_at (nn.MaxPool2d.mk 2 2) x b c i j)).
Proof.
  intros Hi Hj. unfold nn.MaxPool2d.pool_at.
  destruct (scan_value x b c
              ((i * Z.to_nat (nn.MaxPool2d.stride (nn.MaxPool2d.mk 2 2)))%nat,
               (j * Z.to_nat (nn.MaxPool2d.stride (nn.MaxPool2d.mk 2 2)))%nat)
              (nn.MaxPool2d.window (nn.MaxPool2d.mk 2 2) x i j))
    as [([a d] & Hin & E)|E]; rewrite E; cbn [fst snd].
  - apply window_2x2 in Hin; [|assumption|assumption].
    left. exists (a - 2 * i)%nat, (d - 2 * j)%nat.
    replace (2 * i + (a - 2 * i))%nat with a by lia.
    replace (2 * j + (d - 2 * j))%nat with d by lia.
    repeat split; lia.
  - right. split; [reflexivity|]. unfold nn.MaxPool2d.flat. cbn. f_equal. lia.
Qed.

(** under the laws of the comparison, the scan ends on a value that no
    cell it visited is greater than *)
Lemma scan_max (x : Tensor scalar) (b c : nat) (start : nat * nat) cs :
  gt_laws ->
  forall ij, In ij cs ->
    gt (at4 x b c (fst ij) (snd ij)) (fst (nn.MaxPool2d.scan x b c start cs)) = false
    /\ (isnan (at4 x b c (fst ij) (snd ij)) = true ->
        isnan (fst (nn.MaxPool2d.scan x b c start cs)) = true).
Proof.
  intros (Hirr & Htrans & Hnan). unfold nn.MaxPool2d.scan.
  set (f := fun acc ij => _).
  set (below := fun (v : scalar) (acc : scalar * Z) =>
                  gt v (fst acc) = false /\ (isnan v = true -> isnan (fst acc) = true)).
  assert (S1 : forall acc ij, below (at4 x b c (fst ij) (snd ij)) (f acc ij)).
  { intros acc ij. unfold below, f.
    destruct (gt (at4 x b c (fst ij) (snd ij)) (fst acc)) eqn:Hgt; cbn [orb fst].
    - split; [apply Hirr | auto].
    - destruct (isnan (at4 x b c (fst ij) (snd ij))) eqn:Hn; cbn [fst].
      + split; [apply Hirr | auto].
      + split; [exact Hgt | discriminate]. }
  assert (S2 : forall v acc ij, below v acc -> below v (f acc ij)).
  { intros v acc ij (Hv & Hvn). unfold below, f.
    destruct (gt (at4 x b c (fst ij) (snd ij)) (fst acc)) eqn:Hgt; cbn [orb fst].
    - split.
      + destruct (gt v (at4 x b c (fst ij) (snd ij))) eqn:Hv'; [|reflexivity].
        now rewrite (Htrans _ _ _ Hv' Hgt) in Hv.
      + intros Hn. specialize (Hvn Hn). now rewrite (Hnan _ _ Hvn) in Hgt.
    - destruct (isnan (at4 x b c (fst ij) (snd ij))) eqn:Hn; cbn [fst];
        [|split; assumption].
      split; [now apply Hnan | auto]. }
  assert (G : forall cs acc,
              (forall ij, In ij cs -> below (at4 x b c (fst ij) (snd ij)) (fold_left f cs acc))
              /\ (forall v, below v acc -> below v (fold_left f cs acc))).
  { clear cs. induction cs as [|ij cs IH]; intros acc; cbn [fold_left].
    - split; [intros ij []|auto].
    - destruct (IH (f acc ij)) as (Hin & Hmono). split.
      + intros ij' [<-|Hij']; [apply Hmono, S1 | now apply Hin].
      + intros v Hv. now apply Hmono, S2. }
  intros ij Hij. exact (proj1 (G cs _) ij Hij).
Qed.

Lemma window_2x2_in {A} (x : Tensor A) (i j a d : nat) :
  (i < tH x / 2)%nat -> (j < tW x / 2)%nat -> (a < 2)%nat -> (d < 2)%nat ->
  In ((2 * i + a)%nat, (2 * j + d)%nat) (nn.MaxPool2d.window (nn.MaxPool2d.mk 2 2) x i j).
Proof.
  intros Hi Hj Ha Hd. unfold nn.MaxPool2d.window. cbn.
  apply in_cells.
  pose proof (twice_half_le (tH x)). pose proof (twice_half_le (tW x)).
  change (Pos.to_nat 2) with 2%nat. lia.
Qed.

(** under the laws of the comparison, the pooled value is a maximum of its
    window *)
Lemma pool_max (x : Tensor scalar) (b c i j : nat) :
  gt_laws -> (i < tH x / 2)%nat -> (j < tW x / 2)%nat ->
  window_max x b c i j (fst (nn.MaxPool2d.pool_at (nn.MaxPool2d.mk 2 2) x b c i j)).
Proof.
  intros Hlaws Hi Hj a d Ha Hd. unfold nn.MaxPool2d.pool_at.
  exact (scan_max x b c _ _ Hlaws _ (window_2x2_in x i j a d Hi Hj Ha Hd)).
Qed.

Lemma pooled_from_in_window (x : Tensor scalar) (b c i j : nat) v z :
  pooled_from x b c i j v z -> in_window (tW x) i j z.
Proof.
  intros [(a & d & Ha & Hd & _ & ->)|(_ & ->)].
  - now exists a, d.
  - exists 0%nat, 0%nat. repeat split; [lia|lia|f_equal; lia].
Qed.

Lemma fold_last_match {A B} (test : A -> bool) (val : A -> B) (cs : list A) :
  forall acc,
    let r := fold_left (fun acc a => if test a then val a else acc) cs acc in
    (exists a, In a cs /\ test a = true /\ r = val a)
    \/ ((forall a, In a cs -> test a = false) /\ r = acc).
Proof.
  induction cs as [|a cs IH]; intros acc; cbn [fold_left].
  - right. split; [intros a []|reflexivity].
  - destruct (IH (if test a then val a else acc)) as [(a' & Hin & Ht & E)|(Hall & E)].
    + left. exists a'. split; [now right|]. split; assumption.
    + cbv zeta. rewrite E. destruct (test a) eqn:Ha.
      * left. exists a. split; [now left|]. split; [assumption|reflexivity].
      * right. split; [|reflexivity].
        intros a' [<-|Hin]; [assumption|now apply Hall].
Qed.

Lemma scatter_correct (x : Tensor scalar) (indices : Tensor Z) (ow b c h w : nat) :
  scatter_spec x indices ow b c h w
    (nn.MaxUnpool2d.scatter x indices (Z.of_nat ow) b c h w).
Proof.
  unfold nn.MaxUnpool2d.scatter.
  replace (Z.of_nat h * Z.of_nat ow + Z.of_nat w) with (Z.of_nat (h * ow + w)) by lia.
  destruct (fold_last_match
              (fun ij : nat * nat => at4 indices b c (fst ij) (snd ij) =? Z.of_nat (h * ow + w))
              (fun ij : nat * nat => at4 x b c (fst ij) (snd ij))
              (cells 0 (tH x) 0 (tW x)) zero) as [([i j] & Hin & Ht & E)|(Hall & E)].
  - left. exists i, j. apply in_cells in Hin. cbn [fst snd] in *.
    apply Z.eqb_eq in Ht. repeat split; try lia; assumption.
  - right. split; [|exact E]. intros i j Hi Hj.
    apply Z.eqb_neq. apply (Hall (i, j)). apply in_cells. lia.
Qed.

Lemma in_window_bound (h w i j : nat) (z : Z) :
  (i < h / 2)%nat -> (j < w / 2)%nat -> in_window w i j z ->
  0 <= z < Z.of_nat h * Z.of_nat w.
Proof.
  intros Hi Hj (a & b & Ha & Hb & ->).
  pose proof (twice_half_le h). pose proof (twice_half_le w).
  split; [lia|]. rewrite <- Nat2Z.inj_mul. apply Nat2Z.inj_lt.
  assert (2 * i + a < h)%nat by lia. assert (2 * j + b < w)%nat by lia.
  nia.
Qed.

End Kernels.

Section Construction.
Context {R : Runtime}.

Lemma unit_shape_make (cin cout : Z) (p : ConvParams) (flag : bool) (s : BNState) :
  unit_shape [nn.LConv2d (nn.Conv2d.mk cin cout 3 1 p);
              nn.LBatchNorm2d (nn.BatchNorm2d.mk cout flag s);
              nn.LReLU (nn.ReLU.mk true)] = Some (cin, cout).
Proof. cbn. now rewrite Z.eqb_refl. Qed.

Lemma conv_init_returns (cin cout k p : Z) :
  0 <= cin -> 0 <= cout -> 0 <= k ->
  returns (nn.Conv2d.__init__ cin cout k p)
    (fun c => exists ps, c = nn.Conv2d.mk cin cout k p ps).
Proof.
  intros Hi Ho Hk w. unfold nn.Conv2d.__init__.
  destruct (Z.ltb_spec cout 0); [lia|]. destruct (Z.ltb_spec cin 0); [lia|].
  destruct (Z.ltb_spec k 0); [lia|]. cbn [orb].
  do 2 eexists. split; [reflexivity|]. eexists. reflexivity.
Qed.

Lemma bn_init_returns (n : Z) :
  0 <= n ->
  returns (nn.BatchNorm2d.__init__ n)
    (fun b => b = nn.BatchNorm2d.mk n true (init_bn n)).
Proof.
  intros Hn w. unfold nn.BatchNorm2d.__init__.
  destruct (Z.ltb_spec n 0); [lia|]. now exists (nn.BatchNorm2d.mk n true (init_bn n)), w.
Qed.

Lemma make_layer_returns (cin cout : Z) :
  0 <= cin -> 0 <= cout ->
  returns (_make_layer cin cout) (fun u => unit_shape u = Some (cin, cout)).
Proof.
  intros Hi Ho. unfold _make_layer.
  eapply returns_bind; [apply conv_init_returns; lia|]. intros c (ps & ->).
  eapply returns_bind; [apply bn_init_returns; lia|]. intros b ->.
  apply returns_ret. apply unit_shape_make.
Qed.

(** a negative width makes the construction of a unit raise *)
Lemma make_layer_raises (cin cout : Z) (w : World) :
  cin < 0 \/ cout < 0 ->
  _make_layer cin cout w = Raise (RuntimeError NegativeDimension).
Proof.
  intros Hneg. unfold _make_layer, bind, nn.Conv2d.__init__.
  destruct (Z.ltb_spec cout 0); [reflexivity|].
  destruct (Z.ltb_spec cin 0); [reflexivity|]. lia.
Qed.

Lemma iterate_returns {A} (I : nat -> A -> Prop) (body : A -> M A) n :
  (forall k a, I k a -> returns (body a) (I (S k))) ->
  forall k acc, I k acc -> returns (iterate n body acc) (I (k + n)%nat).
Proof.
  intros Hbody. induction n as [|n IH]; intros k acc Hacc; cbn.
  - rewrite Nat.add_0_r. now apply returns_ret.
  - eapply returns_bind; [apply (Hbody _ _ Hacc)|].
    intros a Ha. rewrite <- Nat.add_succ_comm. now apply IH.
Qed.

Lemma repeat_snoc {A} (a : A) n : repeat a n ++ [a] = repeat a (S n).
Proof. now rewrite <- repeat_cons. Qed.

Lemma EncBlock_init_returns (cin cout nl : Z) :
  0 <= cin -> 0 <= cout ->
  returns (_EncBlock.__init__ cin cout nl)
    (fun blk => map unit_shape (_EncBlock.layers blk)
                = Some (cin, cout) :: repeat (Some (cout, cout)) (Z.to_nat (nl - 1))
                /\ _EncBlock.max_pool blk = nn.MaxPool2d.mk 2 2).
Proof.
  intros Hi Ho. unfold _EncBlock.__init__.
  eapply returns_bind; [now apply make_layer_returns|]. intros first Hfirst.
  eapply returns_bind.
  - unfold for_range.
    apply (iterate_returns
             (fun k ls => map unit_shape ls = Some (cin, cout) :: repeat (Some (cout, cout)) k))
      with (k := O).
    + intros k ls Hls. eapply returns_bind; [now apply make_layer_returns|].
      intros l Hl. apply returns_ret.
      rewrite map_app, Hls. cbn [map]. rewrite Hl.
      rewrite <- app_comm_cons. now rewrite repeat_snoc.
    + cbn. now rewrite Hfirst.
  - cbn beta. intros ls Hls. apply returns_ret. cbn. auto.
Qed.

Lemma DecBlock_init_returns (cin cout nl : Z) :
  0 <= cin -> 0 <= cout ->
  returns (_DecBlock.__init__ cin cout nl)
    (fun blk => map unit_shape (_DecBlock.layers blk)
                = repeat (Some (cin, cin)) (Z.to_nat (nl - 1)) ++ [Some (cin, cout)]
                /\ _DecBlock.max_unpool blk = nn.MaxUnpool2d.mk 2 2 0).
Proof.
  intros Hi Ho. unfold _DecBlock.__init__. cbn [nn.MaxUnpool2d.__init__].
  eapply returns_bind with (P := fun m => m = nn.MaxUnpool2d.mk 2 2 0);
    [now apply returns_ret|]. intros ? ->.
  eapply returns_bind.
  - unfold for_range.
    apply (iterate_returns
             (fun k ls => map unit_shape ls = repeat (Some (cin, cin)) k))
      with (k := O).
    + intros k ls Hls. eapply returns_bind; [now apply make_layer_returns|].
      intros l Hl. apply returns_ret.
      rewrite map_app, Hls. cbn [map]. rewrite Hl. apply repeat_snoc.
    + reflexivity.
  - cbn beta. intros ls Hls.
    eapply returns_bind; [now apply make_layer_returns|]. intros l Hl.
    apply returns_ret. cbn. rewrite map_app, Hls. cbn. now rewrite Hl.
Qed.

End Construction.

(** run the call at the head of a chain of binds with a lemma on it *)
Ltac run_with H :=
  repeat (first [rewrite bind_assoc | rewrite bind_ret]; cbv beta iota);
  lazymatch goal with
  | |- context [bind ?m ?f ?w] =>
      let HH := fresh "HH" in
      eassert (HH : returns m _);
      [ eapply H
      | let a := fresh "a" in
        let w' := fresh "w" in
        let E := fresh "E" in
        let Ha := fresh "Ha" in
        destruct (HH w) as (a & w' & E & Ha);
        rewrite (@bind_ok _ _ _ m f w a w' E); clear E HH;
        cbv beta; revert a w' Ha ]
  end.

Section Forward_shapes.
Context {R : Runtime}.

Lemma conv_forward_returns (c : nn.Conv2d.t) (x : Tensor scalar) :
  nn.Conv2d.kernel_size c = 3 -> nn.Conv2d.padding c = 1 ->
  nn.Conv2d.in_channels c = Z.of_nat (tC x) ->
  1 <= nn.Conv2d.out_channels c -> (1 <= tC x)%nat ->
  (1 <= tH x)%nat -> (1 <= tW x)%nat ->
  returns (nn.Conv2d.forward c x)
          (fun y => shaped y (tB x) (Z.to_nat (nn.Conv2d.out_channels c)) (tH x) (tW x)).
Proof.
  intros Hk Hp Hc Ho Hn Hh Hw w. unfold nn.Conv2d.forward.
  destruct (Z.ltb_spec (nn.Conv2d.out_channels c) 1); [lia|].
  rewrite Hk, Hp, Hc, Z.eqb_refl. cbn [negb].
  destruct (Z.ltb_spec (Z.of_nat (tH x) + 2 * 1) 3); [lia|].
  destruct (Z.ltb_spec (Z.of_nat (tW x) + 2 * 1) 3); [lia|].
  cbn [orb]. destruct (Nat.eqb_spec (tC x) 0); [lia|]. cbn [andb].
  do 2 eexists. split; [reflexivity|].
  unfold shaped. cbn. repeat split; lia.
Qed.

Lemma bn_forward_returns (b : nn.BatchNorm2d.t) (x : Tensor scalar) :
  nn.BatchNorm2d.num_features b = Z.of_nat (tC x) ->
  (tB x * tH x * tW x <> 1)%nat ->
  returns (nn.BatchNorm2d.forward b x)
          (fun r => shaped (fst r) (tB x) (tC x) (tH x) (tW x)).
Proof.
  intros Hc Hn w. unfold nn.BatchNorm2d.forward.
  rewrite Hc, Z.eqb_refl. cbn [negb].
  apply Nat.eqb_neq in Hn. rewrite Hn.
  destruct (nn.BatchNorm2d.training b); do 2 eexists; (split; [reflexivity|]);
    unfold shaped; cbn; auto.
Qed.

Lemma unit_shape_inv (u : Unit) (cin cout : Z) :
  unit_shape u = Some (cin, cout) ->
  exists p flag s,
    u = [nn.LConv2d (nn.Conv2d.mk cin cout 3 1 p);
         nn.LBatchNorm2d (nn.BatchNorm2d.mk cout flag s);
         nn.LReLU (nn.ReLU.mk true)].
Proof.
  destruct u as [|[c| |] [|[|b|] [|[| |r] [|]]]]; try discriminate.
  cbn. destruct c as [ci co k pd p], b as [nf flag s], r as [ip]. cbn.
  destruct (Z.eqb_spec k 3); [|discriminate].
  destruct (Z.eqb_spec pd 1); [|discriminate].
  destruct (Z.eqb_spec nf co); [|discriminate].
  destruct ip; [|discriminate]. cbn.
  intros [= <- <-]. subst. now exists p, flag, s.
Qed.

Lemma unit_forward_returns (u : Unit) (cin cout : Z) (x : Tensor scalar) :
  unit_shape u = Some (cin, cout) -> Z.of_nat (tC x) = cin -> 0 < cin -> 0 < cout ->
  (1 <= tH x)%nat -> (1 <= tW x)%nat -> (tB x * tH x * tW x <> 1)%nat ->
  returns (call_unit u x)
          (fun r => shaped (fst r) (tB x) (Z.to_nat cout) (tH x) (tW x)).
Proof.
  intros Hu Hc Hi Ho Hh Hw Hn.
  apply unit_shape_inv in Hu as (p & flag & s & ->).
  intros w. unfold call_unit. cbn [nn.Sequential.forward nn.call_leaf].
  run_with (conv_forward_returns (nn.Conv2d.mk cin cout 3 1 p) x
              eq_refl eq_refl (eq_sym Hc) ltac:(cbn; lia) ltac:(lia) Hh Hw).
  intros y w1 (HB & HC & HH & HW). cbn in HC.
  run_with (bn_forward_returns (nn.BatchNorm2d.mk cout flag s) y).
  { cbn. lia. }
  { now rewrite HB, HH, HW. }
  intros [y' b'] w2 (HB' & HC' & HH' & HW'). cbn [fst] in *.
  cbn [nn.ReLU.forward]. rewrite ?bind_assoc, ?bind_ret. cbn.
  do 2 eexists. split; [reflexivity|]. unfold shaped. cbn. repeat split; congruence.
Qed.

Lemma layers_forward_returns (layers : list Unit) :
  forall (cin cout : Z) (x : Tensor scalar),
  stack_io cin (map unit_shape layers) = Some cout -> Z.of_nat (tC x) = cin ->
  (1 <= tH x)%nat -> (1 <= tW x)%nat -> (tB x * tH x * tW x <> 1)%nat ->
  returns (call_layers layers x)
          (fun r => tB (fst r) = tB x /\ Z.of_nat (tC (fst r)) = cout
                    /\ tH (fst r) = tH x /\ tW (fst r) = tW x).
Proof.
  induction layers as [|u layers IH]; intros cin cout x Hs Hc Hh Hw Hn.
  - cbn in Hs. injection Hs as <-. apply returns_ret. cbn. auto.
  - cbn [map stack_io] in Hs.
    destruct (unit_shape u) as [[i o]|] eqn:Hu; [|discriminate].
    destruct (Z.eqb_spec i cin); [|discriminate]. subst i.
    destruct (Z.ltb_spec 0 cin); [|discriminate].
    destruct (Z.ltb_spec 0 o); [|discriminate]. cbn in Hs.
    intros w. unfold call_layers. cbn [nn.Sequential.forward].
    run_with (unit_forward_returns u cin o x Hu Hc ltac:(assumption) ltac:(assumption)
                Hh Hw Hn).
    intros [y u'] w1 (HB & HC & HH & HW). cbn [fst] in *.
    run_with (IH o cout y Hs).
    { rewrite HC. lia. } { lia. } { lia. } { now rewrite HB, HH, HW. }
    intros [z ls'] w2 Hz. cbn [fst] in Hz. cbn.
    do 2 eexists. split; [reflexivity|]. cbn. intuition congruence.
Qed.

Lemma no_single_value (b h w : nat) : (2 <= h)%nat -> (b * h * w <> 1)%nat.
Proof. intros Hh E. apply Nat.eq_mul_1 in E as [E _]. apply Nat.eq_mul_1 in E. lia. Qed.

Lemma max_pool_spec (x : Tensor scalar) :
  (1 <= tC x)%nat -> (2 <= tH x)%nat -> (2 <= tW x)%nat ->
  returns (nn.MaxPool2d.forward (nn.MaxPool2d.mk 2 2) x)
    (fun r => shaped (fst r) (tB x) (tC x) (tH x / 2) (tW x / 2)
              /\ shaped (snd r) (tB x) (tC x) (tH x / 2) (tW x / 2)
              /\ forall b c i j, (i < tH x / 2)%nat -> (j < tW x / 2)%nat ->
                   pooled_from x b c i j (at4 (fst r) b c i j) (at4 (snd r) b c i j)).
Proof.
  intros Hc Hh Hw w. unfold nn.MaxPool2d.forward.
  cbn [nn.MaxPool2d.kernel_size nn.MaxPool2d.stride].
  change ((2 <=? 0) || (2 <=? 0)) with false. cbv iota.
  destruct (Nat.eqb_spec (tC x) 0); [lia|].
  destruct (Nat.eqb_spec (tH x) 0); [lia|].
  destruct (Nat.eqb_spec (tW x) 0); [lia|]. cbn [orb].
  unfold nn.MaxPool2d.output_shape. cbn [nn.MaxPool2d.kernel_size nn.MaxPool2d.stride].
  rewrite !pool_out by assumption.
  destruct (Z.ltb_spec (Z.of_nat (tH x / 2)) 1);
    [pose proof (half_ge (tH x) 1); lia|].
  destruct (Z.ltb_spec (Z.of_nat (tW x / 2)) 1);
    [pose proof (half_ge (tW x) 1); lia|].
  cbn [orb]. do 2 eexists. split; [reflexivity|].
  unfold shaped. cbn [fst snd tB tC tH tW at4]. rewrite !Nat2Z.id.
  repeat split. intros b c i j Hi Hj. now apply pool_value.
Qed.

Lemma max_pool_returns (x : Tensor scalar) :
  (1 <= tC x)%nat -> (2 <= tH x)%nat -> (2 <= tW x)%nat ->
  returns (nn.MaxPool2d.forward (nn.MaxPool2d.mk 2 2) x)
    (fun r => shaped (fst r) (tB x) (tC x) (tH x / 2) (tW x / 2)
              /\ shaped (snd r) (tB x) (tC x) (tH x / 2) (tW x / 2)
              /\ forall b c i j, (i < tH x / 2)%nat -> (j < tW x / 2)%nat ->
                   in_window (tW x) i j (at4 (snd r) b c i j)).
Proof.
  intros Hc Hh Hw. eapply returns_weaken; [apply (max_pool_spec x Hc Hh Hw)|].
  intros r (Hy & Hidx & Hpool). repeat split; try apply Hy; try apply Hidx.
  intros b c i j Hi Hj. eapply pooled_from_in_window, Hpool; assumption.
Qed.

End Forward_shapes.

Section Blocks.
Context {R : Runtime}.

Lemma dropout_forward_returns (d : nn.Dropout2d.t) (x : Tensor scalar) :
  nn.Dropout2d.valid (nn.Dropout2d.p d) = true ->
  returns (nn.Dropout2d.forward d x)
    (fun r => shaped (fst r) (tB x) (tC x) (tH x) (tW x)
              /\ (nn.Dropout2d.inplace d = false -> snd r = x)).
Proof.
  intros Hv w. unfold nn.Dropout2d.forward. rewrite Hv. cbn [negb].
  destruct (Qeq_bool _ 0 || negb _ || (_ =? 0)%nat).
  - do 2 eexists. split; [reflexivity|]. unfold shaped. cbn. auto.
  - destruct (Qeq_bool _ 1).
    + do 2 eexists. split; [reflexivity|]. unfold shaped. cbn.
      repeat split. now intros ->.
    + do 2 eexists. split; [reflexivity|]. unfold shaped. cbn.
      repeat split. now intros ->.
Qed.

Lemma EncBlock_forward_returns (blk : _EncBlock.t) (cin cout : Z) (x : Tensor scalar) :
  stack_io cin (map unit_shape (_EncBlock.layers blk)) = Some cout -> 0 < cout ->
  _EncBlock.max_pool blk = nn.MaxPool2d.mk 2 2 ->
  Z.of_nat (tC x) = cin -> (2 <= tH x)%nat -> (2 <= tW x)%nat ->
  returns (_EncBlock.forward blk x)
          (fun r => enc_post x cout (fst (fst r)) (snd (fst r))).
Proof.
  intros Hs Ho Hp Hc Hh Hw w. unfold _EncBlock.forward. rewrite Hp.
  run_with (layers_forward_returns (_EncBlock.layers blk) cin cout x Hs Hc).
  { lia. } { lia. } { now apply no_single_value. }
  intros [y ls] w1 (HB & HC & HH & HW). cbn [fst] in *.
  run_with (max_pool_returns y).
  { lia. } { lia. } { lia. }
  intros [z idx] w2 (Hz & Hidx & Hwin). cbn [fst snd] in *.
  do 2 eexists. split; [reflexivity|]. cbn [fst snd].
  assert (E : tC y = Z.to_nat cout) by lia.
  rewrite HB, HH, HW, E in *. repeat split; try apply Hz; try apply Hidx. exact Hwin.
Qed.

Lemma enc_wf_inv (cin cout : Z) (e : Encoder) :
  enc_wf cin cout e = true ->
  stack_io cin (enc_units e) = Some cout /\ 0 < cout
  /\ _EncBlock.max_pool (enc_super e) = nn.MaxPool2d.mk 2 2
  /\ dropout_ok (enc_dropout e) = true.
Proof.
  unfold enc_wf. rewrite !andb_true_iff. intros ((((Hs & Ho) & Hk) & Hst) & Hd).
  repeat split; [| lia | | exact Hd].
  - unfold is_some_eq in Hs. destruct (stack_io _ _); [|discriminate].
    apply Z.eqb_eq in Hs. now subst.
  - destruct (_EncBlock.max_pool (enc_super e)) as [k s]. cbn in *.
    apply Z.eqb_eq in Hk, Hst. now subst.
Qed.

Lemma call_encoder_returns (e : Encoder) (cin cout : Z) (x : Tensor scalar) :
  enc_wf cin cout e = true -> Z.of_nat (tC x) = cin ->
  (2 <= tH x)%nat -> (2 <= tW x)%nat ->
  returns (call_encoder e x) (fun r => enc_post x cout (fst (fst r)) (snd (fst r))).
Proof.
  intros Hwf Hc Hh Hw. apply enc_wf_inv in Hwf as (Hs & Ho & Hp & Hd).
  intros w. destruct e as [b|b]; cbn [call_encoder enc_super enc_dropout enc_units] in *.
  - run_with (EncBlock_forward_returns b cin cout x Hs Ho Hp Hc Hh Hw).
    intros [[y idx] b'] w1 Hpost. cbn [fst snd] in *.
    do 2 eexists. split; [reflexivity|]. exact Hpost.
  - unfold _BayesEncBlock.forward.
    run_with (EncBlock_forward_returns (_BayesEncBlock.super b) cin cout x Hs Ho Hp Hc Hh Hw).
    intros [[y idx] b'] w1 (Hy & Hidx & Hwin). cbn [fst snd] in *.
    run_with (dropout_forward_returns (_BayesEncBlock.dropout b) y Hd).
    intros [z y'] w2 (Hz & _). cbn [fst] in *.
    repeat (first [rewrite bind_assoc | rewrite bind_ret]; cbv beta iota).
    do 2 eexists. split; [reflexivity|]. cbn [fst snd].
    unfold enc_post, shaped in *. intuition congruence.
Qed.

Lemma hooked_encoder_returns (k : nat) (e : Encoder) (cin cout : Z) (x : Tensor scalar) :
  enc_wf cin cout e = true -> Z.of_nat (tC x) = cin ->
  (2 <= tH x)%nat -> (2 <= tW x)%nat ->
  returns (hooked_encoder k e x) (fun r => enc_post x cout (fst (fst r)) (snd (fst r))).
Proof.
  intros Hwf Hc Hh Hw w. unfold hooked_encoder.
  run_with (call_encoder_returns e cin cout x Hwf Hc Hh Hw).
  intros [[y idx] e'] w1 Hpost. cbn [fst snd] in *.
  do 2 eexists. split; [reflexivity|]. exact Hpost.
Qed.

Lemma max_unpool_spec (x : Tensor scalar) (indices : Tensor Z)
  (output_size : option (list Z)) (oh ow : nat) :
  unpool_size x output_size oh ow ->
  shaped indices (tB x) (tC x) (tH x) (tW x) ->
  (1 <= tC x)%nat -> (1 <= tH x)%nat -> (1 <= tW x)%nat ->
  (forall ib ic i j, (ib < tB x)%nat -> (ic < tC x)%nat -> (i < tH x)%nat -> (j < tW x)%nat ->
     0 <= at4 indices ib ic i j < Z.of_nat oh * Z.of_nat ow) ->
  returns (nn.MaxUnpool2d.forward (nn.MaxUnpool2d.mk 2 2 0) x indices output_size)
          (fun y => shaped y (tB x) (tC x) oh ow
                    /\ forall b c h w, scatter_spec x indices ow b c h w (at4 y b c h w)).
Proof.
  intros Hsz (HB & HC & HH & HW) Hc Hh Hw Hidx w.
  assert (Hrun : nn.MaxUnpool2d._unpool_output_size (nn.MaxUnpool2d.mk 2 2 0) x output_size w
                 = Ok ((Z.of_nat oh, Z.of_nat ow), w)).
  { unfold nn.MaxUnpool2d._unpool_output_size, nn.MaxUnpool2d.default_size.
    cbn [nn.MaxUnpool2d.kernel_size nn.MaxUnpool2d.stride nn.MaxUnpool2d.padding].
    destruct output_size as [l|]; unfold unpool_size in Hsz.
    - destruct Hsz as (Hl & Hht & Hwt).
      assert (El : (if (length l =? 4)%nat then skipn 2 l else l)
                   = [Z.of_nat oh; Z.of_nat ow])
        by (destruct Hl as [->|(a & b & ->)]; reflexivity).
      rewrite El.
      destruct (Z.ltb_spec ((Z.of_nat (tH x) - 1) * 2 + 2 - 2 * 0 - 2) (Z.of_nat oh)); [|lia].
      destruct (Z.ltb_spec (Z.of_nat oh) ((Z.of_nat (tH x) - 1) * 2 + 2 - 2 * 0 + 2)); [|lia].
      destruct (Z.ltb_spec ((Z.of_nat (tW x) - 1) * 2 + 2 - 2 * 0 - 2) (Z.of_nat ow)); [|lia].
      destruct (Z.ltb_spec (Z.of_nat ow) ((Z.of_nat (tW x) - 1) * 2 + 2 - 2 * 0 + 2)); [|lia].
      reflexivity.
    - destruct Hsz as (-> & ->).
      replace (Z.of_nat (2 * tH x)) with ((Z.of_nat (tH x) - 1) * 2 + 2 - 2 * 0) by lia.
      replace (Z.of_nat (2 * tW x)) with ((Z.of_nat (tW x) - 1) * 2 + 2 - 2 * 0) by lia.
      reflexivity. }
  unfold nn.MaxUnpool2d.forward.
  rewrite (@bind_ok _ _ _ _ _ w _ _ Hrun). cbv beta iota.
  unfold same_shape. rewrite HB, HC, HH, HW, !Nat.eqb_refl. cbn [andb negb].
  destruct (Nat.eqb_spec (tC x) 0); [lia|].
  destruct (Nat.eqb_spec (tH x) 0); [lia|].
  destruct (Nat.eqb_spec (tW x) 0); [lia|]. cbn [orb].
  rewrite all_cells_true.
  - cbn [negb]. do 2 eexists. split; [reflexivity|].
    unfold shaped. cbn [tB tC tH tW at4]. rewrite !Nat2Z.id.
    repeat split. intros b c h w'. apply scatter_correct.
  - intros ib ic i j Hib Hic Hi Hj. specialize (Hidx ib ic i j Hib Hic Hi Hj).
    apply andb_true_iff. split; [apply Z.leb_le | apply Z.ltb_lt]; lia.
Qed.

Lemma max_unpool_returns (x : Tensor scalar) (indices : Tensor Z) (a b : Z) (ht wt : nat) :
  shaped indices (tB x) (tC x) (tH x) (tW x) ->
  (1 <= tC x)%nat -> (1 <= tH x)%nat -> (1 <= tW x)%nat ->
  (forall ib ic i j, (i < tH x)%nat -> (j < tW x)%nat ->
     0 <= at4 indices ib ic i j < Z.of_nat ht * Z.of_nat wt) ->
  2 * Z.of_nat (tH x) - 2 < Z.of_nat ht < 2 * Z.of_nat (tH x) + 2 ->
  2 * Z.of_nat (tW x) - 2 < Z.of_nat wt < 2 * Z.of_nat (tW x) + 2 ->
  returns (nn.MaxUnpool2d.forward (nn.MaxUnpool2d.mk 2 2 0) x indices
             (Some [a; b; Z.of_nat ht; Z.of_nat wt]))
          (fun y => shaped y (tB x) (tC x) ht wt).
Proof.
  intros Hsh Hc Hh Hw Hidx Hht Hwt.
  eapply returns_weaken.
  - apply (max_unpool_spec x indices (Some [a; b; Z.of_nat ht; Z.of_nat wt]) ht wt);
      try assumption.
    + split; [right; now exists a, b | split; assumption].
    + intros ib ic i j _ _. apply Hidx.
  - intros y (Hy & _). exact Hy.
Qed.

End Blocks.

Section Network.
Context {R : Runtime}.

Lemma DecBlock_forward_returns (blk : _DecBlock.t) (cin cout : Z) (x : Tensor scalar)
  (indices : Tensor Z) (a b : Z) (ht wt : nat) :
  stack_io cin (map unit_shape (_DecBlock.layers blk)) = Some cout ->
  _DecBlock.max_unpool blk = nn.MaxUnpool2d.mk 2 2 0 ->
  Z.of_nat (tC x) = cin -> 0 < cin ->
  shaped indices (tB x) (tC x) (tH x) (tW x) ->
  (1 <= tH x)%nat -> (1 <= tW x)%nat ->
  (forall ib ic i j, (i < tH x)%nat -> (j < tW x)%nat ->
     0 <= at4 indices ib ic i j < Z.of_nat ht * Z.of_nat wt) ->
  2 * Z.of_nat (tH x) - 2 < Z.of_nat ht < 2 * Z.of_nat (tH x) + 2 ->
  2 * Z.of_nat (tW x) - 2 < Z.of_nat wt < 2 * Z.of_nat (tW x) + 2 ->
  (2 <= ht)%nat ->
  returns (_DecBlock.forward blk x indices (Some [a; b; Z.of_nat ht; Z.of_nat wt]))
          (fun r => tB (fst r) = tB x /\ Z.of_nat (tC (fst r)) = cout
                    /\ tH (fst r) = ht /\ tW (fst r) = wt).
Proof.
  intros Hs Hu Hc Hpos Hsh Hh Hw Hidx Hht Hwt Hht2 w.
  unfold _DecBlock.forward. rewrite Hu.
  run_with (max_unpool_returns x indices a b ht wt Hsh).
  { lia. } { lia. } { lia. } { exact Hidx. } { exact Hht. } { exact Hwt. }
  intros y w1 (HB & HC & HH & HW).
  run_with (layers_forward_returns (_DecBlock.layers blk) cin cout y Hs).
  { lia. } { lia. } { lia. } { rewrite HH. now apply no_single_value. }
  intros [z ls] w2 (HB' & HC' & HH' & HW'). cbn [fst] in *.
  do 2 eexists. split; [reflexivity|]. cbn [fst]. repeat split; congruence.
Qed.

Lemma dec_wf_inv (cin cout : Z) (d : Decoder) :
  dec_wf cin cout d = true ->
  stack_io cin (dec_units d) = Some cout
  /\ _DecBlock.max_unpool (dec_super d) = nn.MaxUnpool2d.mk 2 2 0
  /\ dropout_ok (dec_dropout d) = true.
Proof.
  unfold dec_wf. rewrite !andb_true_iff. intros ((((Hs & Hk) & Hst) & Hp) & Hd).
  repeat split; [| | exact Hd].
  - unfold is_some_eq in Hs. destruct (stack_io _ _); [|discriminate].
    apply Z.eqb_eq in Hs. now subst.
  - destruct (_DecBlock.max_unpool (dec_super d)) as [k s p]. cbn in *.
    apply Z.eqb_eq in Hk, Hst, Hp. now subst.
Qed.

Lemma hooked_decoder_returns (k : nat) (d : Decoder) (cin cout : Z) (x : Tensor scalar)
  (indices : Tensor Z) (a b : Z) (ht wt : nat) :
  dec_wf cin cout d = true -> Z.of_nat (tC x) = cin -> 0 < cin ->
  shaped indices (tB x) (tC x) (tH x) (tW x) ->
  (forall ib ic i j, (i < tH x)%nat -> (j < tW x)%nat ->
     in_window wt i j (at4 indices ib ic i j)) ->
  tH x = (ht / 2)%nat -> tW x = (wt / 2)%nat -> (2 <= ht)%nat -> (2 <= wt)%nat ->
  returns (hooked_decoder k d x indices (Some [a; b; Z.of_nat ht; Z.of_nat wt]))
          (fun r => tB (fst r) = tB x /\ Z.of_nat (tC (fst r)) = cout
                    /\ tH (fst r) = ht /\ tW (fst r) = wt).
Proof.
  intros Hwf Hc Hpos Hsh Hwin HH HW Hht Hwt.
  apply dec_wf_inv in Hwf as (Hs & Hu & Hd).
  pose proof (half_ge ht 1 ltac:(lia)). pose proof (half_ge wt 1 ltac:(lia)).
  pose proof (twice_half_le ht). pose proof (twice_half_gt ht).
  pose proof (twice_half_le wt). pose proof (twice_half_gt wt).
  assert (Hidx : forall ib ic i j, (i < tH x)%nat -> (j < tW x)%nat ->
            0 <= at4 indices ib ic i j < Z.of_nat ht * Z.of_nat wt).
  { intros ib ic i j Hi Hj. apply (in_window_bound ht wt i j); [lia | lia | auto]. }
  assert (Hblk : forall blk, _DecBlock.max_unpool blk = nn.MaxUnpool2d.mk 2 2 0 ->
            stack_io cin (map unit_shape (_DecBlock.layers blk)) = Some cout ->
            returns (_DecBlock.forward blk x indices (Some [a; b; Z.of_nat ht; Z.of_nat wt]))
              (fun r => tB (fst r) = tB x /\ Z.of_nat (tC (fst r)) = cout
                        /\ tH (fst r) = ht /\ tW (fst r) = wt)).
  { intros blk Hu' Hs'.
    apply (DecBlock_forward_returns blk cin cout x indices a b ht wt); auto; lia. }
  intros w. unfold hooked_decoder.
  destruct d as [blk|blk]; cbn [call_decoder dec_super dec_dropout dec_units] in *.
  - run_with (Hblk blk Hu Hs).
    intros [y blk'] w1 Hpost. cbn [fst] in *.
    repeat (first [rewrite bind_assoc | rewrite bind_ret]; cbv beta iota).
    do 2 eexists. split; [reflexivity|]. exact Hpost.
  - unfold _BayesDecBlock.forward.
    run_with (Hblk (_BayesDecBlock.super blk) Hu Hs).
    intros [y blk'] w1 (HB' & HC' & HH' & HW'). cbn [fst] in *.
    run_with (dropout_forward_returns (_BayesDecBlock.dropout blk) y Hd).
    intros [z y'] w2 ((HB2 & HC2 & HH2 & HW2) & _). cbn [fst] in *.
    repeat (first [rewrite bind_assoc | rewrite bind_ret]; cbv beta iota).
    do 2 eexists. split; [reflexivity|]. cbn [fst]. repeat split; congruence.
Qed.

Lemma net_wf_inv (cin cout : Z) (net : SegNet.t) :
  net_wf cin cout net = true ->
  (enc_wf cin 64 (SegNet.encoder0 net) = true
   /\ enc_wf 64 128 (SegNet.encoder1 net) = true
   /\ enc_wf 128 256 (SegNet.encoder2 net) = true
   /\ enc_wf 256 512 (SegNet.encoder3 net) = true
   /\ enc_wf 512 512 (SegNet.encoder4 net) = true)
  /\ (dec_wf 512 512 (SegNet.decoder4 net) = true
      /\ dec_wf 512 256 (SegNet.decoder3 net) = true
      /\ dec_wf 256 128 (SegNet.decoder2 net) = true
      /\ dec_wf 128 64 (SegNet.decoder1 net) = true
      /\ dec_wf 64 64 (SegNet.decoder0 net) = true)
  /\ conv_wf 64 cout (SegNet.conv net) = true.
Proof. unfold net_wf. rewrite !andb_true_iff. tauto. Qed.

Lemma conv_wf_inv (cin cout : Z) (c : nn.Conv2d.t) :
  conv_wf cin cout c = true ->
  nn.Conv2d.in_channels c = cin /\ nn.Conv2d.out_channels c = cout
  /\ nn.Conv2d.kernel_size c = 3 /\ nn.Conv2d.padding c = 1.
Proof. unfold conv_wf. rewrite !andb_true_iff, !Z.eqb_eq. tauto. Qed.

(** the forward pass of a network of the SegNet topology returns, on every
    input of at least 32 rows and columns *)
Lemma forward_returns (net : SegNet.t) (cin cout : Z) (x : Tensor scalar) :
  net_wf cin cout net = true -> Z.of_nat (tC x) = cin -> 0 < cout ->
  (32 <= tH x)%nat -> (32 <= tW x)%nat ->
  returns (SegNet.forward net x)
    (fun r => size (fst r) = [Z.of_nat (tB x); cout; Z.of_nat (tH x); Z.of_nat (tW x)]).
Proof.
  intros Hwf Hc Ho Hh Hw.
  apply net_wf_inv in Hwf as ((He0 & He1 & He2 & He3 & He4)
                              & (Hd4 & Hd3 & Hd2 & Hd1 & Hd0) & Hconv).
  apply conv_wf_inv in Hconv as (Hci & Hco & Hck & Hcp).
  intros w. unfold SegNet.forward. cbv zeta.
  run_with (hooked_encoder_returns 0 (SegNet.encoder0 net) cin 64 x He0 Hc).
  { lia. } { lia. }
  intros [[x1 i0] e0] w1 ((TB1 & TC1 & TH1 & TW1) & (IB0 & IC0 & IH0 & IW0) & Win0).
  cbn [fst snd] in *.
  pose proof (half_ge (tH x) 16 ltac:(lia)) as G1. pose proof (half_ge (tW x) 16 ltac:(lia)) as G2.
  run_with (hooked_encoder_returns 1 (SegNet.encoder1 net) 64 128 x1 He1).
  { lia. } { lia. } { lia. }
  intros [[x2 i1] e1] w2 ((TB2 & TC2 & TH2 & TW2) & (IB1 & IC1 & IH1 & IW1) & Win1).
  cbn [fst snd] in *.
  pose proof (half_ge (tH x1) 8 ltac:(lia)) as G3. pose proof (half_ge (tW x1) 8 ltac:(lia)) as G4.
  run_with (hooked_encoder_returns 2 (SegNet.encoder2 net) 128 256 x2 He2).
  { lia. } { lia. } { lia. }
  intros [[x3 i2] e2] w3 ((TB3 & TC3 & TH3 & TW3) & (IB2 & IC2 & IH2 & IW2) & Win2).
  cbn [fst snd] in *.
  pose proof (half_ge (tH x2) 4 ltac:(lia)) as G5. pose proof (half_ge (tW x2) 4 ltac:(lia)) as G6.
  run_with (hooked_encoder_returns 3 (SegNet.encoder3 net) 256 512 x3 He3).
  { lia. } { lia. } { lia. }
  intros [[x4 i3] e3] w4 ((TB4 & TC4 & TH4 & TW4) & (IB3 & IC3 & IH3 & IW3) & Win3).
  cbn [fst snd] in *.
  pose proof (half_ge (tH x3) 2 ltac:(lia)) as G7. pose proof (half_ge (tW x3) 2 ltac:(lia)) as G8.
  run_with (hooked_encoder_returns 4 (SegNet.encoder4 net) 512 512 x4 He4).
  { lia. } { lia. } { lia. }
  intros [[x5 i4] e4] w5 ((TB5 & TC5 & TH5 & TW5) & (IB4 & IC4 & IH4 & IW4) & Win4).
  cbn [fst snd] in *.
  unfold size.
  run_with (hooked_decoder_returns 4 (SegNet.decoder4 net) 512 512 x5 i4
              (Z.of_nat (tB x4)) (Z.of_nat (tC x4)) (tH x4) (tW x4) Hd4).
  { lia. } { lia. } { unfold shaped. repeat split; congruence. }
  { intros ib ic i j Hi Hj. apply Win4; lia. }
  { lia. } { lia. } { lia. } { lia. }
  intros [z4 d4] w6 (ZB4 & ZC4 & ZH4 & ZW4). cbn [fst] in *.
  run_with (hooked_decoder_returns 3 (SegNet.decoder3 net) 512 256 z4 i3
              (Z.of_nat (tB x3)) (Z.of_nat (tC x3)) (tH x3) (tW x3) Hd3).
  { lia. } { lia. } { unfold shaped. repeat split; try congruence; lia. }
  { intros ib ic i j Hi Hj. apply Win3; lia. }
  { lia. } { lia. } { lia. } { lia. }
  intros [z3 d3] w7 (ZB3 & ZC3 & ZH3 & ZW3). cbn [fst] in *.
  run_with (hooked_decoder_returns 2 (SegNet.decoder2 net) 256 128 z3 i2
              (Z.of_nat (tB x2)) (Z.of_nat (tC x2)) (tH x2) (tW x2) Hd2).
  { lia. } { lia. } { unfold shaped. repeat split; try congruence; lia. }
  { intros ib ic i j Hi Hj. apply Win2; lia. }
  { lia. } { lia. } { lia. } { lia. }
  intros [z2 d2] w8 (ZB2 & ZC2 & ZH2 & ZW2). cbn [fst] in *.
  run_with (hooked_decoder_returns 1 (SegNet.decoder1 net) 128 64 z2 i1
              (Z.of_nat (tB x1)) (Z.of_nat (tC x1)) (tH x1) (tW x1) Hd1).
  { lia. } { lia. } { unfold shaped. repeat split; try congruence; lia. }
  { intros ib ic i j Hi Hj. apply Win1; lia. }
  { lia. } { lia. } { lia. } { lia. }
  intros [z1 d1] w9 (ZB1 & ZC1 & ZH1 & ZW1). cbn [fst] in *.
  run_with (hooked_decoder_returns 0 (SegNet.decoder0 net) 64 64 z1 i0
              (Z.of_nat (tB x)) (Z.of_nat (tC x)) (tH x) (tW x) Hd0).
  { lia. } { lia. } { unfold shaped. repeat split; try congruence; lia. }
  { intros ib ic i j Hi Hj. apply Win0; lia. }
  { lia. } { lia. } { lia. } { lia. }
  intros [z0 d0] w10 (ZB0 & ZC0 & ZH0 & ZW0). cbn [fst] in *.
  run_with (conv_forward_returns (SegNet.conv net) z0 Hck Hcp).
  { lia. } { lia. } { lia. } { lia. } { lia. }
  intros y w11 (YB & YC & YH & YW).
  do 2 eexists. split; [reflexivity|]. cbn. rewrite Hco in YC.
  repeat (apply f_equal2; [lia|]). reflexivity.
Qed.

End Network.

Section Assembly.
Context {R : Runtime}.

Lemma Enc_init_returns (cin cout nl : Z) (units : list (Z * Z)) :
  Some (cin, cout) :: repeat (Some (cout, cout)) (Z.to_nat (nl - 1)) = map Some units ->
  0 <= cin -> 0 <= cout ->
  returns (_EncBlock.__init__ cin cout nl) (fun b => plain_enc units (Enc b)).
Proof.
  intros E Hi Ho. eapply returns_weaken; [now apply EncBlock_init_returns|].
  intros b (Hu & Hp). unfold plain_enc, enc_units. cbn. rewrite Hu. auto.
Qed.

Lemma Dec_init_returns (cin cout nl : Z) (units : list (Z * Z)) :
  repeat (Some (cin, cin)) (Z.to_nat (nl - 1)) ++ [Some (cin, cout)] = map Some units ->
  0 <= cin -> 0 <= cout ->
  returns (_DecBlock.__init__ cin cout nl) (fun b => plain_dec units (Dec b)).
Proof.
  intros E Hi Ho. eapply returns_weaken; [now apply DecBlock_init_returns|].
  intros b (Hu & Hp). unfold plain_dec, dec_units. cbn. rewrite Hu. auto.
Qed.

Lemma BayesEnc_init_returns (cin cout nl : Z) (units : list (Z * Z)) :
  Some (cin, cout) :: repeat (Some (cout, cout)) (Z.to_nat (nl - 1)) = map Some units ->
  0 <= cin -> 0 <= cout ->
  returns (_BayesEncBlock.__init__ cin cout nl) (fun b => bayes_enc units (BayesEnc b)).
Proof.
  intros E Hi Ho w. unfold _BayesEncBlock.__init__.
  run_with (EncBlock_init_returns cin cout nl Hi Ho).
  intros b w1 (Hu & Hp). do 2 eexists. split; [reflexivity|].
  unfold bayes_enc, enc_units. cbn. rewrite Hu. auto.
Qed.

Lemma BayesDec_init_returns (cin cout nl : Z) (units : list (Z * Z)) :
  repeat (Some (cin, cin)) (Z.to_nat (nl - 1)) ++ [Some (cin, cout)] = map Some units ->
  0 <= cin -> 0 <= cout ->
  returns (_BayesDecBlock.__init__ cin cout nl) (fun b => bayes_dec units (BayesDec b)).
Proof.
  intros E Hi Ho w. unfold _BayesDecBlock.__init__.
  run_with (DecBlock_init_returns cin cout nl Hi Ho).
  intros b w1 (Hu & Hp). do 2 eexists. split; [reflexivity|].
  unfold bayes_dec, dec_units. cbn. rewrite Hu. auto.
Qed.

Lemma SegNet_init_returns (i o : Z) :
  0 <= i -> 0 <= o ->
  returns (SegNet.__init__ i o) (segnet_topology i o).
Proof.
  intros Hi Ho w. unfold SegNet.__init__.
  run_with (Enc_init_returns i 64 2 [(i, 64); (64, 64)] eq_refl
              ltac:(lia) ltac:(lia)).
  intros e0 w0 He0.
  run_with (Enc_init_returns 64 128 2 [(64, 128); (128, 128)] eq_refl
              ltac:(lia) ltac:(lia)).
  intros e1 w1 He1.
  run_with (Enc_init_returns 128 256 3 [(128, 256); (256, 256); (256, 256)] eq_refl
              ltac:(lia) ltac:(lia)).
  intros e2 w2 He2.
  run_with (Enc_init_returns 256 512 3 [(256, 512); (512, 512); (512, 512)] eq_refl
              ltac:(lia) ltac:(lia)).
  intros e3 w3 He3.
  run_with (Enc_init_returns 512 512 3 [(512, 512); (512, 512); (512, 512)] eq_refl
              ltac:(lia) ltac:(lia)).
  intros e4 w4 He4.
  run_with (Dec_init_returns 512 512 3 [(512, 512); (512, 512); (512, 512)] eq_refl
              ltac:(lia) ltac:(lia)).
  intros d4 w5 Hd4.
  run_with (Dec_init_returns 512 256 3 [(512, 512); (512, 512); (512, 256)] eq_refl
              ltac:(lia) ltac:(lia)).
  intros d3 w6 Hd3.
  run_with (Dec_init_returns 256 128 3 [(256, 256); (256, 256); (256, 128)] eq_refl
              ltac:(lia) ltac:(lia)).
  intros d2 w7 Hd2.
  run_with (Dec_init_returns 128 64 2 [(128, 128); (128, 64)] eq_refl ltac:(lia) ltac:(lia)).
  intros d1 w8 Hd1.
  run_with (Dec_init_returns 64 64 1 [(64, 64)] eq_refl ltac:(lia) ltac:(lia)).
  intros d0 w9 Hd0.
  run_with (conv_init_returns 64 o 3 1 ltac:(lia) Ho ltac:(lia)). intros cv w10 (ps & ->).
  do 2 eexists. split; [reflexivity|].
  unfold segnet_topology. cbn [SegNet.encoder0 SegNet.encoder1 SegNet.encoder2
    SegNet.encoder3 SegNet.encoder4 SegNet.decoder4 SegNet.decoder3 SegNet.decoder2
    SegNet.decoder1 SegNet.decoder0 SegNet.conv].
  repeat (split; [assumption|]).
  unfold conv_wf. cbn. now rewrite Z.eqb_refl.
Qed.

End Assembly.

Section Modes.
Context {R : Runtime}.

Lemma unit_shape_train (mode : bool) (u : Unit) :
  unit_shape (nn.Sequential.train nn.train_leaf mode u) = unit_shape u.
Proof.
  destruct u as [|[c|b|r] [|[c'|b'|r'] [|[c''|b''|r''] [|l u]]]]; reflexivity.
Qed.

Lemma units_train (mode : bool) (layers : list Unit) :
  map unit_shape (train_layers mode layers) = map unit_shape layers.
Proof.
  unfold train_layers, nn.Sequential.train. rewrite map_map.
  apply map_ext. intros u. apply unit_shape_train.
Qed.

Lemma enc_wf_train (mode : bool) (cin cout : Z) (e : Encoder) :
  enc_wf cin cout (train_encoder mode e) = enc_wf cin cout e.
Proof.
  destruct e as [b|b]; unfold enc_wf, enc_units; cbn; now rewrite units_train.
Qed.

Lemma dec_wf_train (mode : bool) (cin cout : Z) (d : Decoder) :
  dec_wf cin cout (train_decoder mode d) = dec_wf cin cout d.
Proof.
  destruct d as [b|b]; unfold dec_wf, dec_units; cbn; now rewrite units_train.
Qed.

Lemma net_wf_train (mode : bool) (i o : Z) (net : SegNet.t) :
  net_wf i o (SegNet.train mode net) = net_wf i o net.
Proof.
  unfold net_wf, SegNet.train. cbn -[enc_wf dec_wf train_encoder train_decoder].
  now rewrite !enc_wf_train, !dec_wf_train.
Qed.

Lemma layers_eval_train (layers : list Unit) :
  layers_eval (train_layers false layers) = true.
Proof.
  unfold layers_eval, train_layers, nn.Sequential.train.
  apply forallb_forall. intros u Hu. apply in_map_iff in Hu as (u' & <- & _).
  apply forallb_forall. intros l Hl. apply in_map_iff in Hl as (l' & <- & _).
  now destruct l'.
Qed.

Lemma enc_eval_train (e : Encoder) : enc_eval (train_encoder false e) = true.
Proof.
  destruct e as [b|b]; unfold enc_eval; cbn -[train_layers layers_eval];
    now rewrite layers_eval_train.
Qed.

Lemma dec_eval_train (d : Decoder) : dec_eval (train_decoder false d) = true.
Proof.
  destruct d as [b|b]; unfold dec_eval; cbn -[train_layers layers_eval];
    now rewrite layers_eval_train.
Qed.

Lemma eval_mode_eval (net : SegNet.t) : eval_mode (SegNet.eval net) = true.
Proof.
  unfold eval_mode, SegNet.eval, SegNet.train.
  cbn -[enc_eval dec_eval train_encoder train_decoder].
  now rewrite !enc_eval_train, !dec_eval_train.
Qed.

Lemma plain_enc_wf (units : list (Z * Z)) (cin cout : Z) (e : Encoder) :
  plain_enc units e -> stack_io cin (map Some units) = Some cout -> 0 < cout ->
  enc_wf cin cout e = true.
Proof.
  intros (Hb & Hu & Hp) Hs Ho. unfold enc_wf. rewrite Hu, Hs, Hp. cbn.
  rewrite Z.eqb_refl. destruct (Z.ltb_spec 0 cout); [|lia].
  now destruct e.
Qed.

Lemma plain_dec_wf (units : list (Z * Z)) (cin cout : Z) (d : Decoder) :
  plain_dec units d -> stack_io cin (map Some units) = Some cout ->
  dec_wf cin cout d = true.
Proof.
  intros (Hb & Hu & Hp) Hs. unfold dec_wf. rewrite Hu, Hs, Hp. cbn.
  rewrite Z.eqb_refl. now destruct d.
Qed.

Lemma stack_io_2 (a b c : Z) : 0 < a -> 0 < b -> 0 < c ->
  stack_io a (map Some [(a, b); (b, c)]) = Some c.
Proof.
  intros Ha Hb Hc. cbn. rewrite !Z.eqb_refl.
  destruct (Z.ltb_spec 0 a); [|lia]. destruct (Z.ltb_spec 0 b); [|lia].
  destruct (Z.ltb_spec 0 c); [|lia]. reflexivity.
Qed.

Lemma topology_wf (i o : Z) (net : SegNet.t) :
  0 < i -> segnet_topology i o net -> net_wf i o net = true.
Proof.
  intros Hi (E0 & E1 & E2 & E3 & E4 & D4 & D3 & D2 & D1 & D0 & C).
  unfold net_wf.
  rewrite (plain_enc_wf _ i 64 _ E0) by (try apply stack_io_2; lia).
  rewrite (plain_enc_wf _ 64 128 _ E1) by (reflexivity || lia).
  rewrite (plain_enc_wf _ 128 256 _ E2) by (reflexivity || lia).
  rewrite (plain_enc_wf _ 256 512 _ E3) by (reflexivity || lia).
  rewrite (plain_enc_wf _ 512 512 _ E4) by (reflexivity || lia).
  rewrite (plain_dec_wf _ 512 512 _ D4) by reflexivity.
  rewrite (plain_dec_wf _ 512 256 _ D3) by reflexivity.
  rewrite (plain_dec_wf _ 256 128 _ D2) by reflexivity.
  rewrite (plain_dec_wf _ 128 64 _ D1) by reflexivity.
  rewrite (plain_dec_wf _ 64 64 _ D0) by reflexivity.
  now rewrite C.
Qed.

End Modes.


Section Trace.
Context {R : Runtime}.















End Trace.

(** decompose a computation that neither draws nor depends on the world *)
Ltac det_any :=
  repeat first
    [ apply det_raise
    | apply det_ret; exact I
    | apply det_bind with (P := fun _ => True); [| intros ? _]
    | match goal with
      | |- deterministic (if ?c then _ else _) _ => destruct c
      | |- deterministic (match ?p with (_, _) => _ end) _ => destruct p
      | |- deterministic (match ?p with Some _ => _ | None => _ end) _ => destruct p
      | |- deterministic (match ?p with [] => _ | _ :: _ => _ end) _ => destruct p
      end ].

Section Evaluation_mode.
Context {R : Runtime}.

Lemma det_conv (c : nn.Conv2d.t) (x : Tensor scalar) :
  deterministic (nn.Conv2d.forward c x) (fun _ => True).
Proof. unfold nn.Conv2d.forward. det_any. Qed.

Lemma det_max_pool (m : nn.MaxPool2d.t) (x : Tensor scalar) :
  deterministic (nn.MaxPool2d.forward m x) (fun _ => True).
Proof. unfold nn.MaxPool2d.forward. det_any. Qed.

Lemma det_max_unpool (m : nn.MaxUnpool2d.t) (x : Tensor scalar) (indices : Tensor Z)
  (output_size : option (list Z)) :
  deterministic (nn.MaxUnpool2d.forward m x indices output_size) (fun _ => True).
Proof.
  unfold nn.MaxUnpool2d.forward, nn.MaxUnpool2d._unpool_output_size. det_any.
Qed.

Lemma det_softmax (m : nn.Softmax2d.t) (x : Tensor scalar) :
  deterministic (nn.Softmax2d.forward m x) (fun _ => True).
Proof. unfold nn.Softmax2d.forward. det_any. Qed.

(** outside training mode the normalisation reads its buffers and leaves them *)
Lemma det_bn_eval (b : nn.BatchNorm2d.t) (x : Tensor scalar) :
  nn.BatchNorm2d.training b = false ->
  deterministic (nn.BatchNorm2d.forward b x) (fun r => snd r = b).
Proof.
  intros Hb. unfold nn.BatchNorm2d.forward. rewrite Hb.
  destruct (negb _); [apply det_raise | now apply det_ret].
Qed.

(** outside training mode the dropout returns its input and draws nothing *)
Lemma dropout_eval_identity (d : nn.Dropout2d.t) (x : Tensor scalar) :
  nn.Dropout2d.training d = false ->
  deterministic (nn.Dropout2d.forward d x) (fun r => r = (x, x)).
Proof.
  intros Hd. unfold nn.Dropout2d.forward. rewrite Hd.
  destruct (negb (nn.Dropout2d.valid _)); [apply det_raise|].
  cbn [negb]. rewrite orb_true_r. cbn [orb]. now apply det_ret.
Qed.

Lemma det_leaf_eval (m : nn.Leaf) (x : Tensor scalar) :
  leaf_eval m = true -> deterministic (nn.call_leaf m x) (fun r => snd r = m).
Proof.
  destruct m as [c|b|r]; cbn [leaf_eval nn.call_leaf]; intros Hm.
  - eapply det_bind; [apply det_conv|]. intros y _. now apply det_ret.
  - eapply det_bind; [apply det_bn_eval; now destruct (nn.BatchNorm2d.training b)|].
    intros [y b'] Hb. cbn in Hb. subst b'. now apply det_ret.
  - unfold nn.ReLU.forward.
    eapply det_bind with (P := fun _ => True); [now apply det_ret|].
    intros [y y'] _. now apply det_ret.
Qed.

Lemma det_sequential {T} (call : T -> Tensor scalar -> M (Tensor scalar * T))
  (ok : T -> bool) :
  (forall m x, ok m = true -> deterministic (call m x) (fun r => snd r = m)) ->
  forall ms x, forallb ok ms = true ->
    deterministic (nn.Sequential.forward call ms x) (fun r => snd r = ms).
Proof.
  intros Hcall. induction ms as [|m ms IH]; intros x Hok; cbn [nn.Sequential.forward].
  - now apply det_ret.
  - cbn in Hok. apply andb_true_iff in Hok as (Hm & Hms).
    eapply det_bind; [apply (Hcall m x Hm)|]. intros [x' m'] E. cbn in E. subst m'.
    eapply det_bind; [apply (IH x' Hms)|]. intros [y ms'] E. cbn in E. subst ms'.
    now apply det_ret.
Qed.

Lemma det_layers_eval (layers : list Unit) (x : Tensor scalar) :
  layers_eval layers = true ->
  deterministic (call_layers layers x) (fun r => snd r = layers).
Proof.
  intros Hl. apply (det_sequential call_unit (forallb leaf_eval)); [|exact Hl].
  intros u y Hu. apply (det_sequential nn.call_leaf leaf_eval); [|exact Hu].
  intros m z Hm. now apply det_leaf_eval.
Qed.

Lemma det_EncBlock_eval (b : _EncBlock.t) (x : Tensor scalar) :
  layers_eval (_EncBlock.layers b) = true ->
  deterministic (_EncBlock.forward b x) (fun r => snd r = b).
Proof.
  intros Hl. unfold _EncBlock.forward.
  eapply det_bind; [apply (det_layers_eval _ x Hl)|]. intros [y ls] E. cbn in E. subst ls.
  eapply det_bind; [apply det_max_pool|]. intros [z idx] _.
  apply det_ret. now destruct b.
Qed.

Lemma det_DecBlock_eval (b : _DecBlock.t) (x : Tensor scalar) (indices : Tensor Z)
  (output_size : option (list Z)) :
  layers_eval (_DecBlock.layers b) = true ->
  deterministic (_DecBlock.forward b x indices output_size) (fun r => snd r = b).
Proof.
  intros Hl. unfold _DecBlock.forward.
  eapply det_bind; [apply det_max_unpool|]. intros y _.
  eapply det_bind; [apply (det_layers_eval _ y Hl)|]. intros [z ls] E. cbn in E. subst ls.
  apply det_ret. now destruct b.
Qed.

Lemma det_call_encoder_eval (e : Encoder) (x : Tensor scalar) :
  enc_eval e = true -> deterministic (call_encoder e x) (fun r => snd r = e).
Proof.
  unfold enc_eval. intros He. apply andb_true_iff in He as (Hl & Hd).
  destruct e as [b|b]; cbn [call_encoder enc_super enc_dropout dropout_eval] in *.
  - eapply det_bind; [apply (det_EncBlock_eval b x Hl)|].
    intros [[y idx] b'] E. cbn in E. subst b'. now apply det_ret.
  - eapply det_bind with (P := fun r => snd r = b);
      [|intros [[y idx] b'] E; cbn in E; subst b'; now apply det_ret].
    unfold _BayesEncBlock.forward.
    eapply det_bind; [apply (det_EncBlock_eval _ x Hl)|].
    intros [[y idx] b'] E. cbn in E. subst b'.
    eapply det_bind;
      [apply dropout_eval_identity; now destruct (nn.Dropout2d.training _)|].
    intros [z y'] _. apply det_ret. now destruct b.
Qed.

Lemma det_call_decoder_eval (d : Decoder) (x : Tensor scalar) (indices : Tensor Z)
  (output_size : option (list Z)) :
  dec_eval d = true ->
  deterministic (call_decoder d x indices output_size) (fun r => snd r = d).
Proof.
  unfold dec_eval. intros He. apply andb_true_iff in He as (Hl & Hd).
  destruct d as [b|b]; cbn [call_decoder dec_super dec_dropout dropout_eval] in *.
  - eapply det_bind; [apply (det_DecBlock_eval b x indices output_size Hl)|].
    intros [y b'] E. cbn in E. subst b'. now apply det_ret.
  - eapply det_bind with (P := fun r => snd r = b);
      [|intros [y b'] E; cbn in E; subst b'; now apply det_ret].
    unfold _BayesDecBlock.forward.
    eapply det_bind; [apply (det_DecBlock_eval _ x indices output_size Hl)|].
    intros [y b'] E. cbn in E. subst b'.
    eapply det_bind;
      [apply dropout_eval_identity; now destruct (nn.Dropout2d.training _)|].
    intros [z y'] _. apply det_ret. now destruct b.
Qed.

Lemma det_hooked_encoder_eval (k : nat) (e : Encoder) (x : Tensor scalar) :
  enc_eval e = true -> deterministic (hooked_encoder k e x) (fun r => snd r = e).
Proof.
  intros He. unfold hooked_encoder.
  eapply det_bind; [apply (det_call_encoder_eval e x He)|].
  intros [[y idx] e'] E. cbn in E. subst e'.
  eapply det_bind; [apply det_log|]. intros _ _. now apply det_ret.
Qed.

Lemma det_hooked_decoder_eval (k : nat) (d : Decoder) (x : Tensor scalar)
  (indices : Tensor Z) (output_size : option (list Z)) :
  dec_eval d = true ->
  deterministic (hooked_decoder k d x indices output_size) (fun r => snd r = d).
Proof.
  intros He. unfold hooked_decoder.
  eapply det_bind; [apply (det_call_decoder_eval d x indices output_size He)|].
  intros [y d'] E. cbn in E. subst d'.
  eapply det_bind; [apply det_log|]. intros _ _. now apply det_ret.
Qed.

(** in evaluation mode the forward pass reads nothing of the world and
    leaves the network as it is *)
Lemma forward_eval_deterministic (net : SegNet.t) (x : Tensor scalar) :
  eval_mode net = true ->
  deterministic (SegNet.forward net x) (fun r => snd r = net).
Proof.
  unfold eval_mode. rewrite !andb_true_iff.
  intros (((((((((E0 & E1) & E2) & E3) & E4) & D4) & D3) & D2) & D1) & D0).
  unfold SegNet.forward. cbv zeta.
  eapply det_bind; [apply (det_hooked_encoder_eval 0 _ x E0)|].
  intros [[x1 i0] e0] Q0. cbn in Q0. subst e0.
  eapply det_bind; [apply (det_hooked_encoder_eval 1 _ x1 E1)|].
  intros [[x2 i1] e1] Q1. cbn in Q1. subst e1.
  eapply det_bind; [apply (det_hooked_encoder_eval 2 _ x2 E2)|].
  intros [[x3 i2] e2] Q2. cbn in Q2. subst e2.
  eapply det_bind; [apply (det_hooked_encoder_eval 3 _ x3 E3)|].
  intros [[x4 i3] e3] Q3. cbn in Q3. subst e3.
  eapply det_bind; [apply (det_hooked_encoder_eval 4 _ x4 E4)|].
  intros [[x5 i4] e4] Q4. cbn in Q4. subst e4.
  eapply det_bind; [apply (det_hooked_decoder_eval 4 _ x5 i4 _ D4)|].
  intros [z4 d4] P4. cbn in P4. subst d4.
  eapply det_bind; [apply (det_hooked_decoder_eval 3 _ z4 i3 _ D3)|].
  intros [z3 d3] P3. cbn in P3. subst d3.
  eapply det_bind; [apply (det_hooked_decoder_eval 2 _ z3 i2 _ D2)|].
  intros [z2 d2] P2. cbn in P2. subst d2.
  eapply det_bind; [apply (det_hooked_decoder_eval 1 _ z2 i1 _ D1)|].
  intros [z1 d1] P1. cbn in P1. subst d1.
  eapply det_bind; [apply (det_hooked_decoder_eval 0 _ z1 i0 _ D0)|].
  intros [z0 d0] P0. cbn in P0. subst d0.
  eapply det_bind; [apply det_conv|]. intros c _.
  eapply det_bind; [apply det_softmax|]. intros s _.
  apply det_ret. now destruct net.
Qed.

End Evaluation_mode.

Section Inversion.
Context {R : Runtime}.

Lemma conv_forward_inv (c : nn.Conv2d.t) (x : Tensor scalar) w y w' :
  nn.Conv2d.kernel_size c = 3 -> nn.Conv2d.padding c = 1 ->
  nn.Conv2d.forward c x w = Ok (y, w') ->
  Z.of_nat (tC x) = nn.Conv2d.in_channels c /\ 0 < nn.Conv2d.out_channels c
  /\ (1 <= tH x)%nat /\ (1 <= tW x)%nat
  /\ shaped y (tB x) (Z.to_nat (nn.Conv2d.out_channels c)) (tH x) (tW x).
Proof.
  intros Hk Hp. unfold nn.Conv2d.forward. rewrite Hk, Hp.
  destruct (Z.ltb_spec (nn.Conv2d.out_channels c) 1); [discriminate|].
  destruct (Z.eqb_spec (Z.of_nat (tC x)) (nn.Conv2d.in_channels c)); [|discriminate].
  cbn [negb].
  destruct (Z.ltb_spec (Z.of_nat (tH x) + 2 * 1) 3); [discriminate|].
  destruct (Z.ltb_spec (Z.of_nat (tW x) + 2 * 1) 3); [discriminate|].
  cbn [orb]. destruct ((tC x =? 0)%nat && negb (tB x =? 0)%nat); [discriminate|].
  intros [= <- _]. unfold shaped. cbn. repeat split; lia.
Qed.

Lemma bn_forward_inv (b : nn.BatchNorm2d.t) (x : Tensor scalar) w y b' w' :
  nn.BatchNorm2d.forward b x w = Ok ((y, b'), w') ->
  Z.of_nat (tC x) = nn.BatchNorm2d.num_features b
  /\ shaped y (tB x) (tC x) (tH x) (tW x).
Proof.
  unfold nn.BatchNorm2d.forward.
  destruct (nn.BatchNorm2d.training b).
  - destruct (_ =? 1)%nat; [discriminate|].
    destruct (Z.eqb_spec (Z.of_nat (tC x)) (nn.BatchNorm2d.num_features b)); [|discriminate].
    cbn. intros [= <- _ _]. unfold shaped. cbn. auto.
  - destruct (Z.eqb_spec (Z.of_nat (tC x)) (nn.BatchNorm2d.num_features b)); [|discriminate].
    cbn. intros [= <- _ _]. unfold shaped. cbn. auto.
Qed.

Lemma unit_forward_inv (u : Unit) (cin cout : Z) (x : Tensor scalar) w y u' w' :
  unit_shape u = Some (cin, cout) ->
  call_unit u x w = Ok ((y, u'), w') ->
  Z.of_nat (tC x) = cin /\ 0 < cout /\ (1 <= tH x)%nat /\ (1 <= tW x)%nat
  /\ shaped y (tB x) (Z.to_nat cout) (tH x) (tW x).
Proof.
  intros Hu Hrun. apply unit_shape_inv in Hu as (p & flag & s & ->).
  unfold call_unit in Hrun. cbn [nn.Sequential.forward nn.call_leaf] in Hrun.
  rewrite !bind_assoc in Hrun.
  apply bind_inv in Hrun as (y1 & w1 & E1 & Hrun).
  apply conv_forward_inv in E1 as (Hc & Ho & Hh & Hw & (B1 & C1 & H1 & W1));
    [|reflexivity..].
  cbn in Hc, Ho, C1. rewrite bind_ret in Hrun. cbv beta iota in Hrun.
  rewrite !bind_assoc in Hrun.
  apply bind_inv in Hrun as ([y2 b2] & w2 & E2 & Hrun).
  apply bn_forward_inv in E2 as (Hn & (B2 & C2 & H2 & W2)). cbn in Hn.
  cbn in Hrun. injection Hrun as <- _ _.
  unfold shaped. cbn. repeat split; try congruence; lia.
Qed.

Lemma unit_forward_training_inv (u : Unit) (cin cout : Z) (x : Tensor scalar) w r w' :
  forallb leaf_training u = true ->
  unit_shape u = Some (cin, cout) ->
  call_unit u x w = Ok (r, w') ->
  (tB x * tH x * tW x <> 1)%nat.
Proof.
  intros Ht Hu Hrun. apply unit_shape_inv in Hu as (p & flag & s & ->).
  cbn in Ht. rewrite !andb_true_r in Ht. subst flag.
  unfold call_unit in Hrun. cbn [nn.Sequential.forward nn.call_leaf] in Hrun.
  rewrite !bind_assoc in Hrun.
  apply bind_inv in Hrun as (y1 & w1 & E1 & Hrun).
  apply conv_forward_inv in E1 as (_ & _ & _ & _ & (B1 & C1 & H1 & W1));
    [|reflexivity..].
  rewrite bind_ret in Hrun. cbv beta iota in Hrun. rewrite !bind_assoc in Hrun.
  apply bind_inv in Hrun as ([y2 b2] & w2 & E2 & _).
  unfold nn.BatchNorm2d.forward in E2. cbn [nn.BatchNorm2d.training] in E2.
  rewrite B1, H1, W1 in E2.
  destruct (Nat.eqb_spec (tB x * tH x * tW x) 1); [discriminate|assumption].
Qed.

Lemma layers_forward_inv (ios : list (Z * Z)) :
  forall (layers : list Unit) (x : Tensor scalar) w y layers' w',
  map unit_shape layers = map Some ios -> ios <> [] ->
  call_layers layers x w = Ok ((y, layers'), w') ->
  Z.of_nat (tC x) = fst (hd (0, 0) ios)
  /\ Z.of_nat (tC y) = snd (last ios (0, 0))
  /\ (1 <= tH x)%nat /\ (1 <= tW x)%nat
  /\ tB y = tB x /\ tH y = tH x /\ tW y = tW x
  /\ (layers_training layers = true -> (tB x * tH x * tW x <> 1)%nat)
  /\ 0 < snd (last ios (0, 0)).
Proof.
  induction ios as [|[i o] ios IH]; intros layers x w y layers' w' Hm Hne Hrun;
    [congruence|].
  destruct layers as [|u layers]; [discriminate|].
  cbn [map] in Hm. injection Hm as Hu Hm.
  unfold call_layers in Hrun. cbn [nn.Sequential.forward] in Hrun.
  apply bind_inv in Hrun as ([y1 u1] & w1 & E1 & Hrun).
  pose proof (fun Ht => unit_forward_training_inv u i o x w _ _ Ht Hu E1) as Hone.
  assert (Htr : layers_training (u :: layers) = true -> (tB x * tH x * tW x <> 1)%nat).
  { unfold layers_training. cbn [forallb]. intros Ht.
    apply andb_true_iff in Ht as (Ht & _). now apply Hone. }
  apply (unit_forward_inv u i o) in E1 as (Hc & Ho & Hh & Hw & (B1 & C1 & H1 & W1));
    [|exact Hu].
  cbv beta iota in Hrun.
  apply bind_inv in Hrun as ([y2 ls2] & w2 & E2 & Hrun).
  cbn in Hrun. injection Hrun as <- _ _.
  destruct ios as [|io ios].
  - destruct layers; [|discriminate]. cbn in E2. injection E2 as <- _ _.
    cbn. repeat split; try assumption; lia.
  - apply (IH layers y1 w1 y2 ls2 w2 Hm ltac:(discriminate)) in E2
      as (_ & Hlast & _ & _ & B2 & H2 & W2 & _ & Hpos).
    cbn [hd fst]. change (last ((i, o) :: io :: ios) (0, 0)) with (last (io :: ios) (0, 0)).
    repeat split; try assumption; congruence.
Qed.

Lemma max_pool_inv (x : Tensor scalar) w r w' :
  nn.MaxPool2d.forward (nn.MaxPool2d.mk 2 2) x w = Ok (r, w') ->
  (1 <= tC x)%nat /\ (2 <= tH x)%nat /\ (2 <= tW x)%nat.
Proof.
  unfold nn.MaxPool2d.forward, nn.MaxPool2d.output_shape.
  cbn [nn.MaxPool2d.kernel_size nn.MaxPool2d.stride].
  change ((2 <=? 0) || (2 <=? 0)) with false. cbv iota.
  destruct (Nat.eqb_spec (tC x) 0); [discriminate|].
  destruct (Nat.eqb_spec (tH x) 0); [discriminate|].
  destruct (Nat.eqb_spec (tW x) 0); [discriminate|]. cbn [orb].
  destruct (Z.ltb_spec ((Z.of_nat (tH x) - 2) / 2 + 1) 1); [discriminate|].
  destruct (Z.ltb_spec ((Z.of_nat (tW x) - 2) / 2 + 1) 1); [discriminate|].
  intros _.
  assert (0 <= Z.of_nat (tH x) - 2).
  { destruct (Z.lt_ge_cases (Z.of_nat (tH x) - 2) 0) as [Hneg|]; [|assumption].
    pose proof (Z.div_lt_upper_bound (Z.of_nat (tH x) - 2) 2 0 ltac:(lia) ltac:(lia)). lia. }
  assert (0 <= Z.of_nat (tW x) - 2).
  { destruct (Z.lt_ge_cases (Z.of_nat (tW x) - 2) 0) as [Hneg|]; [|assumption].
    pose proof (Z.div_lt_upper_bound (Z.of_nat (tW x) - 2) 2 0 ltac:(lia) ltac:(lia)). lia. }
  lia.
Qed.

(** under the laws of the comparison, every value the pooling returns is a
    maximum of its window *)
Lemma max_pool_max (x : Tensor scalar) w y indices w' :
  nn.MaxPool2d.forward (nn.MaxPool2d.mk 2 2) x w = Ok ((y, indices), w') ->
  gt_laws ->
  forall b c i j, (i < tH x / 2)%nat -> (j < tW x / 2)%nat ->
    window_max x b c i j (at4 y b c i j).
Proof.
  intros Hrun Hlaws b c i j Hi Hj. unfold nn.MaxPool2d.forward in Hrun.
  destruct (_ || _) in Hrun; [discriminate|].
  destruct (_ || _) in Hrun; [discriminate|].
  destruct (_ || _) in Hrun; [discriminate|].
  cbn in Hrun. injection Hrun as <- _ _. cbn [at4].
  now apply pool_max.
Qed.

Lemma last_cons_repeat {A} (a b d : A) (n : nat) :
  last (a :: repeat b n) d = match n with O => a | S _ => b end.
Proof.
  revert a. induction n as [|n IH]; intros a; [reflexivity|].
  change (last (a :: repeat b (S n)) d) with (last (b :: repeat b n) d).
  rewrite IH. now destruct n.
Qed.

(** the forward of an encoder block returns only on inputs of its input
    channels with at least two rows and columns *)
Lemma EncBlock_forward_inv (blk : _EncBlock.t) (cin cout : Z) (n : nat)
  (x : Tensor scalar) w r w' :
  map unit_shape (_EncBlock.layers blk) = Some (cin, cout) :: repeat (Some (cout, cout)) n ->
  _EncBlock.max_pool blk = nn.MaxPool2d.mk 2 2 ->
  _EncBlock.forward blk x w = Ok (r, w') ->
  Z.of_nat (tC x) = cin /\ 0 < cout /\ (2 <= tH x)%nat /\ (2 <= tW x)%nat.
Proof.
  intros Hu Hp Hrun. unfold _EncBlock.forward in Hrun. rewrite Hp in Hrun.
  apply bind_inv in Hrun as ([u ls] & w1 & E1 & Hrun). cbv beta iota in Hrun.
  apply bind_inv in Hrun as ([y idx] & w2 & E2 & _).
  apply (layers_forward_inv ((cin, cout) :: repeat (cout, cout) n)) in E1
    as (Hc & Hlast & _ & _ & _ & HH & HW & _).
  - apply max_pool_inv in E2 as (HC & Hh & Hw).
    rewrite last_cons_repeat in Hlast. cbn [hd fst] in Hc.
    assert (Z.of_nat (tC u) = cout) by (now destruct n).
    repeat split; lia.
  - rewrite Hu. cbn [map]. f_equal. now rewrite map_repeat.
  - discriminate.
Qed.

Lemma all_cells_inv (b c h w : nat) (p : nat -> nat -> nat -> nat -> bool) :
  all_cells b c h w p = true ->
  forall ib ic i j, (ib < b)%nat -> (ic < c)%nat -> (i < h)%nat -> (j < w)%nat ->
                    p ib ic i j = true.
Proof.
  unfold all_cells. intros Hall ib ic i j Hib Hic Hi Hj.
  rewrite forallb_forall in Hall. specialize (Hall ib ltac:(apply in_seq; lia)).
  rewrite forallb_forall in Hall. specialize (Hall ic ltac:(apply in_seq; lia)).
  rewrite forallb_forall in Hall.
  apply (Hall (i, j)). apply in_cells. lia.
Qed.

(** the unpooling returns only on a target in range, indices of the shape
    of the input, an input with a channel, a row and a column, and indices
    that are offsets of cells of the output plane *)
Lemma max_unpool_inv (x : Tensor scalar) (indices : Tensor Z)
  (output_size : option (list Z)) w u w' :
  nn.MaxUnpool2d.forward (nn.MaxUnpool2d.mk 2 2 0) x indices output_size w = Ok (u, w') ->
  exists oh ow,
    unpool_size x output_size oh ow
    /\ shaped indices (tB x) (tC x) (tH x) (tW x)
    /\ (1 <= tC x)%nat /\ (1 <= tH x)%nat /\ (1 <= tW x)%nat
    /\ (forall ib ic i j, (ib < tB x)%nat -> (ic < tC x)%nat ->
                          (i < tH x)%nat -> (j < tW x)%nat ->
          0 <= at4 indices ib ic i j < Z.of_nat oh * Z.of_nat ow).
Proof.
  intros Hrun. unfold nn.MaxUnpool2d.forward in Hrun.
  apply bind_inv in Hrun as ([oh ow] & w1 & Hsz & Hrun). cbv beta iota in Hrun.
  destruct (same_shape x indices) eqn:Hsame; [|discriminate]. cbn [negb] in Hrun.
  destruct (Nat.eqb_spec (tC x) 0); [discriminate|].
  destruct (Nat.eqb_spec (tH x) 0); [discriminate|].
  destruct (Nat.eqb_spec (tW x) 0); [discriminate|]. cbn [orb] in Hrun.
  destruct (all_cells _ _ _ _ _) eqn:Hall; [|discriminate]. clear Hrun.
  unfold same_shape in Hsame. rewrite !andb_true_iff, !Nat.eqb_eq in Hsame.
  destruct Hsame as (((HB & HC) & HH) & HW).
  assert (Hpos : 0 <= oh /\ 0 <= ow /\ unpool_size x output_size (Z.to_nat oh) (Z.to_nat ow)).
  { unfold nn.MaxUnpool2d._unpool_output_size, nn.MaxUnpool2d.default_size in Hsz.
    cbn [nn.MaxUnpool2d.kernel_size nn.MaxUnpool2d.stride nn.MaxUnpool2d.padding] in Hsz.
    destruct output_size as [l|]; unfold unpool_size.
    - destruct (if (length l =? 4)%nat then skipn 2 l else l) as [|h' [|w'' [|]]] eqn:El;
        try discriminate.
      destruct (Z.ltb_spec ((Z.of_nat (tH x) - 1) * 2 + 2 - 2 * 0 - 2) h'); [|discriminate].
      destruct (Z.ltb_spec h' ((Z.of_nat (tH x) - 1) * 2 + 2 - 2 * 0 + 2)); [|discriminate].
      destruct (Z.ltb_spec ((Z.of_nat (tW x) - 1) * 2 + 2 - 2 * 0 - 2) w''); [|discriminate].
      destruct (Z.ltb_spec w'' ((Z.of_nat (tW x) - 1) * 2 + 2 - 2 * 0 + 2)); [|discriminate].
      cbn in Hsz. injection Hsz as <- <- _.
      rewrite !Z2Nat.id by lia. repeat split; try lia.
      destruct (length l =? 4)%nat eqn:Hlen.
      + right. destruct l as [|a [|b [|c [|d [|]]]]]; try discriminate.
        cbn in El. injection El as -> ->. now exists a, b.
      + left. exact El.
    - injection Hsz as <- <- _. repeat split; lia. }
  destruct Hpos as (Hoh & How & Hus).
  exists (Z.to_nat oh), (Z.to_nat ow).
  split; [exact Hus|]. split; [unfold shaped; auto|].
  repeat (split; [lia|]).
  intros ib ic i j Hib Hic Hi Hj.
  pose proof (all_cells_inv _ _ _ _ _ Hall ib ic i j Hib Hic Hi Hj) as Hp.
  cbv beta in Hp. apply andb_true_iff in Hp as (H0 & H1).
  apply Z.leb_le in H0. apply Z.ltb_lt in H1. rewrite !Z2Nat.id by lia. lia.
Qed.

Lemma last_repeat_snoc {A} (a b d : A) (n : nat) : last (repeat a n ++ [b]) d = b.
Proof. apply last_last. Qed.

Lemma hd_repeat_snoc (a b : Z * Z) (n : nat) :
  fst (hd (0, 0) (repeat a n ++ [b])) = match n with O => fst b | S _ => fst a end.
Proof. now destruct n. Qed.

(** the forward of a decoder block returns only when its unpooling does, on
    an input of its input channels *)
Lemma DecBlock_forward_inv (blk : _DecBlock.t) (cin cout : Z) (n : nat)
  (x : Tensor scalar) (indices : Tensor Z) (output_size : option (list Z)) w r w' :
  map unit_shape (_DecBlock.layers blk) = repeat (Some (cin, cin)) n ++ [Some (cin, cout)] ->
  _DecBlock.max_unpool blk = nn.MaxUnpool2d.mk 2 2 0 ->
  _DecBlock.forward blk x indices output_size w = Ok (r, w') ->
  Z.of_nat (tC x) = cin /\ 0 < cin /\ 0 < cout
  /\ exists oh ow,
       unpool_size x output_size oh ow
       /\ shaped indices (tB x) (tC x) (tH x) (tW x)
       /\ (1 <= tH x)%nat /\ (1 <= tW x)%nat
       /\ (forall ib ic i j, (ib < tB x)%nat -> (ic < tC x)%nat ->
                             (i < tH x)%nat -> (j < tW x)%nat ->
             0 <= at4 indices ib ic i j < Z.of_nat oh * Z.of_nat ow)
       /\ (layers_training (_DecBlock.layers blk) = true -> (tB x * oh * ow <> 1)%nat).
Proof.
  intros Hu Hp Hrun. unfold _DecBlock.forward in Hrun. rewrite Hp in Hrun.
  apply bind_inv in Hrun as (u & w1 & E1 & Hrun).
  apply bind_inv in Hrun as ([y ls] & w2 & E2 & _).
  pose proof E1 as E1'.
  apply max_unpool_inv in E1' as (oh & ow & Hsz & Hsh & HC & HH & HW & Hidx).
  assert (Hoh : (1 <= oh)%nat /\ (1 <= ow)%nat).
  { destruct output_size as [l|]; unfold unpool_size in Hsz; lia. }
  destruct (max_unpool_spec x indices output_size oh ow Hsz Hsh HC HH HW Hidx w)
    as (u0 & w0 & E0 & (UB & UC & UH & UW) & _).
  rewrite E1 in E0. injection E0 as <- <-.
  apply (layers_forward_inv (repeat (cin, cin) n ++ [(cin, cout)])) in E2
    as (Hc & Hlast & _ & _ & _ & _ & _ & Hone & Hpos).
  - rewrite hd_repeat_snoc in Hc. rewrite last_repeat_snoc in Hlast, Hpos.
    cbn [snd] in Hlast, Hpos.
    assert (Z.of_nat (tC x) = cin) by (destruct n; cbn in Hc; lia).
    split; [assumption|]. split; [lia|]. split; [lia|].
    exists oh, ow. split; [exact Hsz|]. split; [exact Hsh|].
    split; [exact HH|]. split; [exact HW|]. split; [exact Hidx|].
    intros Ht. specialize (Hone Ht). now rewrite UB, UH, UW in Hone.
  - rewrite Hu, map_app, map_repeat. reflexivity.
  - now destruct n.
Qed.

Lemma make_layer_training (cin cout : Z) :
  0 <= cin -> 0 <= cout ->
  returns (_make_layer cin cout) (fun u => forallb leaf_training u = true).
Proof.
  intros Hi Ho. unfold _make_layer.
  eapply returns_bind; [apply conv_init_returns; lia|]. intros c (ps & ->).
  eapply returns_bind; [apply bn_init_returns; lia|]. intros b ->.
  now apply returns_ret.
Qed.

Lemma layers_training_snoc (layers : list Unit) (u : Unit) :
  layers_training layers = true -> forallb leaf_training u = true ->
  layers_training (layers ++ [u]) = true.
Proof.
  unfold layers_training. intros Hl Hu. rewrite forallb_app.
  apply andb_true_iff. split; [exact Hl | cbn; now rewrite Hu].
Qed.

Lemma DecBlock_init_training (cin cout nl : Z) :
  0 <= cin -> 0 <= cout ->
  returns (_DecBlock.__init__ cin cout nl)
          (fun blk => layers_training (_DecBlock.layers blk) = true).
Proof.
  intros Hi Ho. unfold _DecBlock.__init__. cbn [nn.MaxUnpool2d.__init__].
  eapply returns_bind with (P := fun _ => True); [now apply returns_ret|]. intros ? _.
  eapply returns_bind.
  - unfold for_range.
    apply (iterate_returns (fun _ ls => layers_training ls = true)) with (k := O).
    + intros k ls Hls. eapply returns_bind; [now apply make_layer_training|].
      intros l Hl. apply returns_ret. now apply layers_training_snoc.
    + reflexivity.
  - cbn beta. intros ls Hls.
    eapply returns_bind; [now apply make_layer_training|]. intros l Hl.
    apply returns_ret. cbn. now apply layers_training_snoc.
Qed.

End Inversion.

Section Claims.
Context {R : Runtime}.

Lemma stack_io_repeat (c : Z) (n : nat) (rest : list (option (Z * Z))) :
  0 < c -> stack_io c (repeat (Some (c, c)) n ++ rest) = stack_io c rest.
Proof.
  intros Hc. induction n as [|n IH]; [reflexivity|].
  cbn. rewrite Z.eqb_refl. destruct (Z.ltb_spec 0 c); [|lia]. exact IH.
Qed.

Lemma stack_io_enc (cin cout : Z) (n : nat) :
  0 < cin -> 0 < cout ->
  stack_io cin (Some (cin, cout) :: repeat (Some (cout, cout)) n) = Some cout.
Proof.
  intros Hi Hc. cbn. rewrite Z.eqb_refl.
  destruct (Z.ltb_spec 0 cin); [|lia]. destruct (Z.ltb_spec 0 cout); [|lia]. cbn.
  rewrite <- (app_nil_r (repeat _ n)). now rewrite stack_io_repeat.
Qed.

Lemma stack_io_dec (cin cout : Z) (n : nat) :
  0 < cin -> 0 < cout ->
  stack_io cin (repeat (Some (cin, cin)) n ++ [Some (cin, cout)]) = Some cout.
Proof.
  intros Hi Ho. rewrite stack_io_repeat by assumption. cbn.
  rewrite Z.eqb_refl. destruct (Z.ltb_spec 0 cin); [|lia].
  now destruct (Z.ltb_spec 0 cout); [|lia].
Qed.

(** C4.  For positive [in_channels] and [out_channels],
    [SegNet(in_channels, out_channels)] is built, from every state of the
    random generator, with five plain encoder blocks and five plain decoder
    blocks of the widths and numbers of units of the table, and a final 3x3
    convolution with padding 1 from 64 to [out_channels] channels. *)
Theorem SegNet_built_with_fixed_topology (in_channels out_channels : Z) (w : World) :
  0 < in_channels -> 0 < out_channels ->
  exists net w', SegNet.__init__ in_channels out_channels w = Ok (net, w')
                 /\ segnet_topology in_channels out_channels net.
Proof. intros Hi Ho. apply SegNet_init_returns; lia. Qed.

(** C10.  [num_layers >= 1] is not enforced: for positive widths and any
    [num_layers <= 1] (zero and negative numbers included) the construction
    of an encoder or decoder block is the construction with
    [num_layers = 1], and returns a block of exactly one unit from
    [in_channels] to [out_channels]. *)
Theorem num_layers_below_one_builds_one_unit (in_channels out_channels num_layers : Z) :
  0 < in_channels -> 0 < out_channels -> num_layers <= 1 ->
  _EncBlock.__init__ in_channels out_channels num_layers
    = _EncBlock.__init__ in_channels out_channels 1
  /\ _DecBlock.__init__ in_channels out_channels num_layers
     = _DecBlock.__init__ in_channels out_channels 1
  /\ (forall w, exists b w',
         _EncBlock.__init__ in_channels out_channels num_layers w = Ok (b, w')
         /\ map unit_shape (_EncBlock.layers b) = [Some (in_channels, out_channels)])
  /\ (forall w, exists b w',
         _DecBlock.__init__ in_channels out_channels num_layers w = Ok (b, w')
         /\ map unit_shape (_DecBlock.layers b) = [Some (in_channels, out_channels)]).
Proof.
  intros Hi Ho Hn.
  assert (E : Z.to_nat (num_layers - 1) = Z.to_nat (1 - 1)) by lia.
  repeat split.
  - unfold _EncBlock.__init__, for_range. now rewrite E.
  - unfold _DecBlock.__init__, for_range. now rewrite E.
  - intros w. destruct (EncBlock_init_returns in_channels out_channels num_layers
                   ltac:(lia) ltac:(lia) w)
      as (b & w' & Hrun & Hu & _).
    exists b, w'. split; [exact Hrun|]. now rewrite Hu, E.
  - intros w. destruct (DecBlock_init_returns in_channels out_channels num_layers
                   ltac:(lia) ltac:(lia) w)
      as (b & w' & Hrun & Hu & _).
    exists b, w'. split; [exact Hrun|]. now rewrite Hu, E.
Qed.

(** C5.  For positive widths and [num_layers >= 1] an encoder block is
    built with a first unit from [in_channels] to [out_channels] followed by
    [num_layers - 1] units from [out_channels] to [out_channels], and a 2x2
    max-pool of stride 2.  On an input of [in_channels] channels and at
    least two rows and columns its forward runs the units, which keep the
    height and width, then the max-pool on their result, and returns the
    pooled tensor and the indices of the max-pool: both have half the height
    and width (rounded down), and every index is the offset of the cell of
    the 2x2 window whose entry is the pooled value (of the first cell, with
    minus infinity as the value, when no entry is greater than minus
    infinity or not a number).  Under the laws of the comparison of
    floating-point numbers the pooled value is a maximum of its window: no
    entry of the window is greater, and it is not a number when an entry is
    not.  The forward returns on no other input. *)
Theorem encoder_block_spec (in_channels out_channels num_layers : Z) (w0 : World) :
  0 < in_channels -> 0 < out_channels -> 1 <= num_layers ->
  exists blk w0',
    _EncBlock.__init__ in_channels out_channels num_layers w0 = Ok (blk, w0')
    /\ map unit_shape (_EncBlock.layers blk)
       = Some (in_channels, out_channels)
         :: repeat (Some (out_channels, out_channels)) (Z.to_nat (num_layers - 1))
    /\ length (_EncBlock.layers blk) = Z.to_nat num_layers
    /\ _EncBlock.max_pool blk = nn.MaxPool2d.mk 2 2
    /\ (forall (x : Tensor scalar) (w : World),
         Z.of_nat (tC x) = in_channels -> (2 <= tH x)%nat -> (2 <= tW x)%nat ->
         exists u layers' w1 y indices w2,
           call_layers (_EncBlock.layers blk) x w = Ok ((u, layers'), w1)
           /\ tH u = tH x /\ tW u = tW x
           /\ nn.MaxPool2d.forward (_EncBlock.max_pool blk) u w1 = Ok ((y, indices), w2)
           /\ _EncBlock.forward blk x w
              = Ok ((y, indices, _EncBlock.mk layers' (_EncBlock.max_pool blk)), w2)
           /\ shaped y (tB x) (Z.to_nat out_channels) (tH x / 2) (tW x / 2)
           /\ shaped indices (tB x) (Z.to_nat out_channels) (tH x / 2) (tW x / 2)
           /\ (forall b c i j, (i < tH x / 2)%nat -> (j < tW x / 2)%nat ->
                 pooled_from u b c i j (at4 y b c i j) (at4 indices b c i j))
           /\ (gt_laws ->
               forall b c i j, (i < tH x / 2)%nat -> (j < tW x / 2)%nat ->
                 window_max u b c i j (at4 y b c i j)))
    /\ (forall (x : Tensor scalar) (w : World) r w',
          _EncBlock.forward blk x w = Ok (r, w') ->
          Z.of_nat (tC x) = in_channels /\ (2 <= tH x)%nat /\ (2 <= tW x)%nat).
Proof.
  intros Hi Ho Hn.
  destruct (EncBlock_init_returns in_channels out_channels num_layers
              ltac:(lia) ltac:(lia) w0)
    as (blk & w0' & Hrun & Hu & Hp).
  exists blk, w0'. split; [exact Hrun|]. split; [exact Hu|].
  split.
  { rewrite <- (length_map unit_shape), Hu. cbn. rewrite repeat_length. lia. }
  split; [exact Hp|].
  split.
  2:{ intros x w r w' Hret.
      destruct (EncBlock_forward_inv blk _ _ _ x w r w' Hu Hp Hret) as (Hc & _ & Hh & Hw).
      auto. }
  intros x w Hc Hh Hw.
  assert (Hs : stack_io in_channels (map unit_shape (_EncBlock.layers blk)) = Some out_channels).
  { rewrite Hu. apply stack_io_enc; lia. }
  destruct (layers_forward_returns (_EncBlock.layers blk) in_channels out_channels x Hs Hc
              ltac:(lia) ltac:(lia) (no_single_value _ _ _ Hh) w)
    as ([u layers'] & w1 & E1 & HB & HC & HH & HW). cbn [fst] in *.
  destruct (max_pool_spec u ltac:(lia) ltac:(lia) ltac:(lia) w1)
    as ([y indices] & w2 & E2 & Hy & Hidx & Hpool). cbn [fst snd] in *.
  pose proof (max_pool_max u w1 y indices w2 E2) as Hmax.
  exists u, layers', w1, y, indices, w2.
  split; [exact E1|]. split; [exact HH|]. split; [exact HW|].
  split; [now rewrite Hp|].
  split.
  { unfold _EncBlock.forward. rewrite (@bind_ok _ _ _ _ _ w _ _ E1). cbv beta iota.
    rewrite Hp. rewrite (@bind_ok _ _ _ _ _ w1 _ _ E2). reflexivity. }
  assert (EC : tC u = Z.to_nat out_channels) by lia.
  rewrite HB, HH, HW, EC in *. auto.
Qed.

(** C6.  For positive widths and [num_layers >= 1] a decoder block is built
    with [num_layers - 1] units from [in_channels] to [in_channels] followed
    by one unit from [in_channels] to [out_channels].  Its forward first
    unpools the input: the result has the batch size and channels of the
    input, twice its height and width without a target, the height and
    width of the target with one; its entry at a cell is the input entry
    whose index is the offset of the cell, and zero where no index is.  The
    units are then run on that result.  The forward of the block as built
    returns on no other input. *)
Theorem decoder_block_spec (in_channels out_channels num_layers : Z) (w0 : World) :
  0 < in_channels -> 0 < out_channels -> 1 <= num_layers ->
  exists blk w0',
    _DecBlock.__init__ in_channels out_channels num_layers w0 = Ok (blk, w0')
    /\ map unit_shape (_DecBlock.layers blk)
       = repeat (Some (in_channels, in_channels)) (Z.to_nat (num_layers - 1))
         ++ [Some (in_channels, out_channels)]
    /\ length (_DecBlock.layers blk) = Z.to_nat num_layers
    /\ _DecBlock.max_unpool blk = nn.MaxUnpool2d.mk 2 2 0
    /\ (forall (x : Tensor scalar) (indices : Tensor Z) (output_size : option (list Z))
              (oh ow : nat) (w : World),
         Z.of_nat (tC x) = in_channels ->
         (1 <= tH x)%nat -> (1 <= tW x)%nat ->
         shaped indices (tB x) (tC x) (tH x) (tW x) ->
         (forall ib ic i j, (ib < tB x)%nat -> (ic < tC x)%nat ->
                            (i < tH x)%nat -> (j < tW x)%nat ->
            0 <= at4 indices ib ic i j < Z.of_nat oh * Z.of_nat ow) ->
         unpool_size x output_size oh ow ->
         (tB x * oh * ow <> 1)%nat ->
         exists u w1 y layers' w2,
           nn.MaxUnpool2d.forward (_DecBlock.max_unpool blk) x indices output_size w
             = Ok (u, w1)
           /\ shaped u (tB x) (tC x) oh ow
           /\ (forall b c h w', scatter_spec x indices ow b c h w' (at4 u b c h w'))
           /\ call_layers (_DecBlock.layers blk) u w1 = Ok ((y, layers'), w2)
           /\ _DecBlock.forward blk x indices output_size w
              = Ok ((y, _DecBlock.mk (_DecBlock.max_unpool blk) layers'), w2)
           /\ size y = [Z.of_nat (tB x); out_channels; Z.of_nat oh; Z.of_nat ow])
    /\ (forall (x : Tensor scalar) (indices : Tensor Z) (output_size : option (list Z))
               (w : World) r w',
          _DecBlock.forward blk x indices output_size w = Ok (r, w') ->
          Z.of_nat (tC x) = in_channels
          /\ exists oh ow,
               unpool_size x output_size oh ow
               /\ shaped indices (tB x) (tC x) (tH x) (tW x)
               /\ (1 <= tH x)%nat /\ (1 <= tW x)%nat
               /\ (forall ib ic i j, (ib < tB x)%nat -> (ic < tC x)%nat ->
                                     (i < tH x)%nat -> (j < tW x)%nat ->
                     0 <= at4 indices ib ic i j < Z.of_nat oh * Z.of_nat ow)
               /\ (tB x * oh * ow <> 1)%nat).
Proof.
  intros Hi Ho Hn.
  destruct (DecBlock_init_returns in_channels out_channels num_layers
              ltac:(lia) ltac:(lia) w0)
    as (blk & w0' & Hrun & Hu & Hp).
  assert (Htr : layers_training (_DecBlock.layers blk) = true).
  { destruct (DecBlock_init_training in_channels out_channels num_layers
                ltac:(lia) ltac:(lia) w0)
      as (blk2 & w2 & Hrun2 & Htr).
    rewrite Hrun in Hrun2. now injection Hrun2 as <- _. }
  exists blk, w0'. split; [exact Hrun|]. split; [exact Hu|].
  split.
  { rewrite <- (length_map unit_shape), Hu. rewrite length_app, repeat_length. cbn. lia. }
  split; [exact Hp|].
  split.
  2:{ intros x indices output_size w r w' Hret.
      destruct (DecBlock_forward_inv blk _ _ _ x indices output_size w r w' Hu Hp Hret)
        as (Hc & _ & _ & oh & ow & Hsz & Hsh & Hh & Hw & Hidx & Hone).
      split; [assumption|].
      exists oh, ow. repeat (split; [assumption|]). now apply Hone. }
  intros x indices output_size oh ow w Hc Hh Hw Hsh Hidx Hsz Hone.
  assert (Hs : stack_io in_channels (map unit_shape (_DecBlock.layers blk)) = Some out_channels).
  { rewrite Hu. apply stack_io_dec; lia. }
  assert (Hoh : (1 <= oh)%nat /\ (1 <= ow)%nat).
  { destruct output_size as [l|]; unfold unpool_size in Hsz; lia. }
  destruct (max_unpool_spec x indices output_size oh ow Hsz Hsh
              ltac:(lia) Hh Hw Hidx w)
    as (u & w1 & E1 & (HB & HC & HH & HW) & Hscatter).
  destruct (layers_forward_returns (_DecBlock.layers blk) in_channels out_channels u Hs
              ltac:(lia) ltac:(lia) ltac:(lia) ltac:(now rewrite HB, HH, HW) w1)
    as ([y layers'] & w2 & E2 & YB & YC & YH & YW). cbn [fst] in *.
  exists u, w1, y, layers', w2.
  split; [now rewrite Hp|]. split; [unfold shaped; auto|]. split; [exact Hscatter|].
  split; [exact E2|].
  split.
  { unfold _DecBlock.forward. rewrite Hp. rewrite (@bind_ok _ _ _ _ _ w _ _ E1).
    rewrite (@bind_ok _ _ _ _ _ w1 _ _ E2). reflexivity. }
  unfold size. rewrite YB, YC, YH, YW, HB, HH, HW. reflexivity.
Qed.

(** C1 (amended).  For positive [in_channels] and [out_channels], in
    training and in evaluation mode, the forward pass of
    [SegNet(in_channels, out_channels)] on an input of shape
    [B, in_channels, H, W] with H and W positive multiples of 32 returns a
    tensor of shape [B, out_channels, H, W]. *)
Theorem SegNet_forward_shape (in_channels out_channels : Z) (mode : bool)
  (x : Tensor scalar) (w0 : World) :
  0 < in_channels -> 0 < out_channels -> Z.of_nat (tC x) = in_channels ->
  (0 < tH x)%nat -> (0 < tW x)%nat -> Nat.divide 32 (tH x) -> Nat.divide 32 (tW x) ->
  exists net w1,
    SegNet.__init__ in_channels out_channels w0 = Ok (net, w1)
    /\ forall w, exists y net' w',
         SegNet.forward (SegNet.train mode net) x w = Ok ((y, net'), w')
         /\ size y = [Z.of_nat (tB x); out_channels; Z.of_nat (tH x); Z.of_nat (tW x)].
Proof.
  intros Hi Ho Hc Hh Hw Dh Dw.
  destruct (SegNet_init_returns in_channels out_channels ltac:(lia) ltac:(lia) w0)
    as (net & w1 & Hrun & Htop).
  exists net, w1. split; [exact Hrun|]. intros w.
  apply Nat.divide_pos_le in Dh; [|lia]. apply Nat.divide_pos_le in Dw; [|lia].
  destruct (forward_returns (SegNet.train mode net) in_channels out_channels x) with (w := w)
    as ([y net'] & w' & E & Hsz); try assumption; try lia.
  { rewrite net_wf_train. now apply topology_wf. }
  exists y, net', w'. split; [exact E | exact Hsz].
Qed.

(** C7.  For positive [in_channels] and [out_channels], from the same state
    of the random generator as the base network, [BayesEncoderSegNet] has a
    Bayesian encoder block of the same widths and numbers of units at each
    of the five encoder stages and the decoder blocks, final convolution
    and softmax of the base network; [BayesCenterSegNet] has Bayesian
    blocks of the same widths and numbers of units at encoder stages 2 to 4
    and decoder stages 4 to 2, and the blocks of the base network at
    encoder stages 0 and 1 and decoder stages 1 and 0.  Neither class
    defines a forward: the lookup finds the one of [SegNet]. *)
Theorem variants_replace_blocks (in_channels out_channels : Z) (w0 : World) :
  0 < in_channels -> 0 < out_channels ->
  exists base w1,
    SegNet.__init__ in_channels out_channels w0 = Ok (base, w1)
    /\ segnet_topology in_channels out_channels base
    /\ (exists net w2,
          BayesEncoderSegNet.__init__ in_channels out_channels w0 = Ok (net, w2)
          /\ bayes_enc [(in_channels, 64); (64, 64)] (SegNet.encoder0 net)
          /\ bayes_enc [(64, 128); (128, 128)] (SegNet.encoder1 net)
          /\ bayes_enc [(128, 256); (256, 256); (256, 256)] (SegNet.encoder2 net)
          /\ bayes_enc [(256, 512); (512, 512); (512, 512)] (SegNet.encoder3 net)
          /\ bayes_enc [(512, 512); (512, 512); (512, 512)] (SegNet.encoder4 net)
          /\ SegNet.decoder4 net = SegNet.decoder4 base
          /\ SegNet.decoder3 net = SegNet.decoder3 base
          /\ SegNet.decoder2 net = SegNet.decoder2 base
          /\ SegNet.decoder1 net = SegNet.decoder1 base
          /\ SegNet.decoder0 net = SegNet.decoder0 base
          /\ SegNet.conv net = SegNet.conv base
          /\ SegNet.softmax net = SegNet.softmax base)
    /\ (exists net w2,
          BayesCenterSegNet.__init__ in_channels out_channels w0 = Ok (net, w2)
          /\ SegNet.encoder0 net = SegNet.encoder0 base
          /\ SegNet.encoder1 net = SegNet.encoder1 base
          /\ bayes_enc [(128, 256); (256, 256); (256, 256)] (SegNet.encoder2 net)
          /\ bayes_enc [(256, 512); (512, 512); (512, 512)] (SegNet.encoder3 net)
          /\ bayes_enc [(512, 512); (512, 512); (512, 512)] (SegNet.encoder4 net)
          /\ bayes_dec [(512, 512); (512, 512); (512, 512)] (SegNet.decoder4 net)
          /\ bayes_dec [(512, 512); (512, 512); (512, 256)] (SegNet.decoder3 net)
          /\ bayes_dec [(256, 256); (256, 256); (256, 128)] (SegNet.decoder2 net)
          /\ SegNet.decoder1 net = SegNet.decoder1 base
          /\ SegNet.decoder0 net = SegNet.decoder0 base
          /\ SegNet.conv net = SegNet.conv base
          /\ SegNet.softmax net = SegNet.softmax base)
    /\ own_forward CBayesEncoderSegNet = None
    /\ own_forward CBayesCenterSegNet = None
    /\ resolve_forward 1 CBayesEncoderSegNet = Some SegNet.forward
    /\ resolve_forward 1 CBayesCenterSegNet = Some SegNet.forward.
Proof.
  intros Hi Ho.
  destruct (SegNet_init_returns in_channels out_channels ltac:(lia) ltac:(lia) w0)
    as (base & w1 & Hrun & Htop).
  exists base, w1. split; [exact Hrun|]. split; [exact Htop|].
  split; [|split].
  - unfold BayesEncoderSegNet.__init__.
    rewrite (@bind_ok _ _ _ _ _ w0 _ _ Hrun). cbv beta.
    run_with (BayesEnc_init_returns in_channels 64 2 [(in_channels, 64); (64, 64)] eq_refl
                ltac:(lia) ltac:(lia)).
    intros e0 v0 He0.
    run_with (BayesEnc_init_returns 64 128 2 [(64, 128); (128, 128)] eq_refl
                ltac:(lia) ltac:(lia)).
    intros e1 v1 He1.
    run_with (BayesEnc_init_returns 128 256 3 [(128, 256); (256, 256); (256, 256)] eq_refl
                ltac:(lia) ltac:(lia)).
    intros e2 v2 He2.
    run_with (BayesEnc_init_returns 256 512 3 [(256, 512); (512, 512); (512, 512)] eq_refl
                ltac:(lia) ltac:(lia)).
    intros e3 v3 He3.
    run_with (BayesEnc_init_returns 512 512 3 [(512, 512); (512, 512); (512, 512)] eq_refl
                ltac:(lia) ltac:(lia)).
    intros e4 v4 He4.
    do 2 eexists. split; [reflexivity|]. cbn. repeat (split; [assumption || reflexivity|]).
    reflexivity.
  - unfold BayesCenterSegNet.__init__.
    rewrite (@bind_ok _ _ _ _ _ w0 _ _ Hrun). cbv beta.
    run_with (BayesEnc_init_returns 128 256 3 [(128, 256); (256, 256); (256, 256)] eq_refl
                ltac:(lia) ltac:(lia)).
    intros e2 v2 He2.
    run_with (BayesEnc_init_returns 256 512 3 [(256, 512); (512, 512); (512, 512)] eq_refl
                ltac:(lia) ltac:(lia)).
    intros e3 v3 He3.
    run_with (BayesEnc_init_returns 512 512 3 [(512, 512); (512, 512); (512, 512)] eq_refl
                ltac:(lia) ltac:(lia)).
    intros e4 v4 He4.
    run_with (BayesDec_init_returns 512 512 3 [(512, 512); (512, 512); (512, 512)] eq_refl
                ltac:(lia) ltac:(lia)).
    intros d4 v5 Hd4.
    run_with (BayesDec_init_returns 512 256 3 [(512, 512); (512, 512); (512, 256)] eq_refl
                ltac:(lia) ltac:(lia)).
    intros d3 v6 Hd3.
    run_with (BayesDec_init_returns 256 128 3 [(256, 256); (256, 256); (256, 128)] eq_refl
                ltac:(lia) ltac:(lia)).
    intros d2 v7 Hd2.
    do 2 eexists. split; [reflexivity|]. cbn. repeat (split; [assumption || reflexivity|]).
    reflexivity.
  - repeat split.
Qed.

(** C9.  For positive widths, the Bayesian encoder block built from a state
    of the random generator has as its plain part the plain block built from that state,
    and a dropout that is not in place.  In both modes its forward returns
    the indices that the forward of the plain part returns on the same
    input; the dropout is run on the pooled tensor alone and leaves it as it
    is; when the plain part raises, so does the block. *)
Theorem bayes_encoder_returns_pool_indices (in_channels out_channels num_layers : Z)
  (w0 : World) :
  0 < in_channels -> 0 < out_channels ->
  (exists b w1,
      _BayesEncBlock.__init__ in_channels out_channels num_layers w0 = Ok (b, w1)
      /\ _EncBlock.__init__ in_channels out_channels num_layers w0
         = Ok (_BayesEncBlock.super b, w1)
      /\ _BayesEncBlock.dropout b = nn.Dropout2d.mk (1 # 2) false true)
  /\ forall (super : _EncBlock.t) (mode : bool) (x : Tensor scalar) (w : World),
       match _EncBlock.forward super x w with
       | Ok ((y, indices, super'), w1) =>
           exists y' w2,
             nn.Dropout2d.forward (nn.Dropout2d.mk (1 # 2) false mode) y w1
               = Ok ((y', y), w2)
             /\ _BayesEncBlock.forward
                  (_BayesEncBlock.mk super (nn.Dropout2d.mk (1 # 2) false mode)) x w
                = Ok ((y', indices,
                       _BayesEncBlock.mk super' (nn.Dropout2d.mk (1 # 2) false mode)), w2)
       | Raise e =>
           _BayesEncBlock.forward
             (_BayesEncBlock.mk super (nn.Dropout2d.mk (1 # 2) false mode)) x w = Raise e
       end.
Proof.
  intros Hi Ho. split.
  - destruct (EncBlock_init_returns in_channels out_channels num_layers
                ltac:(lia) ltac:(lia) w0)
      as (b & w1 & Hrun & _).
    exists (_BayesEncBlock.mk b (nn.Dropout2d.mk (1 # 2) false true)), w1.
    split; [|split; [exact Hrun | reflexivity]].
    unfold _BayesEncBlock.__init__. rewrite (@bind_ok _ _ _ _ _ w0 _ _ Hrun). reflexivity.
  - intros super mode x w. unfold _BayesEncBlock.forward.
    cbn [_BayesEncBlock.super _BayesEncBlock.dropout].
    destruct (_EncBlock.forward super x w) as [[[[y indices] super'] w1]|e] eqn:E.
    + rewrite (@bind_ok _ _ _ _ _ w _ _ E). cbv beta iota.
      destruct (dropout_forward_returns (nn.Dropout2d.mk (1 # 2) false mode) y eq_refl w1)
        as ([y' y0] & w2 & Ed & _ & Hy0). cbn [fst snd] in *.
      specialize (Hy0 eq_refl). subst y0.
      exists y', w2. split; [exact Ed|].
      rewrite (@bind_ok _ _ _ _ _ w1 _ _ Ed). reflexivity.
    + now rewrite (@bind_raise _ _ _ _ _ w _ E).
Qed.

(** C8.  Outside training mode the dropout returns its input and draws
    nothing, so the forward of a Bayesian encoder or decoder block is the
    forward of its plain part.  After [eval()], the forward pass of any network (of any of
    the three classes) returns the same value from any two worlds, leaves
    the network and the random generator as they are, and a second call on
    the same input returns the same output as the first. *)
Theorem eval_forward_is_deterministic (net : SegNet.t) (x : Tensor scalar) :
  (forall (d : nn.Dropout2d.t) (y : Tensor scalar) (w : World),
      nn.Dropout2d.valid (nn.Dropout2d.p d) = true ->
      nn.Dropout2d.forward (nn.Dropout2d.train false d) y w = Ok ((y, y), w))
  /\ (forall (b : _BayesEncBlock.t) (y : Tensor scalar) (w : World),
        nn.Dropout2d.valid (nn.Dropout2d.p (_BayesEncBlock.dropout b)) = true ->
        _BayesEncBlock.forward (_BayesEncBlock.train false b) y w
        = match _EncBlock.forward (_EncBlock.train false (_BayesEncBlock.super b)) y w with
          | Ok ((z, indices, super'), w') =>
              Ok ((z, indices,
                   _BayesEncBlock.mk super'
                     (nn.Dropout2d.train false (_BayesEncBlock.dropout b))), w')
          | Raise e => Raise e
          end)
  /\ (forall (b : _BayesDecBlock.t) (y : Tensor scalar) (indices : Tensor Z)
             (output_size : option (list Z)) (w : World),
        nn.Dropout2d.valid (nn.Dropout2d.p (_BayesDecBlock.dropout b)) = true ->
        _BayesDecBlock.forward (_BayesDecBlock.train false b) y indices output_size w
        = match _DecBlock.forward (_DecBlock.train false (_BayesDecBlock.super b))
                  y indices output_size w with
          | Ok ((z, super'), w') =>
              Ok ((z, _BayesDecBlock.mk super'
                        (nn.Dropout2d.train false (_BayesDecBlock.dropout b))), w')
          | Raise e => Raise e
          end)
  /\ eval_mode (SegNet.eval net) = true
  /\ (forall w1 w2,
        outcome (SegNet.forward (SegNet.eval net) x w1)
        = outcome (SegNet.forward (SegNet.eval net) x w2))
  /\ (forall w y net' w',
        SegNet.forward (SegNet.eval net) x w = Ok ((y, net'), w') ->
        net' = SegNet.eval net /\ rng w' = rng w
        /\ exists w'', forward_twice (SegNet.eval net) x w
                       = Ok ((y, y, SegNet.eval net), w''))
  /\ (forall c, resolve_forward 1 c = Some SegNet.forward).
Proof.
  pose proof (forward_eval_deterministic (SegNet.eval net) x (eval_mode_eval net)) as Hdet.
  assert (Hid : forall (d : nn.Dropout2d.t) (y : Tensor scalar) (w : World),
            nn.Dropout2d.valid (nn.Dropout2d.p d) = true ->
            nn.Dropout2d.forward (nn.Dropout2d.train false d) y w = Ok ((y, y), w)).
  { intros d y w Hv. unfold nn.Dropout2d.forward, nn.Dropout2d.train.
    cbn [nn.Dropout2d.p nn.Dropout2d.training nn.Dropout2d.inplace].
    rewrite Hv. cbn [negb]. now rewrite orb_true_r. }
  split; [exact Hid|]. split; [|split; [|split; [|split; [|split]]]].
  - intros b y w Hv. unfold _BayesEncBlock.forward, _BayesEncBlock.train.
    cbn [_BayesEncBlock.super _BayesEncBlock.dropout]. unfold bind at 1.
    destruct (_EncBlock.forward _ y w) as [[[[z indices] super'] w']|e]; [|reflexivity].
    unfold bind. now rewrite (Hid _ z w' Hv).
  - intros b y indices output_size w Hv.
    unfold _BayesDecBlock.forward, _BayesDecBlock.train.
    cbn [_BayesDecBlock.super _BayesDecBlock.dropout]. unfold bind at 1.
    destruct (_DecBlock.forward _ y indices output_size w) as [[[z super'] w']|e];
      [|reflexivity].
    unfold bind. now rewrite (Hid _ z w' Hv).
  - apply eval_mode_eval.
  - intros w1 w2. now apply (det_outcome _ _ w1 w2 Hdet).
  - intros w y net' w' Hrun.
    destruct (det_keeps_rng _ _ _ _ _ Hdet Hrun) as (Hrng & Hnet). cbn in Hnet. subst net'.
    split; [reflexivity|]. split; [exact Hrng|].
    destruct Hdet as (r & Hr & _).
    pose proof Hrun as Hrun1. rewrite Hr in Hrun1.
    destruct r as [[[y0 n0] evs]|e]; [|discriminate]. cbn in Hrun1.
    injection Hrun1 as -> -> _.
    unfold forward_twice.
    rewrite (@bind_ok _ _ _ _ _ w _ _ Hrun). cbv beta iota.
    rewrite (@bind_ok _ _ _ _ _ w' _ _ (Hr w')). cbv beta iota.
    eexists. reflexivity.
  - now intros [].
Qed.

End Claims.

(** ** The parts of the model the statements above do not reach *)

Section Units.
Context {R : Runtime}.

(** X1.  For positive widths, [_make_layer(in_channels, out_channels)]
    builds a unit from every state of the generator.  Called as built (in
    training mode), the unit returns exactly on the inputs of
    [in_channels] channels with at least one row and one column and more
    than one value per channel; the
    result then has the batch size, height and width of the input and
    [out_channels] channels, and the unit is left a unit of the same
    widths. *)
Theorem make_layer_unit_domain (in_channels out_channels : Z) (w0 : World) :
  0 < in_channels -> 0 < out_channels ->
  exists u w0',
    _make_layer in_channels out_channels w0 = Ok (u, w0')
    /\ forall (x : Tensor scalar) (w : World),
         ((exists r w', call_unit u x w = Ok (r, w'))
          <-> (Z.of_nat (tC x) = in_channels
               /\ (1 <= tH x)%nat /\ (1 <= tW x)%nat
               /\ (tB x * tH x * tW x <> 1)%nat))
         /\ (forall r w', call_unit u x w = Ok (r, w') ->
               shaped (fst r) (tB x) (Z.to_nat out_channels) (tH x) (tW x)
               /\ unit_shape (snd r) = Some (in_channels, out_channels)).
Proof.
  intros Hi Ho.
  destruct (make_layer_returns in_channels out_channels ltac:(lia) ltac:(lia) w0)
    as (u & w0' & Hrun & Hu).
  assert (Ht : forallb leaf_training u = true).
  { destruct (make_layer_training in_channels out_channels ltac:(lia) ltac:(lia) w0)
      as (u2 & w2 & Hrun2 & Ht).
    rewrite Hrun in Hrun2. now injection Hrun2 as <- _. }
  exists u, w0'. split; [exact Hrun|]. intros x w. split; [split|].
  - intros (r & w' & Hret). destruct r as [y u'].
    pose proof (unit_forward_training_inv u _ _ x w _ _ Ht Hu Hret) as Hone.
    apply (unit_forward_inv u in_channels out_channels) in Hret; [|exact Hu].
    tauto.
  - intros (Hc & Hh & Hw & Hone).
    destruct (unit_forward_returns u in_channels out_channels x Hu Hc
                ltac:(lia) ltac:(lia) Hh Hw Hone w)
      as (r & w' & Hret & _).
    now exists r, w'.
  - intros [y u'] w' Hret. cbn [fst snd]. split.
    + now apply (unit_forward_inv u in_channels out_channels) in Hret.
    + apply unit_shape_inv in Hu as (p & flag & s & ->).
      unfold call_unit in Hret. cbn [nn.Sequential.forward nn.call_leaf] in Hret.
      rewrite !bind_assoc in Hret.
      apply bind_inv in Hret as (y1 & w1 & E1 & Hret).
      rewrite bind_ret in Hret. cbv beta iota in Hret. rewrite !bind_assoc in Hret.
      apply bind_inv in Hret as ([y2 b2] & w2 & E2 & Hret).
      cbn in Hret. injection Hret as _ <- _.
      unfold nn.BatchNorm2d.forward in E2. cbn [nn.BatchNorm2d.training
        nn.BatchNorm2d.num_features nn.BatchNorm2d.state] in E2.
      destruct flag.
      * destruct (_ =? 1)%nat; [discriminate|]. destruct (negb _); [discriminate|].
        cbn in E2. injection E2 as _ <- _. apply unit_shape_make.
      * destruct (negb _); [discriminate|].
        cbn in E2. injection E2 as _ <- _. apply unit_shape_make.
Qed.

End Units.

Section Bayes_decoder.
Context {R : Runtime}.

(** X2.  For positive widths,
    [_BayesDecBlock(in_channels, out_channels, num_layers)] is the plain
    decoder block built from the same state of the random generator,
    with a dropout of probability 1/2 in training mode.  Its [forward]
    raises whatever the plain [forward] raises; where the plain one returns
    [y], it returns a tensor of the shape of [y]: [y] itself, from the same
    world, outside training mode, and in training mode each entry of [y]
    times the noise value of its (sample, channel) plane, the same for all
    the entries of a plane. *)
Theorem bayes_decoder_is_dropout_of_plain (in_channels out_channels num_layers : Z)
  (w0 : World) :
  0 < in_channels -> 0 < out_channels ->
  (exists b w1,
      _BayesDecBlock.__init__ in_channels out_channels num_layers w0 = Ok (b, w1)
      /\ _DecBlock.__init__ in_channels out_channels num_layers w0
         = Ok (_BayesDecBlock.super b, w1)
      /\ _BayesDecBlock.dropout b = nn.Dropout2d.mk (1 # 2) false true)
  /\ forall (super : _DecBlock.t) (mode : bool) (x : Tensor scalar) (indices : Tensor Z)
            (output_size : option (list Z)) (w : World),
       match _DecBlock.forward super x indices output_size w with
       | Ok ((y, super'), w1) =>
           exists y' w2,
             _BayesDecBlock.forward
               (_BayesDecBlock.mk super (nn.Dropout2d.mk (1 # 2) false mode))
               x indices output_size w
             = Ok ((y', _BayesDecBlock.mk super' (nn.Dropout2d.mk (1 # 2) false mode)), w2)
             /\ shaped y' (tB y) (tC y) (tH y) (tW y)
             /\ (mode = false -> y' = y /\ w2 = w1)
             /\ (mode = true -> nn.Dropout2d.numel y <> 0%nat ->
                 exists keep : nat -> nat -> bool,
                   forall b c h k,
                     at4 y' b c h k = mul (at4 y b c h k) (noise_value (1 # 2) (keep b c)))
       | Raise e =>
           _BayesDecBlock.forward
             (_BayesDecBlock.mk super (nn.Dropout2d.mk (1 # 2) false mode))
             x indices output_size w = Raise e
       end.
Proof.
  intros Hi Ho. split.
  - destruct (DecBlock_init_returns in_channels out_channels num_layers
                ltac:(lia) ltac:(lia) w0)
      as (b & w1 & Hrun & _).
    exists (_BayesDecBlock.mk b (nn.Dropout2d.mk (1 # 2) false true)), w1.
    split; [|split; [exact Hrun | reflexivity]].
    unfold _BayesDecBlock.__init__. rewrite (@bind_ok _ _ _ _ _ w0 _ _ Hrun). reflexivity.
  - intros super mode x indices output_size w. unfold _BayesDecBlock.forward.
    cbn [_BayesDecBlock.super _BayesDecBlock.dropout].
    destruct (_DecBlock.forward super x indices output_size w)
      as [[[y super'] w1]|e] eqn:E.
    + rewrite (@bind_ok _ _ _ _ _ w _ _ E). cbv beta iota.
      unfold nn.Dropout2d.forward.
      cbn [nn.Dropout2d.p nn.Dropout2d.training nn.Dropout2d.inplace].
      change (negb (nn.Dropout2d.valid (1 # 2))) with false.
      change (Qeq_bool (1 # 2) 0) with false. change (Qeq_bool (1 # 2) 1) with false.
      cbv iota. cbn [orb].
      destruct mode; cbn [negb orb].
      * destruct (Nat.eqb_spec (nn.Dropout2d.numel y) 0) as [Hz|Hnz].
        -- exists y, w1. split; [reflexivity|]. split; [unfold shaped; auto|].
           split; [discriminate|]. intros _ Hne. contradiction.
        -- eexists. eexists. split; [reflexivity|]. split; [unfold shaped; cbn; auto|].
           split; [discriminate|]. intros _ _.
           exists (fst (bernoulli (1 - (1 # 2)) (tB y) (tC y) (rng w1))).
           intros b c h k. reflexivity.
      * exists y, w1. split; [reflexivity|]. split; [unfold shaped; auto|].
        split; [auto|discriminate].
    + now rewrite (@bind_raise _ _ _ _ _ w _ E).
Qed.

End Bayes_decoder.

Section Pool_unpool.
Context {R : Runtime}.

Lemma offset_unique (W a b c d : nat) :
  (b < W)%nat -> (d < W)%nat -> (a * W + b = c * W + d)%nat -> a = c /\ b = d.
Proof.
  intros Hb Hd E.
  assert (a = c).
  { destruct (Nat.lt_trichotomy a c) as [Hlt|[Heq|Hgt]]; [|assumption|]; nia. }
  subst. lia.
Qed.

Lemma half_of_window (i a : nat) : (a < 2)%nat -> ((2 * i + a) / 2 = i)%nat.
Proof.
  intros Ha. symmetry. apply (Nat.div_unique (2 * i + a) 2 i a); lia.
Qed.

(** the pooling of a tensor followed by the unpooling of the result to the
    height and width of that tensor: a cell of the result either is the
    cell the index of its window points at, and holds the pooled value, or
    holds zero *)
Lemma pool_unpool_cells (u : Tensor scalar) (a0 b0 : Z) (w : World) :
  (1 <= tC u)%nat -> (2 <= tH u)%nat -> (2 <= tW u)%nat ->
  exists y indices w1 v w2,
    nn.MaxPool2d.forward (nn.MaxPool2d.mk 2 2) u w = Ok ((y, indices), w1)
    /\ nn.MaxUnpool2d.forward (nn.MaxUnpool2d.mk 2 2 0) y indices
         (Some [a0; b0; Z.of_nat (tH u); Z.of_nat (tW u)]) w1
       = Ok (v, w2)
    /\ shaped y (tB u) (tC u) (tH u / 2) (tW u / 2)
    /\ shaped v (tB u) (tC u) (tH u) (tW u)
    /\ forall b c h k, (h < tH u)%nat -> (k < tW u)%nat ->
         ((h / 2 < tH u / 2)%nat /\ (k / 2 < tW u / 2)%nat
          /\ at4 indices b c (h / 2) (k / 2) = Z.of_nat (h * tW u + k)
          /\ at4 v b c h k = at4 y b c (h / 2) (k / 2)
          /\ (at4 v b c h k = at4 u b c h k \/ at4 v b c h k = neg_inf))
         \/ (((h / 2 < tH u / 2)%nat -> (k / 2 < tW u / 2)%nat ->
              at4 indices b c (h / 2) (k / 2) <> Z.of_nat (h * tW u + k))
             /\ at4 v b c h k = zero).
Proof.
  intros Hc Hh Hw.
  destruct (max_pool_spec u Hc Hh Hw w)
    as ([y indices] & w1 & E1 & (YB & YC & YH & YW) & (IB & IC & IH & IW) & Hpool).
  cbn [fst snd] in *.
  pose proof (half_ge (tH u) 1 ltac:(lia)) as G1.
  pose proof (half_ge (tW u) 1 ltac:(lia)) as G2.
  pose proof (twice_half_le (tH u)) as G3. pose proof (twice_half_gt (tH u)) as G4.
  pose proof (twice_half_le (tW u)) as G5. pose proof (twice_half_gt (tW u)) as G6.
  destruct (max_unpool_spec y indices
              (Some [a0; b0; Z.of_nat (tH u); Z.of_nat (tW u)]) (tH u) (tW u))
    with (w := w1) as (v & w2 & E2 & (VB & VC & VH & VW) & Hscatter).
  { unfold unpool_size. split; [right; eauto|]. rewrite YH, YW. lia. }
  { unfold shaped. repeat split; congruence. }
  { lia. } { lia. } { lia. }
  { intros ib ic i j _ _ Hi Hj. rewrite YH in Hi. rewrite YW in Hj.
    apply (in_window_bound (tH u) (tW u) i j); [assumption..|].
    eapply pooled_from_in_window, Hpool; assumption. }
  exists y, indices, w1, v, w2. split; [exact E1|]. split; [exact E2|].
  split; [unfold shaped; auto|].
  split; [unfold shaped; repeat split; congruence|].
  intros b c h k Hlt Hkt.
  destruct (Hscatter b c h k) as [(i & j & Hi & Hj & Hidx & Hv)|(Hnone & Hv)].
  - left. rewrite YH in Hi. rewrite YW in Hj.
    assert (Hcell : (h / 2)%nat = i /\ (k / 2)%nat = j
                    /\ (at4 y b c i j = at4 u b c h k \/ at4 y b c i j = neg_inf)).
    { destruct (Hpool b c i j Hi Hj) as [(a & d & Ha & Hd & Hval & Hoff)|(Hval & Hoff)];
        rewrite Hoff in Hidx; apply Nat2Z.inj in Hidx;
        apply offset_unique in Hidx as (Eh & Ek); try lia.
      - subst h k. rewrite !half_of_window by assumption. auto.
      - subst h k. rewrite <- (Nat.add_0_r (2 * i)), <- (Nat.add_0_r (2 * j)).
        rewrite !half_of_window by lia. auto. }
    destruct Hcell as (<- & <- & Hval).
    repeat split; try assumption; try congruence.
  - right. split; [|exact Hv].
    intros Hi Hj. apply Hnone; [now rewrite YH | now rewrite YW].
Qed.

(** X3.  An encoder block and the decoder block that undoes it, called as
    the innermost pair of [SegNet.forward] is: the decoder on the pooled
    tensor and the indices the encoder returns, with the size of the
    encoder's input as the target.  For positive widths and an input of at
    least 2 rows and 2 columns both calls return, and the decoder's result
    has the batch size, height and width of the encoder's input.  The
    tensor [v] the decoder unpools and runs its units on has the shape of
    the tensor [u] the encoder pooled, and every cell of it either is the
    cell its window's index points at, where it holds the pooled value of
    the window (the entry of [u] there, or minus infinity), or holds zero.
    Under the laws of the comparison of floating-point numbers the pooled
    value is a maximum of its window. *)
Theorem pool_then_unpool_keeps_maxima (cin cmid cout n m : Z) (x : Tensor scalar)
  (w0 : World) :
  0 < cin -> 0 < cmid -> 0 < cout ->
  Z.of_nat (tC x) = cin -> (2 <= tH x)%nat -> (2 <= tW x)%nat ->
  exists enc w1 dec w2,
    _EncBlock.__init__ cin cmid n w0 = Ok (enc, w1)
    /\ _DecBlock.__init__ cmid cout m w1 = Ok (dec, w2)
    /\ forall w, exists u wu y indices enc' w3 v wv z dec' w4,
         call_layers (_EncBlock.layers enc) x w = Ok ((u, _EncBlock.layers enc'), wu)
         /\ nn.MaxPool2d.forward (_EncBlock.max_pool enc) u wu = Ok ((y, indices), w3)
         /\ _EncBlock.forward enc x w = Ok ((y, indices, enc'), w3)
         /\ nn.MaxUnpool2d.forward (_DecBlock.max_unpool dec) y indices (Some (size x)) w3
            = Ok (v, wv)
         /\ call_layers (_DecBlock.layers dec) v wv = Ok ((z, _DecBlock.layers dec'), w4)
         /\ _DecBlock.forward dec y indices (Some (size x)) w3 = Ok ((z, dec'), w4)
         /\ size z = [Z.of_nat (tB x); cout; Z.of_nat (tH x); Z.of_nat (tW x)]
         /\ shaped u (tB x) (Z.to_nat cmid) (tH x) (tW x)
         /\ shaped v (tB x) (Z.to_nat cmid) (tH x) (tW x)
         /\ (forall b c h k, (h < tH x)%nat -> (k < tW x)%nat ->
               ((h / 2 < tH x / 2)%nat /\ (k / 2 < tW x / 2)%nat
                /\ at4 indices b c (h / 2) (k / 2) = Z.of_nat (h * tW x + k)
                /\ at4 v b c h k = at4 y b c (h / 2) (k / 2)
                /\ (at4 v b c h k = at4 u b c h k \/ at4 v b c h k = neg_inf))
               \/ (((h / 2 < tH x / 2)%nat -> (k / 2 < tW x / 2)%nat ->
                    at4 indices b c (h / 2) (k / 2) <> Z.of_nat (h * tW x + k))
                   /\ at4 v b c h k = zero))
         /\ (gt_laws ->
             forall b c i j, (i < tH x / 2)%nat -> (j < tW x / 2)%nat ->
               window_max u b c i j (at4 y b c i j)).
Proof.
  intros Hi Hm Ho Hc Hh Hw.
  destruct (EncBlock_init_returns cin cmid n ltac:(lia) ltac:(lia) w0)
    as (enc & w1 & Eenc & Hue & Hpe).
  destruct (DecBlock_init_returns cmid cout m ltac:(lia) ltac:(lia) w1)
    as (dec & w2 & Edec & Hud & Hpd).
  exists enc, w1, dec, w2. split; [exact Eenc|]. split; [exact Edec|]. intros w.
  assert (Hse : stack_io cin (map unit_shape (_EncBlock.layers enc)) = Some cmid).
  { rewrite Hue. apply stack_io_enc; lia. }
  assert (Hsd : stack_io cmid (map unit_shape (_DecBlock.layers dec)) = Some cout).
  { rewrite Hud. apply stack_io_dec; lia. }
  destruct (layers_forward_returns (_EncBlock.layers enc) cin cmid x Hse Hc
              ltac:(lia) ltac:(lia) (no_single_value _ _ _ Hh) w)
    as ([u layers'] & wu & E1 & UB & UC & UH & UW). cbn [fst] in *.
  assert (EC : tC u = Z.to_nat cmid) by lia.
  destruct (pool_unpool_cells u (Z.of_nat (tB x)) (Z.of_nat (tC x)) wu
              ltac:(lia) ltac:(lia) ltac:(lia))
    as (y & indices & w3 & v & wv & E2 & E3 & (YB & YC & YH & YW) & (VB & VC & VH & VW)
        & Hcells).
  pose proof (max_pool_max u wu y indices w3 E2) as Hmax.
  rewrite UH, UW in E3.
  destruct (layers_forward_returns (_DecBlock.layers dec) cmid cout v Hsd
              ltac:(lia) ltac:(lia) ltac:(lia)
              ltac:(rewrite VH, UH; now apply no_single_value) wv)
    as ([z layers''] & w4 & E4 & ZB & ZC & ZH & ZW). cbn [fst] in *.
  exists u, wu, y, indices, (_EncBlock.mk layers' (_EncBlock.max_pool enc)), w3,
         v, wv, z, (_DecBlock.mk (_DecBlock.max_unpool dec) layers''), w4.
  cbn [_EncBlock.layers _DecBlock.layers].
  split; [exact E1|]. split; [now rewrite Hpe|].
  split.
  { unfold _EncBlock.forward. rewrite (@bind_ok _ _ _ _ _ w _ _ E1). cbv beta iota.
    rewrite Hpe. rewrite (@bind_ok _ _ _ _ _ wu _ _ E2). reflexivity. }
  split; [rewrite Hpd; exact E3|]. split; [exact E4|].
  split.
  { unfold _DecBlock.forward. rewrite Hpd. unfold size.
    rewrite (@bind_ok _ _ _ _ _ w3 _ _ E3).
    rewrite (@bind_ok _ _ _ _ _ wv _ _ E4). reflexivity. }
  split.
  { unfold size. rewrite ZB, ZC, ZH, ZW, VB, VH, VW, UB, UH, UW. reflexivity. }
  split; [unfold shaped; repeat split; congruence|].
  split; [unfold shaped; repeat split; congruence|].
  rewrite UH, UW in Hcells, Hmax. split; [exact Hcells | exact Hmax].
Qed.

End Pool_unpool.

Section Stages.
Context {R : Runtime}.

Lemma plain_enc_stage units e : plain_enc units e -> enc_stage units e.
Proof. intros (Hb & Hu & Hp). repeat split; try assumption. now destruct e. Qed.

Lemma bayes_enc_stage units e : bayes_enc units e -> enc_stage units e.
Proof.
  intros (Hb & Hu & Hp & Hd). repeat split; try assumption. now rewrite Hd.
Qed.

Lemma plain_dec_stage units d : plain_dec units d -> dec_stage units d.
Proof. intros (Hb & Hu & Hp). repeat split; try assumption. now destruct d. Qed.

Lemma bayes_dec_stage units d : bayes_dec units d -> dec_stage units d.
Proof.
  intros (Hb & Hu & Hp & Hd). repeat split; try assumption. now rewrite Hd.
Qed.

Lemma topology_stages (i o : Z) (net : SegNet.t) :
  segnet_topology i o net -> stages i o net.
Proof.
  intros (E0 & E1 & E2 & E3 & E4 & D4 & D3 & D2 & D1 & D0 & C).
  unfold stages. repeat split; try (now apply plain_enc_stage);
    try (now apply plain_dec_stage); try apply C;
    first [apply (plain_enc_stage _ _ E0) | apply (plain_enc_stage _ _ E1)
          | apply (plain_enc_stage _ _ E2) | apply (plain_enc_stage _ _ E3)
          | apply (plain_enc_stage _ _ E4) | apply (plain_dec_stage _ _ D4)
          | apply (plain_dec_stage _ _ D3) | apply (plain_dec_stage _ _ D2)
          | apply (plain_dec_stage _ _ D1) | apply (plain_dec_stage _ _ D0)].
Qed.

Lemma enc_stage_wf (units : list (Z * Z)) (cin cout : Z) (e : Encoder) :
  enc_stage units e -> stack_io cin (map Some units) = Some cout -> 0 < cout ->
  enc_wf cin cout e = true.
Proof.
  intros (Hu & Hp & Hd) Hs Ho. unfold enc_wf. rewrite Hu, Hs, Hp, Hd. cbn.
  rewrite Z.eqb_refl. now destruct (Z.ltb_spec 0 cout); [|lia].
Qed.

Lemma dec_stage_wf (units : list (Z * Z)) (cin cout : Z) (d : Decoder) :
  dec_stage units d -> stack_io cin (map Some units) = Some cout ->
  dec_wf cin cout d = true.
Proof.
  intros (Hu & Hp & Hd) Hs. unfold dec_wf. rewrite Hu, Hs, Hp, Hd. cbn.
  now rewrite Z.eqb_refl.
Qed.

Lemma stages_wf (i o : Z) (net : SegNet.t) :
  0 < i -> stages i o net -> net_wf i o net = true.
Proof.
  intros Hi (E0 & E1 & E2 & E3 & E4 & D4 & D3 & D2 & D1 & D0 & C).
  unfold net_wf.
  rewrite (enc_stage_wf _ i 64 _ E0) by (try apply stack_io_2; lia).
  rewrite (enc_stage_wf _ 64 128 _ E1) by (reflexivity || lia).
  rewrite (enc_stage_wf _ 128 256 _ E2) by (reflexivity || lia).
  rewrite (enc_stage_wf _ 256 512 _ E3) by (reflexivity || lia).
  rewrite (enc_stage_wf _ 512 512 _ E4) by (reflexivity || lia).
  rewrite (dec_stage_wf _ 512 512 _ D4) by reflexivity.
  rewrite (dec_stage_wf _ 512 256 _ D3) by reflexivity.
  rewrite (dec_stage_wf _ 256 128 _ D2) by reflexivity.
  rewrite (dec_stage_wf _ 128 64 _ D1) by reflexivity.
  rewrite (dec_stage_wf _ 64 64 _ D0) by reflexivity.
  now rewrite C.
Qed.

Lemma enc_stage_train (mode : bool) units e :
  enc_stage units e -> enc_stage units (train_encoder mode e).
Proof.
  intros (Hu & Hp & Hd). unfold enc_stage, enc_units in *.
  destruct e as [b|b]; cbn -[train_layers] in *; rewrite units_train; auto.
Qed.

Lemma dec_stage_train (mode : bool) units d :
  dec_stage units d -> dec_stage units (train_decoder mode d).
Proof.
  intros (Hu & Hp & Hd). unfold dec_stage, dec_units in *.
  destruct d as [b|b]; cbn -[train_layers] in *; rewrite units_train; auto.
Qed.

Lemma stages_train (mode : bool) (i o : Z) (net : SegNet.t) :
  stages i o net -> stages i o (SegNet.train mode net).
Proof.
  intros (E0 & E1 & E2 & E3 & E4 & D4 & D3 & D2 & D1 & D0 & C).
  unfold stages, SegNet.train.
  cbn [SegNet.encoder0 SegNet.encoder1 SegNet.encoder2 SegNet.encoder3 SegNet.encoder4
       SegNet.decoder4 SegNet.decoder3 SegNet.decoder2 SegNet.decoder1 SegNet.decoder0
       SegNet.conv].
  repeat (split; [first [now apply enc_stage_train | now apply dec_stage_train]|]).
  exact C.
Qed.

(** every class builds a network of the table *)
Lemma construct_stages (c : Class) (i o : Z) :
  0 <= i -> 0 <= o -> returns (construct c i o) (stages i o).
Proof.
  intros Hi Ho. destruct c; cbn [construct].
  - eapply returns_weaken; [now apply SegNet_init_returns|]. apply topology_stages.
  - intros w. unfold BayesEncoderSegNet.__init__.
    run_with (SegNet_init_returns i o Hi Ho). intros base w1 Htop.
    apply topology_stages in Htop.
    destruct Htop as (_ & _ & _ & _ & _ & D4 & D3 & D2 & D1 & D0 & C).
    run_with (BayesEnc_init_returns i 64 2 [(i, 64); (64, 64)] eq_refl
                ltac:(lia) ltac:(lia)).
    intros e0 v0 He0.
    run_with (BayesEnc_init_returns 64 128 2 [(64, 128); (128, 128)] eq_refl
                ltac:(lia) ltac:(lia)).
    intros e1 v1 He1.
    run_with (BayesEnc_init_returns 128 256 3 [(128, 256); (256, 256); (256, 256)] eq_refl
                ltac:(lia) ltac:(lia)).
    intros e2 v2 He2.
    run_with (BayesEnc_init_returns 256 512 3 [(256, 512); (512, 512); (512, 512)] eq_refl
                ltac:(lia) ltac:(lia)).
    intros e3 v3 He3.
    run_with (BayesEnc_init_returns 512 512 3 [(512, 512); (512, 512); (512, 512)] eq_refl
                ltac:(lia) ltac:(lia)).
    intros e4 v4 He4.
    do 2 eexists. split; [reflexivity|]. unfold stages.
    cbn [SegNet.encoder0 SegNet.encoder1 SegNet.encoder2 SegNet.encoder3 SegNet.encoder4
         SegNet.decoder4 SegNet.decoder3 SegNet.decoder2 SegNet.decoder1 SegNet.decoder0
         SegNet.conv].
    repeat (split; [first [now apply bayes_enc_stage | assumption]|]). exact C.
  - intros w. unfold BayesCenterSegNet.__init__.
    run_with (SegNet_init_returns i o Hi Ho). intros base w1 Htop.
    apply topology_stages in Htop.
    destruct Htop as (E0 & E1 & _ & _ & _ & _ & _ & _ & D1 & D0 & C).
    run_with (BayesEnc_init_returns 128 256 3 [(128, 256); (256, 256); (256, 256)] eq_refl
                ltac:(lia) ltac:(lia)).
    intros e2 v2 He2.
    run_with (BayesEnc_init_returns 256 512 3 [(256, 512); (512, 512); (512, 512)] eq_refl
                ltac:(lia) ltac:(lia)).
    intros e3 v3 He3.
    run_with (BayesEnc_init_returns 512 512 3 [(512, 512); (512, 512); (512, 512)] eq_refl
                ltac:(lia) ltac:(lia)).
    intros e4 v4 He4.
    run_with (BayesDec_init_returns 512 512 3 [(512, 512); (512, 512); (512, 512)] eq_refl
                ltac:(lia) ltac:(lia)).
    intros d4 v5 Hd4.
    run_with (BayesDec_init_returns 512 256 3 [(512, 512); (512, 512); (512, 256)] eq_refl
                ltac:(lia) ltac:(lia)).
    intros d3 v6 Hd3.
    run_with (BayesDec_init_returns 256 128 3 [(256, 256); (256, 256); (256, 128)] eq_refl
                ltac:(lia) ltac:(lia)).
    intros d2 v7 Hd2.
    do 2 eexists. split; [reflexivity|]. unfold stages.
    cbn [SegNet.encoder0 SegNet.encoder1 SegNet.encoder2 SegNet.encoder3 SegNet.encoder4
         SegNet.decoder4 SegNet.decoder3 SegNet.decoder2 SegNet.decoder1 SegNet.decoder0
         SegNet.conv].
    repeat (split; [first [now apply bayes_enc_stage | now apply bayes_dec_stage
                          | assumption]|]). exact C.
Qed.

(** X4.  For each of the three classes, in training and in evaluation
    mode, the forward pass of the network built for positive
    [in_channels] and [out_channels] returns on every input of [in_channels]
    channels with at least 32 rows and 32 columns, multiples of 32 or not,
    a tensor of shape [B, out_channels, H, W]. *)
Theorem every_class_forward_shape (c : Class) (in_channels out_channels : Z)
  (mode : bool) (x : Tensor scalar) (w0 : World) :
  0 < in_channels -> 0 < out_channels -> Z.of_nat (tC x) = in_channels ->
  (32 <= tH x)%nat -> (32 <= tW x)%nat ->
  exists net w1,
    construct c in_channels out_channels w0 = Ok (net, w1)
    /\ forall w, exists y net' w',
         SegNet.forward (SegNet.train mode net) x w = Ok ((y, net'), w')
         /\ size y = [Z.of_nat (tB x); out_channels; Z.of_nat (tH x); Z.of_nat (tW x)].
Proof.
  intros Hi Ho Hc Hh Hw.
  destruct (construct_stages c in_channels out_channels ltac:(lia) ltac:(lia) w0)
    as (net & w1 & Hrun & Hst).
  exists net, w1. split; [exact Hrun|]. intros w.
  destruct (forward_returns (SegNet.train mode net) in_channels out_channels x) with (w := w)
    as ([y net'] & w' & E & Hsz); try assumption; try lia.
  { apply stages_wf; [lia|]. now apply stages_train. }
  exists y, net', w'. split; [exact E | exact Hsz].
Qed.

End Stages.

Section Minimum_size.
Context {R : Runtime}.

Lemma EncBlock_forward_halves (blk : _EncBlock.t) (units : list (Z * Z))
  (x : Tensor scalar) w y indices blk' w' :
  map unit_shape (_EncBlock.layers blk) = map Some units -> units <> [] ->
  _EncBlock.max_pool blk = nn.MaxPool2d.mk 2 2 ->
  _EncBlock.forward blk x w = Ok ((y, indices, blk'), w') ->
  Z.of_nat (tC x) = fst (hd (0, 0) units)
  /\ (2 <= tH x)%nat /\ (2 <= tW x)%nat
  /\ tH y = (tH x / 2)%nat /\ tW y = (tW x / 2)%nat.
Proof.
  intros Hu Hne Hp Hrun. unfold _EncBlock.forward in Hrun. rewrite Hp in Hrun.
  apply bind_inv in Hrun as ([u ls] & w1 & E1 & Hrun). cbv beta iota in Hrun.
  apply bind_inv in Hrun as ([y0 idx0] & w2 & E2 & Hrun).
  cbn in Hrun. injection Hrun as <- _ _ _.
  apply (layers_forward_inv units) in E1 as (Hc & _ & _ & _ & _ & HH & HW & _);
    [|assumption..].
  pose proof (max_pool_inv u w1 _ w2 E2) as (HC & Hh & Hw).
  destruct (max_pool_spec u HC Hh Hw w1) as (r & w3 & E3 & (_ & _ & YH & YW) & _).
  rewrite E2 in E3. injection E3 as <- _. cbn [fst] in *.
  rewrite <- HH, <- HW. repeat split; assumption.
Qed.

Lemma call_encoder_halves (e : Encoder) (units : list (Z * Z))
  (x : Tensor scalar) w y indices e' w' :
  enc_stage units e -> units <> [] ->
  call_encoder e x w = Ok ((y, indices, e'), w') ->
  Z.of_nat (tC x) = fst (hd (0, 0) units)
  /\ (2 <= tH x)%nat /\ (2 <= tW x)%nat
  /\ tH y = (tH x / 2)%nat /\ tW y = (tW x / 2)%nat.
Proof.
  intros (Hu & Hp & Hd) Hne Hrun.
  destruct e as [b|b]; cbn [call_encoder enc_super enc_dropout dropout_ok] in *;
    unfold enc_units in Hu; cbn [enc_super] in Hu.
  - apply bind_inv in Hrun as ([[y0 i0] b0] & w1 & E & Hrun).
    cbn in Hrun. injection Hrun as <- _ _ _.
    exact (EncBlock_forward_halves b units x w y0 i0 b0 w1 Hu Hne Hp E).
  - apply bind_inv in Hrun as ([[y0 i0] b0] & w1 & E & Hrun).
    cbn in Hrun. injection Hrun as <- _ _ _.
    unfold _BayesEncBlock.forward in E.
    apply bind_inv in E as ([[y1 i1] b1] & w2 & E1 & E). cbv beta iota in E.
    apply bind_inv in E as ([z z'] & w3 & E2 & E).
    cbn in E. injection E as <- _ _ _.
    destruct (EncBlock_forward_halves _ units x w y1 i1 b1 w2 Hu Hne Hp E1)
      as (Hc & Hh & Hw & YH & YW).
    destruct (dropout_forward_returns (_BayesEncBlock.dropout b) y1 Hd w2)
      as (r & w4 & E3 & (_ & _ & ZH & ZW) & _).
    rewrite E2 in E3. injection E3 as <- _. cbn [fst] in *.
    repeat split; try assumption; congruence.
Qed.

Lemma hooked_encoder_halves (k : nat) (e : Encoder) (units : list (Z * Z))
  (x : Tensor scalar) w y indices e' w' :
  enc_stage units e -> units <> [] ->
  hooked_encoder k e x w = Ok ((y, indices, e'), w') ->
  Z.of_nat (tC x) = fst (hd (0, 0) units)
  /\ (2 <= tH x)%nat /\ (2 <= tW x)%nat
  /\ tH y = (tH x / 2)%nat /\ tW y = (tW x / 2)%nat.
Proof.
  intros Hst Hne Hrun. unfold hooked_encoder in Hrun.
  apply bind_inv in Hrun as ([[y0 i0] e0] & w1 & E & Hrun).
  cbn in Hrun. injection Hrun as <- _ _ _.
  exact (call_encoder_halves e units x w y0 i0 e0 w1 Hst Hne E).
Qed.

Lemma twice_le_of_half (n k : nat) : (k <= n / 2)%nat -> (2 * k <= n)%nat.
Proof. intros Hk. pose proof (twice_half_le n). lia. Qed.

Lemma forward_needs_32 (net : SegNet.t) (i o : Z) (x : Tensor scalar) w r w' :
  stages i o net ->
  SegNet.forward net x w = Ok (r, w') ->
  Z.of_nat (tC x) = i /\ (32 <= tH x)%nat /\ (32 <= tW x)%nat.
Proof.
  intros (E0 & E1 & E2 & E3 & E4 & _) Hrun.
  unfold SegNet.forward in Hrun. cbv zeta in Hrun.
  apply bind_inv in Hrun as ([[x1 i0] e0] & w1 & R0 & Hrun).
  apply bind_inv in Hrun as ([[x2 i1] e1] & w2 & R1 & Hrun).
  apply bind_inv in Hrun as ([[x3 i2] e2] & w3 & R2 & Hrun).
  apply bind_inv in Hrun as ([[x4 i3] e3] & w4 & R3 & Hrun).
  apply bind_inv in Hrun as ([[x5 i4] e4] & w5 & R4 & _).
  pose proof (hooked_encoder_halves 0 _ _ x _ _ _ _ _ E0 ltac:(discriminate) R0)
    as (Hc & Hh0 & Hw0 & TH1 & TW1).
  pose proof (hooked_encoder_halves 1 _ _ x1 _ _ _ _ _ E1 ltac:(discriminate) R1)
    as (_ & Hh1 & Hw1 & TH2 & TW2).
  pose proof (hooked_encoder_halves 2 _ _ x2 _ _ _ _ _ E2 ltac:(discriminate) R2)
    as (_ & Hh2 & Hw2 & TH3 & TW3).
  pose proof (hooked_encoder_halves 3 _ _ x3 _ _ _ _ _ E3 ltac:(discriminate) R3)
    as (_ & Hh3 & Hw3 & TH4 & TW4).
  pose proof (hooked_encoder_halves 4 _ _ x4 _ _ _ _ _ E4 ltac:(discriminate) R4)
    as (_ & Hh4 & Hw4 & _ & _).
  cbn [hd fst] in Hc. split; [exact Hc|].
  rewrite TH4 in Hh4. rewrite TW4 in Hw4.
  apply twice_le_of_half in Hh4, Hw4. rewrite TH3 in Hh4. rewrite TW3 in Hw4.
  apply twice_le_of_half in Hh4, Hw4. rewrite TH2 in Hh4. rewrite TW2 in Hw4.
  apply twice_le_of_half in Hh4, Hw4. rewrite TH1 in Hh4. rewrite TW1 in Hw4.
  apply twice_le_of_half in Hh4, Hw4. lia.
Qed.

(** X5.  For each of the three classes and in either mode, the forward
    pass of the network built for positive widths returns only on inputs of
    [in_channels] channels with at least 32 rows and 32 columns: on any
    other input it raises. *)
Theorem forward_returns_only_from_32 (c : Class) (in_channels out_channels : Z)
  (mode : bool) (w0 : World) :
  0 < in_channels -> 0 < out_channels ->
  exists net w1,
    construct c in_channels out_channels w0 = Ok (net, w1)
    /\ forall (x : Tensor scalar) (w : World) r w',
         SegNet.forward (SegNet.train mode net) x w = Ok (r, w') ->
         Z.of_nat (tC x) = in_channels /\ (32 <= tH x)%nat /\ (32 <= tW x)%nat.
Proof.
  intros Hi Ho.
  destruct (construct_stages c in_channels out_channels ltac:(lia) ltac:(lia) w0)
    as (net & w1 & Hrun & Hst).
  exists net, w1. split; [exact Hrun|]. intros x w r w' Hret.
  exact (forward_needs_32 _ in_channels out_channels x w r w'
           (stages_train mode _ _ net Hst) Hret).
Qed.

End Minimum_size.

Section Statistics_only.
Context {R : Runtime}.

Lemma leaf_forward_like (m : nn.Leaf) (x : Tensor scalar) w y m' w' :
  nn.call_leaf m x w = Ok ((y, m'), w') -> leaf_like m m'.
Proof.
  destruct m as [c|b|r]; cbn [nn.call_leaf]; intros Hrun.
  - apply bind_inv in Hrun as (y0 & w1 & _ & Hrun). cbn in Hrun.
    injection Hrun as _ <- _. reflexivity.
  - apply bind_inv in Hrun as ([y0 b'] & w1 & E & Hrun). cbn in Hrun.
    injection Hrun as _ <- _. cbn [leaf_like].
    unfold nn.BatchNorm2d.forward in E.
    destruct (nn.BatchNorm2d.training b) eqn:Hb.
    + destruct (_ =? 1)%nat; [discriminate|].
      destruct (negb _); [discriminate|]. cbn in E. injection E as _ <- _.
      cbn. auto.
    + destruct (negb _); [discriminate|]. cbn in E. injection E as _ <- _. auto.
  - apply bind_inv in Hrun as ([y0 z] & w1 & _ & Hrun). cbn in Hrun.
    injection Hrun as _ <- _. reflexivity.
Qed.

Lemma sequential_like {T} (call : T -> Tensor scalar -> M (Tensor scalar * T))
  (like : T -> T -> Prop) :
  (forall m x w y m' w', call m x w = Ok ((y, m'), w') -> like m m') ->
  forall ms x w y ms' w',
    nn.Sequential.forward call ms x w = Ok ((y, ms'), w') -> Forall2 like ms ms'.
Proof.
  intros Hcall. induction ms as [|m ms IH]; intros x w y ms' w' Hrun;
    cbn [nn.Sequential.forward] in Hrun.
  - cbn in Hrun. injection Hrun as _ <- _. constructor.
  - apply bind_inv in Hrun as ([x1 m1] & w1 & E1 & Hrun). cbv beta iota in Hrun.
    apply bind_inv in Hrun as ([y2 ms2] & w2 & E2 & Hrun). cbn in Hrun.
    injection Hrun as _ <- _. constructor; [exact (Hcall _ _ _ _ _ _ E1)|].
    exact (IH _ _ _ _ _ E2).
Qed.

Lemma layers_forward_like (layers : list Unit) (x : Tensor scalar) w y layers' w' :
  call_layers layers x w = Ok ((y, layers'), w') -> layers_like layers layers'.
Proof.
  apply (sequential_like call_unit (Forall2 leaf_like)).
  intros u z v z' u' v'. apply (sequential_like nn.call_leaf leaf_like).
  intros m. apply leaf_forward_like.
Qed.

Lemma unit_like_shape (u u' : Unit) : Forall2 leaf_like u u' -> unit_shape u' = unit_shape u.
Proof.
  intros H.
  destruct H as [|m1 m1' u1 u1' L1 H]; [reflexivity|].
  destruct m1 as [c| |], m1' as [c'| |]; cbn in L1; try contradiction;
    try reflexivity. subst c'.
  destruct H as [|m2 m2' u2 u2' L2 H]; [reflexivity|].
  destruct m2 as [|b|], m2' as [|b'|]; cbn in L2; try contradiction;
    try reflexivity. destruct L2 as (Hn & _).
  destruct H as [|m3 m3' u3 u3' L3 H]; [reflexivity|].
  destruct m3 as [| |r], m3' as [| |r']; cbn in L3; try contradiction;
    try reflexivity. subst r'.
  destruct H as [|m4 m4' u4 u4' L4 H]; [|reflexivity].
  cbn. now rewrite Hn.
Qed.

Lemma layers_like_shapes (layers layers' : list Unit) :
  layers_like layers layers' -> map unit_shape layers' = map unit_shape layers.
Proof.
  induction 1 as [|u u' ls ls' Hu _ IH]; [reflexivity|].
  cbn [map]. now rewrite (unit_like_shape _ _ Hu), IH.
Qed.

Lemma enc_like_stage (units : list (Z * Z)) (e e' : Encoder) :
  enc_like e e' -> enc_stage units e -> enc_stage units e'.
Proof.
  intros (_ & Hd & Hp & Hl) (Su & Sp & Sd). unfold enc_stage, enc_units in *.
  rewrite (layers_like_shapes _ _ Hl), Hd, Hp. auto.
Qed.

Lemma dec_like_stage (units : list (Z * Z)) (d d' : Decoder) :
  dec_like d d' -> dec_stage units d -> dec_stage units d'.
Proof.
  intros (_ & Hd & Hp & Hl) (Su & Sp & Sd). unfold dec_stage, dec_units in *.
  rewrite (layers_like_shapes _ _ Hl), Hd, Hp. auto.
Qed.

Lemma net_like_stages (i o : Z) (net net' : SegNet.t) :
  net_like net net' -> stages i o net -> stages i o net'.
Proof.
  intros (E0 & E1 & E2 & E3 & E4 & D4 & D3 & D2 & D1 & D0 & C & _)
         (S0 & S1 & S2 & S3 & S4 & T4 & T3 & T2 & T1 & T0 & SC).
  unfold stages. rewrite C.
  repeat (split; [first [eapply enc_like_stage; eassumption
                        | eapply dec_like_stage; eassumption]|]).
  exact SC.
Qed.

Lemma EncBlock_forward_like (b : _EncBlock.t) (x : Tensor scalar) w y indices b' w' :
  _EncBlock.forward b x w = Ok ((y, indices, b'), w') ->
  _EncBlock.max_pool b' = _EncBlock.max_pool b
  /\ layers_like (_EncBlock.layers b) (_EncBlock.layers b').
Proof.
  unfold _EncBlock.forward. intros Hrun.
  apply bind_inv in Hrun as ([u ls] & w1 & E1 & Hrun). cbv beta iota in Hrun.
  apply bind_inv in Hrun as ([z idx] & w2 & _ & Hrun). cbn in Hrun.
  injection Hrun as _ _ <- _. cbn. split; [reflexivity|].
  exact (layers_forward_like _ _ _ _ _ _ E1).
Qed.

Lemma DecBlock_forward_like (b : _DecBlock.t) (x : Tensor scalar) (indices : Tensor Z)
  (output_size : option (list Z)) w y b' w' :
  _DecBlock.forward b x indices output_size w = Ok ((y, b'), w') ->
  _DecBlock.max_unpool b' = _DecBlock.max_unpool b
  /\ layers_like (_DecBlock.layers b) (_DecBlock.layers b').
Proof.
  unfold _DecBlock.forward. intros Hrun.
  apply bind_inv in Hrun as (u & w1 & _ & Hrun).
  apply bind_inv in Hrun as ([z ls] & w2 & E2 & Hrun). cbn in Hrun.
  injection Hrun as _ <- _. cbn. split; [reflexivity|].
  exact (layers_forward_like _ _ _ _ _ _ E2).
Qed.

Lemma hooked_encoder_like (k : nat) (e : Encoder) (x : Tensor scalar) w y indices e' w' :
  hooked_encoder k e x w = Ok ((y, indices, e'), w') -> enc_like e e'.
Proof.
  unfold hooked_encoder. intros Hrun.
  apply bind_inv in Hrun as ([[y0 i0] e0] & w1 & E & Hrun). cbn in Hrun.
  injection Hrun as _ _ <- _.
  destruct e as [b|b]; cbn [call_encoder] in E.
  - apply bind_inv in E as ([[y1 i1] b1] & w2 & E1 & E). cbn in E.
    injection E as _ _ <- _.
    apply EncBlock_forward_like in E1 as (Hp & Hl). unfold enc_like. cbn. auto.
  - apply bind_inv in E as ([[y1 i1] b1] & w2 & E1 & E). cbn in E.
    injection E as _ _ <- _. unfold _BayesEncBlock.forward in E1.
    apply bind_inv in E1 as ([[y2 i2] s2] & w3 & E2 & E1). cbv beta iota in E1.
    apply bind_inv in E1 as ([z z'] & w4 & _ & E1). cbn in E1.
    injection E1 as _ _ <- _.
    apply EncBlock_forward_like in E2 as (Hp & Hl). unfold enc_like. cbn. auto.
Qed.

Lemma hooked_decoder_like (k : nat) (d : Decoder) (x : Tensor scalar) (indices : Tensor Z)
  (output_size : option (list Z)) w y d' w' :
  hooked_decoder k d x indices output_size w = Ok ((y, d'), w') -> dec_like d d'.
Proof.
  unfold hooked_decoder. intros Hrun.
  apply bind_inv in Hrun as ([y0 d0] & w1 & E & Hrun). cbn in Hrun.
  injection Hrun as _ <- _.
  destruct d as [b|b]; cbn [call_decoder] in E.
  - apply bind_inv in E as ([y1 b1] & w2 & E1 & E). cbn in E.
    injection E as _ <- _.
    apply DecBlock_forward_like in E1 as (Hp & Hl). unfold dec_like. cbn. auto.
  - apply bind_inv in E as ([y1 b1] & w2 & E1 & E). cbn in E.
    injection E as _ <- _. unfold _BayesDecBlock.forward in E1.
    apply bind_inv in E1 as ([y2 s2] & w3 & E2 & E1). cbv beta iota in E1.
    apply bind_inv in E1 as ([z z'] & w4 & _ & E1). cbn in E1.
    injection E1 as _ <- _.
    apply DecBlock_forward_like in E2 as (Hp & Hl). unfold dec_like. cbn. auto.
Qed.

(** a forward pass leaves every module of the network as it is, but for
    the statistics of the normalisations *)
Lemma forward_like (net : SegNet.t) (x : Tensor scalar) w y net' w' :
  SegNet.forward net x w = Ok ((y, net'), w') -> net_like net net'.
Proof.
  unfold SegNet.forward. cbv zeta. intros Hrun.
  apply bind_inv in Hrun as ([[x1 i0] e0] & w1 & R0 & Hrun). cbv beta iota in Hrun.
  apply bind_inv in Hrun as ([[x2 i1] e1] & w2 & R1 & Hrun). cbv beta iota in Hrun.
  apply bind_inv in Hrun as ([[x3 i2] e2] & w3 & R2 & Hrun). cbv beta iota in Hrun.
  apply bind_inv in Hrun as ([[x4 i3] e3] & w4 & R3 & Hrun). cbv beta iota in Hrun.
  apply bind_inv in Hrun as ([[x5 i4] e4] & w5 & R4 & Hrun). cbv beta iota in Hrun.
  apply bind_inv in Hrun as ([z4 d4] & v4 & Q4 & Hrun). cbv beta iota in Hrun.
  apply bind_inv in Hrun as ([z3 d3] & v3 & Q3 & Hrun). cbv beta iota in Hrun.
  apply bind_inv in Hrun as ([z2 d2] & v2 & Q2 & Hrun). cbv beta iota in Hrun.
  apply bind_inv in Hrun as ([z1 d1] & v1 & Q1 & Hrun). cbv beta iota in Hrun.
  apply bind_inv in Hrun as ([z0 d0] & v0 & Q0 & Hrun). cbv beta iota in Hrun.
  apply bind_inv in Hrun as (c1 & v5 & _ & Hrun).
  apply bind_inv in Hrun as (c2 & v6 & _ & Hrun). cbn in Hrun.
  injection Hrun as _ <- _. unfold net_like.
  cbn [SegNet.encoder0 SegNet.encoder1 SegNet.encoder2 SegNet.encoder3 SegNet.encoder4
       SegNet.decoder4 SegNet.decoder3 SegNet.decoder2 SegNet.decoder1 SegNet.decoder0
       SegNet.conv SegNet.softmax].
  apply hooked_encoder_like in R0, R1, R2, R3, R4.
  apply hooked_decoder_like in Q4, Q3, Q2, Q1, Q0.
  repeat (split; [assumption|]). split; reflexivity.
Qed.

Lemma Forall2_compose {A} (P : A -> A -> Prop) :
  (forall a b c, P a b -> P b c -> P a c) ->
  forall l1 l2 l3, Forall2 P l1 l2 -> Forall2 P l2 l3 -> Forall2 P l1 l3.
Proof.
  intros HP l1 l2 l3 H12. revert l3.
  induction H12 as [|a b l1 l2 Hab _ IH]; intros l3 H23; inversion H23; subst;
    constructor; eauto.
Qed.

Lemma leaf_like_trans (a b c : nn.Leaf) : leaf_like a b -> leaf_like b c -> leaf_like a c.
Proof.
  destruct a, b, c; cbn; try contradiction; try congruence.
  intros (H1 & H2) (H3 & H4). split; congruence.
Qed.

Lemma layers_like_trans (a b c : list Unit) :
  layers_like a b -> layers_like b c -> layers_like a c.
Proof.
  apply Forall2_compose. apply Forall2_compose. exact leaf_like_trans.
Qed.

Lemma enc_like_trans (a b c : Encoder) : enc_like a b -> enc_like b c -> enc_like a c.
Proof.
  intros (A1 & A2 & A3 & A4) (B1 & B2 & B3 & B4).
  repeat split; try congruence. exact (layers_like_trans _ _ _ A4 B4).
Qed.

Lemma dec_like_trans (a b c : Decoder) : dec_like a b -> dec_like b c -> dec_like a c.
Proof.
  intros (A1 & A2 & A3 & A4) (B1 & B2 & B3 & B4).
  repeat split; try congruence. exact (layers_like_trans _ _ _ A4 B4).
Qed.

Lemma net_like_trans (a b c : SegNet.t) : net_like a b -> net_like b c -> net_like a c.
Proof.
  intros (E0 & E1 & E2 & E3 & E4 & D4 & D3 & D2 & D1 & D0 & C & S)
         (F0 & F1 & F2 & F3 & F4 & G4 & G3 & G2 & G1 & G0 & C' & S').
  unfold net_like.
  repeat (split; [first [eapply enc_like_trans; eassumption
                        | eapply dec_like_trans; eassumption]|]).
  split; congruence.
Qed.

(** X6.  A forward pass changes nothing of the network but the
    statistics of its normalisations: the classes of the blocks, the
    convolutions with their weights, the dropouts, the poolings and every
    mode flag are left as they are.  So, for each class and in either mode,
    a second forward pass on an input of [in_channels] channels with at
    least 32 rows and columns returns as the first does, with an output of
    the same shape [B, out_channels, H, W]. *)
Theorem forward_changes_statistics_only (c : Class) (in_channels out_channels : Z)
  (mode : bool) (x : Tensor scalar) (w0 : World) :
  0 < in_channels -> 0 < out_channels -> Z.of_nat (tC x) = in_channels ->
  (32 <= tH x)%nat -> (32 <= tW x)%nat ->
  exists net w1,
    construct c in_channels out_channels w0 = Ok (net, w1)
    /\ forall w, exists y1 y2 net2 w',
         forward_twice (SegNet.train mode net) x w = Ok ((y1, y2, net2), w')
         /\ size y1 = [Z.of_nat (tB x); out_channels; Z.of_nat (tH x); Z.of_nat (tW x)]
         /\ size y2 = [Z.of_nat (tB x); out_channels; Z.of_nat (tH x); Z.of_nat (tW x)]
         /\ net_like (SegNet.train mode net) net2.
Proof.
  intros Hi Ho Hc Hh Hw.
  destruct (construct_stages c in_channels out_channels ltac:(lia) ltac:(lia) w0)
    as (net & w1 & Hrun & Hst).
  exists net, w1. split; [exact Hrun|]. intros w.
  apply (stages_train mode) in Hst.
  destruct (forward_returns (SegNet.train mode net) in_channels out_channels x) with (w := w)
    as ([y1 net1] & v1 & E1 & Hsz1); try assumption; try lia.
  { apply stages_wf; [lia | assumption]. }
  pose proof (forward_like _ _ _ _ _ _ E1) as L1.
  destruct (forward_returns net1 in_channels out_channels x) with (w := v1)
    as ([y2 net2] & v2 & E2 & Hsz2); try assumption; try lia.
  { apply stages_wf; [lia|]. exact (net_like_stages _ _ _ _ L1 Hst). }
  pose proof (forward_like _ _ _ _ _ _ E2) as L2.
  exists y1, y2, net2, v2. unfold forward_twice.
  rewrite (@bind_ok _ _ _ _ _ w _ _ E1). cbv beta iota.
  rewrite (@bind_ok _ _ _ _ _ v1 _ _ E2). cbv beta iota.
  split; [reflexivity|]. split; [exact Hsz1|]. split; [exact Hsz2|].
  exact (net_like_trans _ _ _ L1 L2).
Qed.

End Statistics_only.

Section No_draw.
Context {R : Runtime}.

Lemma det_bn (b : nn.BatchNorm2d.t) (x : Tensor scalar) :
  deterministic (nn.BatchNorm2d.forward b x) (fun _ => True).
Proof. unfold nn.BatchNorm2d.forward. det_any. Qed.

Lemma det_leaf (m : nn.Leaf) (x : Tensor scalar) :
  deterministic (nn.call_leaf m x) (fun _ => True).
Proof.
  destruct m as [c|b|r]; cbn [nn.call_leaf].
  - eapply det_bind; [apply det_conv|]. intros y _. now apply det_ret.
  - eapply det_bind; [apply det_bn|]. intros [y b'] _. now apply det_ret.
  - unfold nn.ReLU.forward. det_any.
Qed.

Lemma det_sequential_any {T} (call : T -> Tensor scalar -> M (Tensor scalar * T)) :
  (forall m x, deterministic (call m x) (fun _ => True)) ->
  forall ms x, deterministic (nn.Sequential.forward call ms x) (fun _ => True).
Proof.
  intros Hcall. induction ms as [|m ms IH]; intros x; cbn [nn.Sequential.forward].
  - now apply det_ret.
  - eapply det_bind; [apply (Hcall m x)|]. intros [x' m'] _.
    eapply det_bind; [apply (IH x')|]. intros [y ms'] _. now apply det_ret.
Qed.

Lemma det_layers (layers : list Unit) (x : Tensor scalar) :
  deterministic (call_layers layers x) (fun _ => True).
Proof.
  apply (det_sequential_any call_unit). intros u y.
  apply (det_sequential_any nn.call_leaf). exact det_leaf.
Qed.

Lemma det_plain_encoder (k : nat) (e : Encoder) (x : Tensor scalar) :
  is_bayes_enc e = false ->
  deterministic (hooked_encoder k e x) (fun r => is_bayes_enc (snd r) = false).
Proof.
  destruct e as [b|b]; [intros _|discriminate].
  unfold hooked_encoder. cbn [call_encoder]. unfold _EncBlock.forward.
  eapply det_bind with (P := fun r => is_bayes_enc (snd r) = false).
  - eapply det_bind with (P := fun _ => True);
      [|intros [[y idx] b'] _; now apply det_ret].
    eapply det_bind; [apply det_layers|]. intros [y ls] _.
    eapply det_bind; [apply det_max_pool|]. intros [z idx] _.
    apply det_ret. exact I.
  - intros [[y idx] e'] He. eapply det_bind; [apply det_log|].
    intros _ _. now apply det_ret.
Qed.

Lemma det_plain_decoder (k : nat) (d : Decoder) (x : Tensor scalar) (indices : Tensor Z)
  (output_size : option (list Z)) :
  is_bayes_dec d = false ->
  deterministic (hooked_decoder k d x indices output_size)
                (fun r => is_bayes_dec (snd r) = false).
Proof.
  destruct d as [b|b]; [intros _|discriminate].
  unfold hooked_decoder. cbn [call_decoder]. unfold _DecBlock.forward.
  eapply det_bind with (P := fun r => is_bayes_dec (snd r) = false).
  - eapply det_bind with (P := fun _ => True);
      [|intros [y b'] _; now apply det_ret].
    eapply det_bind; [apply det_max_unpool|]. intros y _.
    eapply det_bind; [apply det_layers|]. intros [z ls] _.
    apply det_ret. exact I.
  - intros [y d'] Hd. eapply det_bind; [apply det_log|].
    intros _ _. now apply det_ret.
Qed.

Lemma det_plain_forward (net : SegNet.t) (x : Tensor scalar) :
  plain_net net = true ->
  deterministic (SegNet.forward net x) (fun r => plain_net (snd r) = true).
Proof.
  unfold plain_net. rewrite negb_true_iff, !orb_false_iff.
  intros (((((((((E0 & E1) & E2) & E3) & E4) & D4) & D3) & D2) & D1) & D0).
  unfold SegNet.forward. cbv zeta.
  eapply det_bind; [apply (det_plain_encoder 0 _ x E0)|].
  intros [[x1 i0] e0] Q0. cbn in Q0.
  eapply det_bind; [apply (det_plain_encoder 1 _ x1 E1)|].
  intros [[x2 i1] e1] Q1. cbn in Q1.
  eapply det_bind; [apply (det_plain_encoder 2 _ x2 E2)|].
  intros [[x3 i2] e2] Q2. cbn in Q2.
  eapply det_bind; [apply (det_plain_encoder 3 _ x3 E3)|].
  intros [[x4 i3] e3] Q3. cbn in Q3.
  eapply det_bind; [apply (det_plain_encoder 4 _ x4 E4)|].
  intros [[x5 i4] e4] Q4. cbn in Q4.
  eapply det_bind; [apply (det_plain_decoder 4 _ x5 i4 _ D4)|].
  intros [z4 d4] P4. cbn in P4.
  eapply det_bind; [apply (det_plain_decoder 3 _ z4 i3 _ D3)|].
  intros [z3 d3] P3. cbn in P3.
  eapply det_bind; [apply (det_plain_decoder 2 _ z3 i2 _ D2)|].
  intros [z2 d2] P2. cbn in P2.
  eapply det_bind; [apply (det_plain_decoder 1 _ z2 i1 _ D1)|].
  intros [z1 d1] P1. cbn in P1.
  eapply det_bind; [apply (det_plain_decoder 0 _ z1 i0 _ D0)|].
  intros [z0 d0] P0. cbn in P0.
  eapply det_bind; [apply det_conv|]. intros c1 _.
  eapply det_bind; [apply det_softmax|]. intros c2 _.
  apply det_ret. cbn. now rewrite Q0, Q1, Q2, Q3, Q4, P4, P3, P2, P1, P0.
Qed.

(** X7.  The network built by [SegNet(in_channels, out_channels)], for
    positive widths, never draws from the random generator, in training mode either: on every
    input, from any two worlds, its forward pass has the same outcome (the
    same exception, or the same output and the same network left), it
    leaves the generator as it finds it, and two passes in a row have the
    same outcome from any two worlds. *)
Theorem plain_SegNet_never_draws (in_channels out_channels : Z) (mode : bool)
  (w0 : World) :
  0 < in_channels -> 0 < out_channels ->
  exists net w1,
    SegNet.__init__ in_channels out_channels w0 = Ok (net, w1)
    /\ (forall (x : Tensor scalar) (wa wb : World),
          outcome (SegNet.forward (SegNet.train mode net) x wa)
          = outcome (SegNet.forward (SegNet.train mode net) x wb))
    /\ (forall (x : Tensor scalar) (w : World) r w',
          SegNet.forward (SegNet.train mode net) x w = Ok (r, w') -> rng w' = rng w)
    /\ (forall (x : Tensor scalar) (wa wb : World),
          outcome (forward_twice (SegNet.train mode net) x wa)
          = outcome (forward_twice (SegNet.train mode net) x wb)).
Proof.
  intros Hi Ho.
  destruct (SegNet_init_returns in_channels out_channels ltac:(lia) ltac:(lia) w0)
    as (net & w1 & Hrun & Htop).
  exists net, w1. split; [exact Hrun|].
  assert (Hp : plain_net (SegNet.train mode net) = true).
  { destruct Htop as ((E0 & _) & (E1 & _) & (E2 & _) & (E3 & _) & (E4 & _)
                      & (D4 & _) & (D3 & _) & (D2 & _) & (D1 & _) & (D0 & _) & _).
    destruct net as [e0 e1 e2 e3 e4 d4 d3 d2 d1 d0 cv sm]. cbn in *.
    destruct e0, e1, e2, e3, e4, d4, d3, d2, d1, d0; try discriminate. reflexivity. }
  split; [|split].
  - intros x wa wb. exact (det_outcome _ _ wa wb (det_plain_forward _ x Hp)).
  - intros x w r w' E.
    exact (proj1 (det_keeps_rng _ _ w r w' (det_plain_forward _ x Hp) E)).
  - intros x wa wb. eapply det_outcome with (P := fun _ => True).
    unfold forward_twice.
    eapply det_bind; [apply (det_plain_forward _ x Hp)|]. intros [y1 net1] H1.
    eapply det_bind; [apply (det_plain_forward _ x H1)|]. intros [y2 net2] _.
    now apply det_ret.
Qed.

End No_draw.

(** ** Runs on concrete inputs, and instances of the theorems *)

(** the comparison of the integers has the laws of [gt_laws] *)
Lemma toy_gt_laws : @gt_laws toy_runtime.
Proof.
  unfold gt_laws. cbn. split; [|split].
  - intros a. rewrite Z.gtb_ltb. apply Z.ltb_irrefl.
  - intros a b c H1 H2. rewrite Z.gtb_ltb in *.
    apply Z.ltb_lt in H1, H2. apply Z.ltb_lt. lia.
  - discriminate.
Qed.

(** a negative width makes the construction raise, as the allocation of the
    weight of the first convolution does *)
Example encoder_construction_raises_on_negative_width :
  outcome (@_EncBlock.__init__ toy_runtime (-3) 64 0 toy_world)
  = Raise (RuntimeError NegativeDimension).
Proof. vm_compute. reflexivity. Qed.

Example SegNet_construction_raises_on_negative_width :
  outcome (@SegNet.__init__ toy_runtime 3 (-7) toy_world)
  = Raise (RuntimeError NegativeDimension).
Proof. vm_compute. reflexivity. Qed.

(** a decoder block built with no output channel raises when called, and so
    does an encoder block built for no input channel on an input of no
    channel *)
Example decoder_raises_on_no_output_channel :
  outcome ((dec <- @_DecBlock.__init__ toy_runtime 4 0 1 ;;
            _DecBlock.forward dec (toy_input 1 4 2 3)
              (mkTensor 1 4 2 3 (fun _ _ i j => Z.of_nat (2 * i * 6 + 2 * j))) None)
           toy_world)
  = Raise (RuntimeError WeightTooSmall).
Proof. vm_compute. reflexivity. Qed.

Example encoder_raises_on_no_input_channel :
  outcome ((enc <- @_EncBlock.__init__ toy_runtime 0 2 1 ;;
            _EncBlock.forward enc (toy_input 1 0 4 6)) toy_world)
  = Raise (RuntimeError ShapeInvalidForInput).
Proof. vm_compute. reflexivity. Qed.

Example pool_then_unpool_4x5 :
  toy_pool_unpool
  = Ok (([1; 2; 2; 2], [[1; 3]; [3; 9]]),
        ([1; 2; 2; 2], [[6; 8]; [16; 18]]),
        ([1; 2; 4; 5],
         [[0; 0; 0; 0; 0]; [0; 1; 0; 3; 0]; [0; 0; 0; 0; 0]; [0; 3; 0; 9; 0]])).
Proof. vm_compute. reflexivity. Qed.

Example encoder_halves_odd_sizes : toy_encoder_size 2 3 7 5 = Ok [2; 2; 3; 2].
Proof. vm_compute. reflexivity. Qed.

Example encoder_raises_on_one_row :
  toy_encoder_size 1 3 1 5 = Raise (RuntimeError PoolOutputTooSmall).
Proof. vm_compute. reflexivity. Qed.

Example encoder_raises_on_channel_mismatch :
  toy_encoder_size 1 4 4 4 = Raise (RuntimeError ChannelMismatch).
Proof. vm_compute. reflexivity. Qed.

Lemma SegNet_forward_shape_witness :
  0 < 3 /\ 0 < 10 /\ (0 < 64)%nat /\ (0 < 32)%nat
  /\ Nat.divide 32 64 /\ Nat.divide 32 32
  /\ exists net w1,
       @SegNet.__init__ toy_runtime 3 10 toy_world = Ok (net, w1)
       /\ forall w, exists y net' w',
            SegNet.forward (SegNet.train true net) (toy_input 2 3 64 32) w
              = Ok ((y, net'), w')
            /\ size y = [2; 10; 64; 32].
Proof.
  assert (D1 : Nat.divide 32 64) by (exists 2%nat; reflexivity).
  assert (D2 : Nat.divide 32 32) by (exists 1%nat; reflexivity).
  repeat (split; [lia || assumption|]).
  exact (@SegNet_forward_shape toy_runtime 3 10 true (toy_input 2 3 64 32) toy_world
           ltac:(lia) ltac:(lia) eq_refl ltac:(cbn; lia) ltac:(cbn; lia) D1 D2).
Defined.

(** C1 as stated fails on planes of no row and no column, whose height and
    width 0 are multiples of 32: in every runtime, the first convolution of
    [SegNet(3, 10)] raises on a padded plane smaller than its kernel. *)
Lemma SegNet_forward_raises_on_empty_planes :
  0 < 3 /\ 0 < 10 /\ Nat.divide 32 0
  /\ forall (R : Runtime) (entries : nat -> nat -> nat -> nat -> scalar) (B : nat)
            (w0 w : World),
       exists net w1,
         SegNet.__init__ 3 10 w0 = Ok (net, w1)
         /\ SegNet.forward net (mkTensor B 3 0 0 entries) w
            = Raise (RuntimeError KernelLargerThanInput).
Proof.
  split; [lia|]. split; [lia|]. split; [exists 0%nat; reflexivity|].
  intros R entries B w0 w.
  destruct (SegNet_init_returns 3 10 ltac:(lia) ltac:(lia) w0)
    as (net & w1 & Hrun & Htop).
  exists net, w1. split; [exact Hrun|].
  destruct Htop as ((Hb & Hu & _) & _).
  destruct net as [e0 e1 e2 e3 e4 d4 d3 d2 d1 d0 c sm]. cbn [SegNet.encoder0] in *.
  destruct e0 as [blk|blk]; [|discriminate].
  destruct blk as [layers pool]. unfold enc_units in Hu. cbn in Hu.
  destruct layers as [|u layers]; [discriminate|]. cbn [map] in Hu.
  injection Hu as Hu _. apply unit_shape_inv in Hu as (p & flag & st & ->).
  reflexivity.
Qed.


Lemma encoder_block_spec_witness :
  0 < 3 /\ 0 < 64 /\ 1 <= 2
  /\ exists blk w0',
       @_EncBlock.__init__ toy_runtime 3 64 2 toy_world = Ok (blk, w0')
       /\ map unit_shape (_EncBlock.layers blk) = [Some (3, 64); Some (64, 64)]
       /\ exists u y indices blk' w2,
            _EncBlock.forward blk (toy_input 1 3 4 6) w0' = Ok ((y, indices, blk'), w2)
            /\ shaped y 1 64 2 3 /\ shaped indices 1 64 2 3
            /\ (forall b c i j, (i < 2)%nat -> (j < 3)%nat ->
                  pooled_from u b c i j (at4 y b c i j) (at4 indices b c i j)
                  /\ window_max u b c i j (at4 y b c i j)).
Proof.
  split; [lia|]. split; [lia|]. split; [lia|].
  destruct (@encoder_block_spec toy_runtime 3 64 2 toy_world
              ltac:(lia) ltac:(lia) ltac:(lia))
    as (blk & w0' & E & Hu & _ & _ & Hf & _).
  exists blk, w0'. split; [exact E|]. split; [exact Hu|].
  destruct (Hf (toy_input 1 3 4 6) w0' eq_refl ltac:(cbn; lia) ltac:(cbn; lia))
    as (u & l' & w1 & y & idx & w2 & _ & _ & _ & _ & Ef & Hy & Hidx & Hpool & Hmax).
  exists u, y, idx, (_EncBlock.mk l' (_EncBlock.max_pool blk)), w2.
  split; [exact Ef|]. split; [exact Hy|]. split; [exact Hidx|].
  intros b c i j Hi Hj. split; [now apply Hpool | now apply (Hmax toy_gt_laws)].
Defined.

Lemma decoder_block_spec_witness :
  0 < 64 /\ 0 < 32 /\ 1 <= 3
  /\ exists blk w0',
       @_DecBlock.__init__ toy_runtime 64 32 3 toy_world = Ok (blk, w0')
       /\ map unit_shape (_DecBlock.layers blk)
          = [Some (64, 64); Some (64, 64); Some (64, 32)]
       /\ exists y blk' w2,
            _DecBlock.forward blk (toy_input 1 64 2 3) toy_indices_6 None w0'
              = Ok ((y, blk'), w2)
            /\ size y = [1; 32; 4; 6].
Proof.
  split; [lia|]. split; [lia|]. split; [lia|].
  destruct (@decoder_block_spec toy_runtime 64 32 3 toy_world
              ltac:(lia) ltac:(lia) ltac:(lia))
    as (blk & w0' & E & Hu & _ & _ & Hf & _).
  exists blk, w0'. split; [exact E|]. split; [exact Hu|].
  destruct (Hf (toy_input 1 64 2 3) toy_indices_6 None 4%nat 6%nat w0')
    as (u & w1 & y & l' & w2 & _ & _ & _ & _ & Ef & Hy).
  - reflexivity.
  - cbn; lia.
  - cbn; lia.
  - repeat split.
  - intros ib ic i j _ _ Hi Hj. cbn in Hi, Hj. cbn [at4 toy_indices_6]. lia.
  - split; reflexivity.
  - cbn. lia.
  - exists y, (_DecBlock.mk (_DecBlock.max_unpool blk) l'), w2.
    split; [exact Ef | exact Hy].
Defined.

Lemma num_layers_below_one_builds_one_unit_witness :
  0 < 3 /\ 0 < 64 /\ -3 <= 1
  /\ @_EncBlock.__init__ toy_runtime 3 64 (-3) = _EncBlock.__init__ 3 64 1
  /\ @_DecBlock.__init__ toy_runtime 3 64 (-3) = _DecBlock.__init__ 3 64 1
  /\ (forall w, exists b w',
         @_EncBlock.__init__ toy_runtime 3 64 (-3) w = Ok (b, w')
         /\ map unit_shape (_EncBlock.layers b) = [Some (3, 64)])
  /\ (forall w, exists b w',
         @_DecBlock.__init__ toy_runtime 3 64 (-3) w = Ok (b, w')
         /\ map unit_shape (_DecBlock.layers b) = [Some (3, 64)]).
Proof.
  split; [lia|]. split; [lia|]. split; [lia|].
  exact (@num_layers_below_one_builds_one_unit toy_runtime 3 64 (-3)
           ltac:(lia) ltac:(lia) ltac:(lia)).
Defined.

Lemma pool_then_unpool_keeps_maxima_witness :
  0 < 3 /\ 0 < 2 /\ 0 < 3 /\ Z.of_nat (tC (toy_input 1 3 4 5)) = 3
  /\ (2 <= tH (toy_input 1 3 4 5))%nat /\ (2 <= tW (toy_input 1 3 4 5))%nat
  /\ exists enc w1 dec w2,
       @_EncBlock.__init__ toy_runtime 3 2 1 toy_world = Ok (enc, w1)
       /\ _DecBlock.__init__ 2 3 1 w1 = Ok (dec, w2)
       /\ exists u y indices enc' w3 (v : Tensor (@scalar toy_runtime)) z dec' w4,
            _EncBlock.forward enc (toy_input 1 3 4 5) w2 = Ok ((y, indices, enc'), w3)
            /\ _DecBlock.forward dec y indices (Some (size (toy_input 1 3 4 5))) w3
               = Ok ((z, dec'), w4)
            /\ size z = [1; 3; 4; 5]
            /\ shaped v 1 2 4 5
            /\ (forall b c i j, (i < 2)%nat -> (j < 2)%nat ->
                  window_max u b c i j (at4 y b c i j)).
Proof.
  split; [lia|]. split; [lia|]. split; [lia|]. split; [reflexivity|].
  split; [cbn; lia|]. split; [cbn; lia|].
  destruct (@pool_then_unpool_keeps_maxima toy_runtime 3 2 3 1 1 (toy_input 1 3 4 5)
              toy_world ltac:(lia) ltac:(lia) ltac:(lia) eq_refl
              ltac:(cbn; lia) ltac:(cbn; lia))
    as (enc & w1 & dec & w2 & Eenc & Edec & Hf).
  exists enc, w1, dec, w2. split; [exact Eenc|]. split; [exact Edec|].
  destruct (Hf w2)
    as (u & wu & y & indices & enc' & w3 & v & wv & z & dec' & w4
        & _ & _ & E1 & _ & _ & E2 & Hz & _ & Hv & _ & Hmax).
  exists u, y, indices, enc', w3, v, z, dec', w4.
  split; [exact E1|]. split; [exact E2|]. split; [exact Hz|]. split; [exact Hv|].
  exact (Hmax toy_gt_laws).
Defined.

Lemma every_class_forward_shape_witness :
  0 < 3 /\ 0 < 10 /\ Z.of_nat (tC (toy_input 1 3 33 47)) = 3
  /\ (32 <= tH (toy_input 1 3 33 47))%nat /\ (32 <= tW (toy_input 1 3 33 47))%nat
  /\ exists net w1,
       @construct toy_runtime CBayesCenterSegNet 3 10 toy_world = Ok (net, w1)
       /\ forall w, exists y net' w',
            SegNet.forward (SegNet.train true net) (toy_input 1 3 33 47) w
              = Ok ((y, net'), w')
            /\ size y = [1; 10; 33; 47].
Proof.
  split; [lia|]. split; [lia|]. split; [reflexivity|].
  split; [cbn; lia|]. split; [cbn; lia|].
  exact (@every_class_forward_shape toy_runtime CBayesCenterSegNet 3 10 true
           (toy_input 1 3 33 47) toy_world
           ltac:(lia) ltac:(lia) eq_refl ltac:(cbn; lia) ltac:(cbn; lia)).
Defined.

Lemma forward_changes_statistics_only_witness :
  0 < 3 /\ 0 < 10 /\ Z.of_nat (tC (toy_input 2 3 40 32)) = 3
  /\ (32 <= tH (toy_input 2 3 40 32))%nat /\ (32 <= tW (toy_input 2 3 40 32))%nat
  /\ exists net w1,
       @construct toy_runtime CBayesEncoderSegNet 3 10 toy_world = Ok (net, w1)
       /\ forall w, exists y1 y2 net2 w',
            forward_twice (SegNet.train true net) (toy_input 2 3 40 32) w
              = Ok ((y1, y2, net2), w')
            /\ size y1 = [2; 10; 40; 32]
            /\ size y2 = [2; 10; 40; 32]
            /\ net_like (SegNet.train true net) net2.
Proof.
  split; [lia|]. split; [lia|]. split; [reflexivity|].
  split; [cbn; lia|]. split; [cbn; lia|].
  exact (@forward_changes_statistics_only toy_runtime CBayesEncoderSegNet 3 10 true
           (toy_input 2 3 40 32) toy_world
           ltac:(lia) ltac:(lia) eq_refl ltac:(cbn; lia) ltac:(cbn; lia)).
Defined.

Lemma make_layer_unit_domain_witness :
  0 < 3 /\ 0 < 8
  /\ exists u w0',
       @_make_layer toy_runtime 3 8 toy_world = Ok (u, w0')
       /\ forall (x : Tensor (@scalar toy_runtime)) (w : @World toy_runtime),
            ((exists r w', call_unit u x w = Ok (r, w'))
             <-> (Z.of_nat (tC x) = 3
                  /\ (1 <= tH x)%nat /\ (1 <= tW x)%nat
                  /\ (tB x * tH x * tW x <> 1)%nat))
            /\ (forall r w', call_unit u x w = Ok (r, w') ->
                  shaped (fst r) (tB x) (Z.to_nat 8) (tH x) (tW x)
                  /\ unit_shape (snd r) = Some (3, 8)).
Proof.
  split; [lia|]. split; [lia|].
  exact (@make_layer_unit_domain toy_runtime 3 8 toy_world ltac:(lia) ltac:(lia)).
Defined.

Lemma bayes_decoder_is_dropout_of_plain_witness :
  0 < 4 /\ 0 < 2
  /\ exists b w1,
       @_BayesDecBlock.__init__ toy_runtime 4 2 2 toy_world = Ok (b, w1)
       /\ _DecBlock.__init__ 4 2 2 toy_world = Ok (_BayesDecBlock.super b, w1)
       /\ _BayesDecBlock.dropout b = nn.Dropout2d.mk (1 # 2) false true.
Proof.
  split; [lia|]. split; [lia|].
  exact (proj1 (@bayes_decoder_is_dropout_of_plain toy_runtime 4 2 2 toy_world
                  ltac:(lia) ltac:(lia))).
Defined.

Lemma forward_returns_only_from_32_witness :
  0 < 3 /\ 0 < 10
  /\ exists net w1,
       @construct toy_runtime CBayesCenterSegNet 3 10 toy_world = Ok (net, w1)
       /\ forall (x : Tensor (@scalar toy_runtime)) (w : @World toy_runtime) r w',
            SegNet.forward (SegNet.train true net) x w = Ok (r, w') ->
            Z.of_nat (tC x) = 3 /\ (32 <= tH x)%nat /\ (32 <= tW x)%nat.
Proof.
  split; [lia|]. split; [lia|].
  exact (@forward_returns_only_from_32 toy_runtime CBayesCenterSegNet 3 10 true toy_world
           ltac:(lia) ltac:(lia)).
Defined.

Lemma plain_SegNet_never_draws_witness :
  0 < 3 /\ 0 < 10
  /\ exists net w1,
       @SegNet.__init__ toy_runtime 3 10 toy_world = Ok (net, w1)
       /\ (forall (x : Tensor (@scalar toy_runtime)) (wa wb : @World toy_runtime),
             outcome (SegNet.forward (SegNet.train true net) x wa)
             = outcome (SegNet.forward (SegNet.train true net) x wb))
       /\ (forall (x : Tensor (@scalar toy_runtime)) (w : @World toy_runtime) r w',
             SegNet.forward (SegNet.train true net) x w = Ok (r, w') -> rng w' = rng w)
       /\ (forall (x : Tensor (@scalar toy_runtime)) (wa wb : @World toy_runtime),
             outcome (forward_twice (SegNet.train true net) x wa)
             = outcome (forward_twice (SegNet.train true net) x wb)).
Proof.
  split; [lia|]. split; [lia|].
  exact (@plain_SegNet_never_draws toy_runtime 3 10 true toy_world ltac:(lia) ltac:(lia)).
Defined.

Lemma SegNet_built_with_fixed_topology_witness :
  0 < 3 /\ 0 < 10
  /\ exists net w',
       @SegNet.__init__ toy_runtime 3 10 toy_world = Ok (net, w')
       /\ segnet_topology 3 10 net.
Proof.
  split; [lia|]. split; [lia|].
  exact (@SegNet_built_with_fixed_topology toy_runtime 3 10 toy_world
           ltac:(lia) ltac:(lia)).
Defined.

Lemma variants_replace_blocks_witness :
  0 < 3 /\ 0 < 10
  /\ exists base w1,
       @SegNet.__init__ toy_runtime 3 10 toy_world = Ok (base, w1)
       /\ segnet_topology 3 10 base
       /\ (exists net w2,
             BayesEncoderSegNet.__init__ 3 10 toy_world = Ok (net, w2)
             /\ bayes_enc [(3, 64); (64, 64)] (SegNet.encoder0 net)
             /\ bayes_enc [(512, 512); (512, 512); (512, 512)] (SegNet.encoder4 net)
             /\ SegNet.decoder4 net = SegNet.decoder4 base
             /\ SegNet.decoder0 net = SegNet.decoder0 base)
       /\ (exists net w2,
             BayesCenterSegNet.__init__ 3 10 toy_world = Ok (net, w2)
             /\ SegNet.encoder0 net = SegNet.encoder0 base
             /\ bayes_enc [(128, 256); (256, 256); (256, 256)] (SegNet.encoder2 net)
             /\ bayes_dec [(256, 256); (256, 256); (256, 128)] (SegNet.decoder2 net)
             /\ SegNet.decoder1 net = SegNet.decoder1 base).
Proof.
  split; [lia|]. split; [lia|].
  destruct (@variants_replace_blocks toy_runtime 3 10 toy_world ltac:(lia) ltac:(lia))
    as (base & w1 & E & Htop & (n1 & v1 & E1 & B0 & _ & _ & _ & B4 & D4 & _ & _ & _ & D0 & _)
        & (n2 & v2 & E2 & C0 & _ & C2 & _ & _ & _ & _ & F2 & F1 & _) & _).
  exists base, w1. split; [exact E|]. split; [exact Htop|]. split.
  - exists n1, v1. repeat (split; [assumption|]). assumption.
  - exists n2, v2. repeat (split; [assumption|]). assumption.
Defined.

Lemma bayes_encoder_returns_pool_indices_witness :
  0 < 3 /\ 0 < 64
  /\ exists b w1,
       @_BayesEncBlock.__init__ toy_runtime 3 64 2 toy_world = Ok (b, w1)
       /\ _EncBlock.__init__ 3 64 2 toy_world = Ok (_BayesEncBlock.super b, w1)
       /\ _BayesEncBlock.dropout b = nn.Dropout2d.mk (1 # 2) false true.
Proof.
  split; [lia|]. split; [lia|].
  exact (proj1 (@bayes_encoder_returns_pool_indices toy_runtime 3 64 2 toy_world
                  ltac:(lia) ltac:(lia))).
Defined.
